(** * The WoW OBJ importer: mesh, material-library and placement logic

    A shallow embedding of [importWoWOBJ]
    (addons/blender/2.80/io_scene_wowobj/import_wowobj.py): the streaming
    parser of the OBJ-like mesh file, the parser of the material library,
    and the loop over the rows of the placement table, with the Blender
    data the loop reads and writes (objects looked up by name, the scene
    property [importedModelIDs]) kept in an explicit state. *)

From Stdlib Require Import ZArith String Ascii List Bool Lia.
From stdpp Require Import base option list gmap strings pretty.

Local Open Scope string_scope.
Local Open Scope Z_scope.
Local Open Scope list_scope.

(** ** Python values and exceptions *)

Module Py.

(** The exceptions the modelled statements can raise. *)
Inductive PyExn : Type :=
| IndexError
| ValueError
| KeyError
| AttributeError
| FileNotFoundError.

(** A computation that returns or raises (no state). *)
Inductive Exc (A : Type) : Type :=
| Ret (a : A)
| Raise (e : PyExn).
Arguments Ret {A} a.
Arguments Raise {A} e.

Definition ebind {A B} (m : Exc A) (k : A → Exc B) : Exc B :=
  match m with
  | Ret a => k a
  | Raise e => Raise e
  end.

#[export] Instance exc_bind : MBind Exc := λ A B k m, ebind m k.
#[export] Instance exc_ret : MRet Exc := λ A a, Ret a.

(** [o] or, when it is [None], the exception [e]. *)
Definition orraise {A} (e : PyExn) (o : option A) : Exc A :=
  match o with
  | Some a => Ret a
  | None => Raise e
  end.

(** [l[i]] with Python's negative indices: the position read, if any. *)
Definition index_pos (len : nat) (i : Z) : option nat :=
  if (0 <=? i) && (i <? Z.of_nat len) then Some (Z.to_nat i)
  else if (i <? 0) && (- Z.of_nat len <=? i) then Some (Z.to_nat (Z.of_nat len + i))
  else None.

Definition getitem {A} (l : list A) (i : Z) : Exc A :=
  match index_pos (length l) i with
  | Some k => orraise IndexError (l !! k)
  | None => Raise IndexError
  end.

(** [l[i] = f(l[i])]: an in-place change of the element at index [i]. *)
Definition moditem {A} (l : list A) (i : Z) (f : A → A) : Exc (list A) :=
  match index_pos (length l) i with
  | Some k => Ret (alter f k l)
  | None => Raise IndexError
  end.

(** *** Strings *)

(** ASCII whitespace, as [bytes.split()] and [str.split()] see it. *)
Definition is_space (c : ascii) : bool :=
  match N_of_ascii c with
  | 9%N | 10%N | 11%N | 12%N | 13%N | 32%N => true
  | _ => false
  end.

Fixpoint split_go (s : string) (tok : string) : list string :=
  match s with
  | EmptyString => match tok with EmptyString => [] | _ => [tok] end
  | String c r =>
      if is_space c then
        match tok with
        | EmptyString => split_go r ""
        | _ => tok :: split_go r ""
        end
      else split_go r (tok +:+ String c "")
  end.

(** [line.split()]. *)
Definition split (line : string) : list string := split_go line "".

(** [s.startswith(p)]. *)
Fixpoint startswith (s p : string) {struct p} : bool :=
  match p with
  | EmptyString => true
  | String a p' =>
      match s with
      | EmptyString => false
      | String b s' => Ascii.eqb a b && startswith s' p'
      end
  end.

Definition is_slash (c : ascii) : bool := Ascii.eqb c "/"%char.

Fixpoint has_slash (s : string) : bool :=
  match s with
  | EmptyString => false
  | String c r => is_slash c || has_slash r
  end.

(** [v.split(b'/')[0]]: what precedes the first slash. *)
Fixpoint before_slash (s : string) : string :=
  match s with
  | EmptyString => ""
  | String c r => if is_slash c then "" else String c (before_slash r)
  end.

(** [s[-1]] as a one-character string. *)
Fixpoint last_char (s : string) : option string :=
  match s with
  | EmptyString => None
  | String c EmptyString => Some (String c "")
  | String _ r => last_char r
  end.

(** [s.replace(old, new)]: every occurrence, left to right, without overlap.
    [old] is not empty where the importer calls it. *)
Fixpoint replace_go (old new : string) (skip : nat) (s : string) : string :=
  match s with
  | EmptyString => ""
  | String c r =>
      match skip with
      | S k => replace_go old new k r
      | O =>
          if startswith s old
          then new +:+ replace_go old new (Nat.pred (String.length old)) r
          else String c (replace_go old new O r)
      end
  end.

Definition replace (old new s : string) : string := replace_go old new O s.

(** *** [os.path] (the POSIX flavour) *)

(** [p[p.rfind('/')+1:]], which is [os.path.basename(p)]. *)
Fixpoint basename (p : string) : string :=
  match p with
  | EmptyString => ""
  | String c r =>
      if has_slash r then basename r
      else if is_slash c then r else p
  end.

(** [p[:p.rfind('/')+1]]. *)
Fixpoint head_part (p : string) : string :=
  match p with
  | EmptyString => ""
  | String c r =>
      if has_slash r then String c (head_part r)
      else if is_slash c then String c "" else ""
  end.

Fixpoint all_slash (s : string) : bool :=
  match s with
  | EmptyString => true
  | String c r => is_slash c && all_slash r
  end.

(** [s.rstrip('/')]. *)
Fixpoint rstrip_slash (s : string) : string :=
  match s with
  | EmptyString => ""
  | String c r => if all_slash s then "" else String c (rstrip_slash r)
  end.

(** [os.path.split(p)]. *)
Definition path_split (p : string) : string * string :=
  let head := head_part p in
  let head' :=
    match head with
    | EmptyString => head
    | _ => if all_slash head then head else rstrip_slash head
    end in
  (head', basename p).

Definition dirname (p : string) : string := fst (path_split p).

Fixpoint ends_with_slash (s : string) : bool :=
  match s with
  | EmptyString => false
  | String c EmptyString => is_slash c
  | String _ r => ends_with_slash r
  end.

(** [os.path.join(a, b)]. *)
Definition path_join (a b : string) : string :=
  if startswith b "/" then b
  else match a with
       | EmptyString => b
       | _ => if ends_with_slash a then a +:+ b else a +:+ "/" +:+ b
       end.

End Py.
Export Py.

(** ** Numbers of the host

    Python floats, [int()], [float()], [math.radians] and mathutils'
    [Quaternion.to_euler] are not part of the importer: the model takes them
    as an interface, and every statement below holds for each implementation
    of it. [pyfloat s] and [pyint s] are [None] where [float(s)] and [int(s)]
    raise [ValueError]. *)

Class FloatType : Type := float : Type.

Class HostNum `{FloatType} : Type := {
  pyfloat : string → option float;
  pyint : string → option Z;
  of_int : Z → float;
  fadd : float → float → float;
  fsub : float → float → float;
  fmul : float → float → float;
  fdiv : float → float → float;
  fneg : float → float;
  radians : float → float;
  to_euler : float * float * float * float → float * float * float
}.

(** ** The mesh document (lines 196-247) *)

(** [class OBJMesh]: one group of the file. *)
Record OBJMesh : Type := mkOBJMesh {
  m_usemtl : string;
  m_name : string;
  m_verts : gset Z;
  m_faces : list (Z * Z * Z)
}.

Definition new_OBJMesh : OBJMesh := mkOBJMesh "" "" ∅ [].

Definition with_name (n : string) (m : OBJMesh) : OBJMesh :=
  mkOBJMesh (m_usemtl m) n (m_verts m) (m_faces m).

Definition with_usemtl (n : string) (m : OBJMesh) : OBJMesh :=
  mkOBJMesh n (m_name m) (m_verts m) (m_faces m).

(** [faces.append((fv[0], fv[1], fv[2]))] then [verts.update([i - 1 for i in fv])]. *)
Definition add_face (face : Z * Z * Z) (fv : list Z) (m : OBJMesh) : OBJMesh :=
  mkOBJMesh (m_usemtl m) (m_name m)
            (m_verts m ∪ list_to_set ((λ i, i - 1) <$> fv))
            (m_faces m ++ [face]).

Section Mesh.
Context `{Host : HostNum}.

(** The variables of the parsing loop. *)
Record ObjDoc : Type := mkObjDoc {
  mtlfile : string;
  verts : list (list float);
  normals : list (list float);
  uvs : list (list (list float));
  meshes : list OBJMesh;
  meshIndex : Z
}.

Definition obj_init : ObjDoc := mkObjDoc "" [] [] [] [] (-1).

(** [[float(v) for v in line_split[1:]]]. *)
Definition floats (args : list string) : Exc (list float) :=
  orraise ValueError (mapM pyfloat args).

(** [layer_index] of a [vt] token: the last character alone is read. *)
Definition vt_layer_index (line_start : string) : Exc Z :=
  if (2 <? String.length line_start)%nat then
    c ← orraise IndexError (last_char line_start);
    n ← orraise ValueError (pyint c);
    mret (n - 1)
  else mret 0.

(** One iteration of [for line in f] (lines 216-247). *)
Definition obj_line (st : ObjDoc) (line : string) : Exc ObjDoc :=
  match split line with
  | [] => mret st
  | line_start :: args =>
      if String.eqb line_start "mtllib" then
        f ← orraise IndexError (head args);
        mret (mkObjDoc f (verts st) (normals st) (uvs st) (meshes st) (meshIndex st))
      else if String.eqb line_start "v" then
        v ← floats args;
        mret (mkObjDoc (mtlfile st) (verts st ++ [v]) (normals st) (uvs st)
                       (meshes st) (meshIndex st))
      else if String.eqb line_start "vn" then
        v ← floats args;
        mret (mkObjDoc (mtlfile st) (verts st) (normals st ++ [v]) (uvs st)
                       (meshes st) (meshIndex st))
      else if startswith line_start "vt" then
        layer_index ← vt_layer_index line_start;
        let uvs1 :=
          if Z.of_nat (length (uvs st)) <=? layer_index
          then uvs st ++ [[]] else uvs st in
        match index_pos (length uvs1) layer_index with
        | None => Raise IndexError
        | Some k =>
            uv ← floats args;
            mret (mkObjDoc (mtlfile st) (verts st) (normals st)
                           (alter (λ layer, layer ++ [uv]) k uvs1)
                           (meshes st) (meshIndex st))
        end
      else if String.eqb line_start "f" then
        fv ← orraise ValueError (mapM (λ v, pyint (before_slash v)) args);
        match index_pos (length (meshes st)) (meshIndex st), fv with
        | Some k, a :: b :: c :: _ =>
            mret (mkObjDoc (mtlfile st) (verts st) (normals st) (uvs st)
                           (alter (add_face (a, b, c) fv) k (meshes st))
                           (meshIndex st))
        | _, _ => Raise IndexError
        end
      else if String.eqb line_start "g" then
        let meshIndex' := meshIndex st + 1 in
        let meshes' := meshes st ++ [new_OBJMesh] in
        n ← orraise IndexError (head args);
        ms ← moditem meshes' meshIndex' (with_name n);
        mret (mkObjDoc (mtlfile st) (verts st) (normals st) (uvs st) ms meshIndex')
      else if String.eqb line_start "usemtl" then
        n ← orraise IndexError (head args);
        ms ← moditem (meshes st) (meshIndex st) (with_usemtl n);
        mret (mkObjDoc (mtlfile st) (verts st) (normals st) (uvs st) ms (meshIndex st))
      else mret st
  end.

Fixpoint obj_lines (st : ObjDoc) (lines : list string) : Exc ObjDoc :=
  match lines with
  | [] => mret st
  | line :: rest => st' ← obj_line st line; obj_lines st' rest
  end.

(** The whole [with open(objectFile, 'rb')] block. *)
Definition parse_obj (lines : list string) : Exc ObjDoc :=
  obj_lines obj_init lines.

End Mesh.

(** ** The material library (lines 253-268) *)

Record MtlState : Type := mkMtl {
  materials : gmap string string;
  matname : string;
  matfile : string
}.

Definition mtl_init : MtlState := mkMtl ∅ "" "".

(** One iteration of the loop over the library's lines. *)
Definition mtl_line (baseDir : string) (st : MtlState) (line : string) : Exc MtlState :=
  match split line with
  | [] => mret st
  | line_start :: args =>
      if String.eqb line_start "newmtl" then
        n ← orraise IndexError (head args);
        mret (mkMtl (materials st) n (matfile st))
      else if String.eqb line_start "map_Kd" then
        f ← orraise IndexError (head args);
        mret (mkMtl (<[matname st := path_join baseDir f]> (materials st)) (matname st) f)
      else mret st
  end.

Fixpoint mtl_lines (baseDir : string) (st : MtlState) (lines : list string) : Exc MtlState :=
  match lines with
  | [] => mret st
  | line :: rest => st' ← mtl_line baseDir st line; mtl_lines baseDir st' rest
  end.

Definition parse_mtl (baseDir : string) (lines : list string) : Exc MtlState :=
  mtl_lines baseDir mtl_init lines.


(** ** The scene (what the importer reads and writes of Blender)

    Objects are kept in creation order and named by their position; an
    object's mesh is a position in [mesh_data], so two objects share a mesh
    when their [o_data] are equal. [bpy.context.scene] is used as a Python
    mapping, of which the importer touches the key [importedModelIDs]. *)

Record Settings : Type := mkSettings {
  importTextures : bool;
  useAlpha : bool;
  useTerrainBlending : bool;
  importWMO : bool;
  importM2 : bool;
  importGOBJ : bool;
  importWMOSets : bool;
  allowDuplicates : bool;
  createVertexGroups : bool
}.

(** A placement table as [csv.DictReader] hands it over: the header and one
    mapping per row (every row with as many cells as the header). *)
Record CsvFile : Type := mkCsv {
  fieldnames : list string;
  rows : list (gmap string string)
}.

(** A file: its lines, and what [csv.DictReader(f, delimiter=';')] reads of it. *)
Record FileContent : Type := mkFile {
  lines : list string;
  table : CsvFile
}.

Definition FileSystem : Type := string → option FileContent.

(** [str(objindex).rjust(3, '0')]. *)
Definition rjust3 (s : string) : string :=
  match String.length s with
  | 0%nat => "000" +:+ s
  | 1%nat => "00" +:+ s
  | 2%nat => "0" +:+ s
  | _ => s
  end.

(** The loop of lines 277-282, which finds the name Blender gives to a new
    object called [objname]: the first of [objname], [objname.001],
    [objname.002], ... that no object has. Of the [S (length names)]
    candidates tried, one is free. *)
Fixpoint unique_go (fuel : nat) (names : list string) (objname : string)
    (objindex : nat) (newname : string) : string :=
  match fuel with
  | O => newname
  | S fuel' =>
      if bool_decide (newname ∈ names)
      then unique_go fuel' names objname (S objindex)
             (objname +:+ "." +:+ rjust3 (pretty objindex))
      else newname
  end.

Definition unique_name (names : list string) (objname : string) : string :=
  unique_go (S (length names)) names objname 1 objname.

Section Scene.
Context `{Host : HostNum}.

Definition vec3 : Type := float * float * float.

Definition set_x (v : float) (p : vec3) : vec3 := (v, p.1.2, p.2).
Definition set_y (v : float) (p : vec3) : vec3 := (p.1.1, v, p.2).
Definition set_z (v : float) (p : vec3) : vec3 := (p.1.1, p.1.2, v).

Record BObject : Type := mkBObject {
  o_name : string;
  o_data : option nat;
  o_parent : option nat;
  o_location : vec3;
  o_rotation_euler : vec3;
  o_scale : vec3
}.

Record Blender : Type := mkBlender {
  objects : list BObject;
  mesh_data : list ObjDoc;
  collection : list nat;
  importedModelIDs : option (list string);
  stdout : list string
}.

Definition names (st : Blender) : list string := o_name <$> objects st.

(** *** The importer's monad: state, exceptions, and fuel for the recursion *)

Inductive Res (A : Type) : Type :=
| Done (a : A) (st : Blender)
| Raised (e : PyExn) (st : Blender)
| OutOfFuel.
Arguments Done {A} a st.
Arguments Raised {A} e st.
Arguments OutOfFuel {A}.

Definition M (A : Type) : Type := Blender → Res A.

Definition ret {A} (a : A) : M A := λ st, Done a st.

Definition bind {A B} (m : M A) (k : A → M B) : M B :=
  λ st, match m st with
        | Done a st' => k a st'
        | Raised e st' => Raised e st'
        | OutOfFuel => OutOfFuel
        end.

Definition raise {A} (e : PyExn) : M A := λ st, Raised e st.

Definition lift {A} (x : Exc A) : M A :=
  match x with
  | Ret a => ret a
  | Raise e => raise e
  end.

Definition gets {A} (f : Blender → A) : M A := λ st, Done (f st) st.

Definition modify (f : Blender → Blender) : M unit := λ st, Done () (f st).

End Scene.

Arguments Done {_ A} a st.
Arguments Raised {_ A} e st.
Arguments OutOfFuel {_ A}.

Notation "'let*' x ':=' m 'in' k" := (bind m (λ x, k))
  (at level 10, x binder, m at level 100, k at level 200).
Notation "m ';;' k" := (bind m (λ _, k))
  (at level 100, k at level 200, right associativity).

Section Importer.
Context `{Host : HostNum}.

(** *** Blender data *)

Definition with_objects (f : list BObject → list BObject) (st : Blender) : Blender :=
  mkBlender (f (objects st)) (mesh_data st) (collection st)
            (importedModelIDs st) (stdout st).

Definition zero3 : vec3 := (of_int 0, of_int 0, of_int 0).
Definition one3 : vec3 := (of_int 1, of_int 1, of_int 1).

(** [print(s)]. *)
Definition print (s : string) : M unit :=
  modify (λ st, mkBlender (objects st) (mesh_data st) (collection st)
                          (importedModelIDs st) (stdout st ++ [s])).

(** [bpy.data.meshes.new(name)], filled from the parsed document, and
    [mesh.copy()]: a further mesh with the same content. *)
Definition meshes_new (doc : ObjDoc) : M nat :=
  λ st, Done (length (mesh_data st))
             (mkBlender (objects st) (mesh_data st ++ [doc]) (collection st)
                        (importedModelIDs st) (stdout st)).

Definition mesh_copy (data : option nat) : M nat :=
  λ st, match data with
        | None => Raised AttributeError st
        | Some m =>
            match mesh_data st !! m with
            | Some doc => meshes_new doc st
            | None => Raised AttributeError st
            end
        end.

(** Append an object under a name no object has yet. *)
Definition add_object (o : BObject) : M nat :=
  λ st, Done (length (objects st))
             (with_objects
                (λ l, l ++ [mkBObject (unique_name (names st) (o_name o)) (o_data o)
                                      (o_parent o) (o_location o)
                                      (o_rotation_euler o) (o_scale o)]) st).

(** [bpy.data.objects.new(name, data)]. *)
Definition objects_new (name : string) (data : option nat) : M nat :=
  add_object (mkBObject name data None zero3 zero3 one3).

(** [name in bpy.data.objects] and [bpy.data.objects[name]]. *)
Definition objects_find (name : string) (st : Blender) : option (nat * BObject) :=
  list_find (λ o, o_name o = name) (objects st).

Definition in_objects (name : string) : M bool :=
  gets (λ st, bool_decide (is_Some (objects_find name st))).

Definition objects_getitem (name : string) : M BObject :=
  λ st, match objects_find name st with
        | Some (_, o) => Done o st
        | None => Raised KeyError st
        end.

(** [originalObject.copy()]: every field of the original, a name of its own. *)
Definition object_copy (originalObject : BObject) : M nat := add_object originalObject.

Definition update (o : nat) (f : BObject → BObject) : M unit :=
  modify (with_objects (alter f o)).

Definition get_object (o : nat) : M BObject :=
  λ st, match objects st !! o with
        | Some b => Done b st
        | None => Raised KeyError st
        end.

Definition set_data (o : nat) (d : option nat) : M unit :=
  update o (λ b, mkBObject (o_name b) d (o_parent b) (o_location b)
                           (o_rotation_euler b) (o_scale b)).
Definition set_parent (o : nat) (p : option nat) : M unit :=
  update o (λ b, mkBObject (o_name b) (o_data b) p (o_location b)
                           (o_rotation_euler b) (o_scale b)).
Definition map_location (o : nat) (f : vec3 → vec3) : M unit :=
  update o (λ b, mkBObject (o_name b) (o_data b) (o_parent b) (f (o_location b))
                           (o_rotation_euler b) (o_scale b)).
Definition map_rotation (o : nat) (f : vec3 → vec3) : M unit :=
  update o (λ b, mkBObject (o_name b) (o_data b) (o_parent b) (o_location b)
                           (f (o_rotation_euler b)) (o_scale b)).
Definition set_scale (o : nat) (v : vec3) : M unit :=
  update o (λ b, mkBObject (o_name b) (o_data b) (o_parent b) (o_location b)
                           (o_rotation_euler b) v).

(** [o.name = name]: Blender keeps names unique among the other objects. *)
Definition set_name (o : nat) (name : string) : M unit :=
  λ st, update o (λ b, mkBObject (unique_name (o_name <$> delete o (objects st)) name)
                                 (o_data b) (o_parent b) (o_location b)
                                 (o_rotation_euler b) (o_scale b)) st.

(** [collection.link(o)]. *)
Definition link (o : nat) : M unit :=
  modify (λ st, mkBlender (objects st) (mesh_data st) (collection st ++ [o])
                          (importedModelIDs st) (stdout st)).

Definition set_importedModelIDs (l : list string) : M unit :=
  modify (λ st, mkBlender (objects st) (mesh_data st) (collection st)
                          (Some l) (stdout st)).

(** *** Reading a row *)

(** [row[key]]. *)
Definition row_get (row : gmap string string) (key : string) : M string :=
  lift (orraise KeyError (row !! key)).

(** [float(row[key])]. *)
Definition row_float (row : gmap string string) (key : string) : M float :=
  let* s := row_get row key in lift (orraise ValueError (pyfloat s)).

(** [if row['ScaleFactor']: o.scale = (float(..), float(..), float(..))]. *)
Definition apply_scale (row : gmap string string) (o : nat) : M unit :=
  let* s := row_get row "ScaleFactor" in
  if String.eqb s "" then ret ()
  else let* f := row_float row "ScaleFactor" in set_scale o (f, f, f).

(** [max_size = 51200 / 3]. *)
Definition max_size : float := fdiv (of_int 51200) (of_int 3).

Definition csv_suffix : string := "_ModelPlacementInformation.csv".

(** [tempModelIDList]: either the very list the scene holds under
    [importedModelIDs] (so that [append] is seen through the scene at once),
    or a list of the loop's own that the scene does not hold yet. *)
Inductive TempList : Type :=
| Shared
| Fresh (l : list string).

Definition temp_items (t : TempList) : M (list string) :=
  match t with
  | Shared => gets (λ st, default [] (importedModelIDs st))
  | Fresh l => ret l
  end.

(** [tempModelIDList.append(x)]. *)
Definition temp_append (t : TempList) (x : string) : M TempList :=
  match t with
  | Shared =>
      let* l := temp_items Shared in
      set_importedModelIDs (l ++ [x]) ;; ret Shared
  | Fresh l => ret (Fresh (l ++ [x]))
  end.

(** [bpy.context.scene['importedModelIDs'] = tempModelIDList] (line 515). *)
Definition temp_store (t : TempList) : M unit :=
  match t with
  | Shared => ret ()
  | Fresh l => set_importedModelIDs l
  end.

(** The three synthetic parents of an ADT import (lines 393-418) and the
    one of a WMO import (lines 424-429): an empty created as [name0],
    parented to [obj], renamed [name1], turned by -90 degrees about x. *)
Definition new_group (name0 name1 : string) (obj : nat) : M nat :=
  let* g := objects_new name0 None in
  set_parent g (Some obj) ;;
  set_name g name1 ;;
  map_rotation g (λ _, zero3) ;;
  map_rotation g (set_x (radians (of_int (-90)))) ;;
  link g ;;
  ret g.

Section Rows.
Variable fs : FileSystem.
Variable settings : Settings.
(** [importWoWOBJ(path, givenParent, settings)], entered from a row. *)
Variable rec : string → option nat → M nat.
Variable baseDir : string.

(** [os.path.exists(p)]. *)
Definition path_exists (p : string) : bool := bool_decide (is_Some (fs p)).

(** The copy branch of an m2 or gobj row (lines 482-486, 502-506). *)
Definition copy_turned (name : string) : M nat :=
  let* originalObject := objects_getitem name in
  let* importedFile := object_copy originalObject in
  map_rotation importedFile (λ _, zero3) ;;
  map_rotation importedFile (set_x (radians (of_int 90))) ;;
  link importedFile ;;
  ret importedFile.

(** A row of type [wmo] (lines 445-474). *)
Definition adt_wmo (wmoparent : option nat) (row : gmap string string) : M nat :=
  let* mf := row_get row "ModelFile" in
  print ("ADT WMO import: " +:+ mf) ;;
  let* parent := objects_new (basename mf +:+ " parent") None in
  set_parent parent wmoparent ;;
  let* px := row_float row "PositionX" in
  let* pz := row_float row "PositionZ" in
  let* py := row_float row "PositionY" in
  map_location parent
    (λ _, (fsub max_size px, fmul (fsub max_size pz) (of_int (-1)), py)) ;;
  map_rotation parent (λ _, zero3) ;;
  let* rz := row_float row "RotationZ" in
  map_rotation parent (λ r, set_x (fadd r.1.1 (radians rz)) r) ;;
  let* rx := row_float row "RotationX" in
  map_rotation parent (λ r, set_y (fadd r.1.2 (radians rx)) r) ;;
  let* ry := row_float row "RotationY" in
  map_rotation parent (set_z (radians (fadd (of_int 90) ry))) ;;
  apply_scale row parent ;;
  link parent ;;
  let* present := in_objects (basename mf) in
  let* importedFile :=
    if negb present then rec (path_join baseDir mf) (Some parent)
    else if path_exists (path_join baseDir (replace ".obj" csv_suffix mf))
    then rec (path_join baseDir mf) (Some parent)
    else
      let* originalObject := objects_getitem (basename mf) in
      let* importedFile := object_copy originalObject in
      let* data := mesh_copy (o_data originalObject) in
      set_data importedFile (Some data) ;;
      link importedFile ;;
      ret importedFile in
  set_parent importedFile (Some parent) ;;
  ret importedFile.

(** A row of type [m2] (lines 476-497). *)
Definition adt_m2 (doodadparent : option nat) (row : gmap string string) : M nat :=
  let* mf := row_get row "ModelFile" in
  print ("ADT M2 import: " +:+ mf) ;;
  let* present := in_objects (basename mf) in
  let* importedFile :=
    if negb present then rec (path_join baseDir mf) None
    else copy_turned (basename mf) in
  set_parent importedFile doodadparent ;;
  let* px := row_float row "PositionX" in
  map_location importedFile (set_x (fsub max_size px)) ;;
  let* pz := row_float row "PositionZ" in
  map_location importedFile (set_y (fmul (fsub max_size pz) (of_int (-1)))) ;;
  let* py := row_float row "PositionY" in
  map_location importedFile (set_z py) ;;
  let* rz := row_float row "RotationZ" in
  map_rotation importedFile (λ r, set_x (fadd r.1.1 (radians rz)) r) ;;
  let* rx := row_float row "RotationX" in
  map_rotation importedFile (λ r, set_y (fadd r.1.2 (radians rx)) r) ;;
  let* ry := row_float row "RotationY" in
  map_rotation importedFile (set_z (radians (fadd (of_int 90) ry))) ;;
  apply_scale row importedFile ;;
  ret importedFile.

(** A row of type [gobj] (lines 499-514). *)
Definition adt_gobj (gobjparent : option nat) (row : gmap string string) : M nat :=
  let* mf := row_get row "ModelFile" in
  let* present := in_objects (basename mf) in
  let* importedFile :=
    if negb present then rec (path_join baseDir mf) None
    else copy_turned (basename mf) in
  set_parent importedFile gobjparent ;;
  let* py := row_float row "PositionY" in
  let* px := row_float row "PositionX" in
  let* pz := row_float row "PositionZ" in
  map_location importedFile (λ _, (py, fneg px, pz)) ;;
  let* qx := row_float row "RotationX" in
  let* qy := row_float row "RotationY" in
  let* qz := row_float row "RotationZ" in
  let* qw := row_float row "RotationW" in
  map_rotation importedFile (λ _, to_euler (qx, qy, fneg qz, qw)) ;;
  apply_scale row importedFile ;;
  ret importedFile.

(** The choice among the three (lines 444, 475, 498). *)
Definition adt_dispatch (wmoparent doodadparent gobjparent : option nat)
    (row : gmap string string) : M unit :=
  let* ty := row_get row "Type" in
  if String.eqb ty "wmo" && importWMO settings then
    adt_wmo wmoparent row ;; ret ()
  else if String.eqb ty "m2" && importM2 settings then
    adt_m2 doodadparent row ;; ret ()
  else if String.eqb ty "gobj" && importGOBJ settings then
    adt_gobj gobjparent row ;; ret ()
  else ret ().

(** One row of an ADT table (lines 432-515). *)
Definition adt_row (wmoparent doodadparent gobjparent : option nat)
    (row : gmap string string) : M unit :=
  let* held := gets importedModelIDs in
  let tempModelIDList := match held with Some _ => Shared | None => Fresh [] end in
  let* mid := row_get row "ModelId" in
  let* items := temp_items tempModelIDList in
  if bool_decide (mid ∈ items) then
    if negb (allowDuplicates settings) then
      print ("Skipping already imported model " +:+ mid)
    else
      adt_dispatch wmoparent doodadparent gobjparent row ;;
      temp_store tempModelIDList
  else
    let* tempModelIDList := temp_append tempModelIDList mid in
    adt_dispatch wmoparent doodadparent gobjparent row ;;
    temp_store tempModelIDList.

(** One row of a WMO table (lines 518-535). *)
Definition wmo_row (givenParent : option nat) (obj : nat)
    (row : gmap string string) : M nat :=
  let* mf := row_get row "ModelFile" in
  print ("WMO M2 import: " +:+ mf) ;;
  let* present := in_objects (basename mf) in
  let* importedFile :=
    if negb present then rec (path_join baseDir mf) None
    else
      let* originalObject := objects_getitem (basename mf) in
      let* importedFile := object_copy originalObject in
      link importedFile ;;
      ret importedFile in
  let* px := row_float row "PositionX" in
  let* py := row_float row "PositionY" in
  let* pz := row_float row "PositionZ" in
  map_location importedFile (λ _, (px, py, pz)) ;;
  map_rotation importedFile (λ _, zero3) ;;
  let* qw := row_float row "RotationW" in
  let* qx := row_float row "RotationX" in
  let* qy := row_float row "RotationY" in
  let* qz := row_float row "RotationZ" in
  let rotEul := to_euler (qw, qx, qy, qz) in
  map_rotation importedFile
    (λ _, set_x (fadd rotEul.1.1 (radians (of_int 90))) rotEul) ;;
  set_parent importedFile (Some (default obj givenParent)) ;;
  apply_scale row importedFile ;;
  ret importedFile.

(** [for row in reader]. *)
Fixpoint for_rows (body : gmap string string → M unit)
    (rs : list (gmap string string)) : M unit :=
  match rs with
  | [] => ret ()
  | row :: rest => body row ;; for_rows body rest
  end.

(** The placement table of [obj] (lines 388-535). *)
Definition import_csv (t : CsvFile) (obj : nat) (givenParent : option nat) : M unit :=
  if bool_decide ("Type" ∈ fieldnames t) then
    let* wmoparent :=
      if importWMO settings
      then let* g := new_group "WMOs" "WMOs" obj in ret (Some g) else ret None in
    let* doodadparent :=
      if importM2 settings
      then let* g := new_group "Doodads" "Doodads" obj in ret (Some g) else ret None in
    let* gobjparent :=
      if importGOBJ settings
      then let* g := new_group "GameObjects" "GameObjects" obj in ret (Some g)
      else ret None in
    for_rows (adt_row wmoparent doodadparent gobjparent) (rows t)
  else
    let* givenParent :=
      match givenParent with
      | Some p => ret (Some p)
      | None =>
          print "WMO import without given parent, creating.." ;;
          if importWMOSets settings
          then let* g := new_group "WMO parent" "Doodads" obj in ret (Some g)
          else ret None
      end in
    for_rows (λ row, if importWMOSets settings
                     then wmo_row givenParent obj row ;; ret ()
                     else ret ())
             (rows t).

End Rows.

(** The mesh (lines 313-363). Three subscripts can raise: [normals[i]] for
    every vertex (line 318), [bm.verts[face[k] - 1]] for every face (lines
    331-333 and 346-348), and [layer[loop.vert.index]] for every channel and
    every corner of a face of [bm] (line 360). The other calls into the host
    (materials, UV layers, vertex groups) are taken to succeed. *)

(** The three subscripts of a face are in range. *)
Definition face_ok (nverts : nat) (face : Z * Z * Z) : bool :=
  bool_decide (is_Some (index_pos nverts (face.1.1 - 1)))
  && bool_decide (is_Some (index_pos nverts (face.1.2 - 1)))
  && bool_decide (is_Some (index_pos nverts (face.2 - 1))).

(** [(bm.verts[face[0] - 1], bm.verts[face[1] - 1], bm.verts[face[2] - 1])]:
    the vertices, as their positions in [bm.verts], which are their indices
    after line 322. *)
Definition face_verts (nverts : nat) (face : Z * Z * Z) : Exc (nat * nat * nat) :=
  a ← orraise IndexError (index_pos nverts (face.1.1 - 1));
  b ← orraise IndexError (index_pos nverts (face.1.2 - 1));
  c ← orraise IndexError (index_pos nverts (face.2 - 1));
  mret (a, b, c).

Definition corners (f : nat * nat * nat) : list nat := [f.1.1; f.1.2; f.2].

(** [bm.faces.new(...)] under the [try] of line 327. The host raises
    [ValueError] for a face that uses a vertex twice and for a face whose
    vertices are those of a face of [bm]; line 350 passes over it, and the
    face is not made. *)
Definition faces_new (bm_faces : list (nat * nat * nat)) (f : nat * nat * nat)
  : list (nat * nat * nat) :=
  if bool_decide (NoDup (corners f))
     && negb (existsb (λ g, forallb (λ v, bool_decide (v ∈ corners g)) (corners f))
                      bm_faces)
  then bm_faces ++ [f]
  else bm_faces.

(** The loop of lines 324-352 over the faces of every group: the faces of
    [bm] when it ends. *)
Fixpoint make_faces (nverts : nat) (faces : list (Z * Z * Z))
    (bm_faces : list (nat * nat * nat)) : Exc (list (nat * nat * nat)) :=
  match faces with
  | [] => Ret bm_faces
  | face :: rest =>
      f ← face_verts nverts face;
      make_faces nverts rest (faces_new bm_faces f)
  end.

(** [layer[loop.vert.index]] is in range for the corners of a face. *)
Definition uv_ok {A} (layer : list A) (f : nat * nat * nat) : bool :=
  forallb (λ v, v <? length layer)%nat (corners f).

Definition build_mesh (doc : ObjDoc) : Exc unit :=
  if (length (normals doc) <? length (verts doc))%nat then Raise IndexError
  else
    bm_faces ← make_faces (length (verts doc)) (concat (m_faces <$> meshes doc)) [];
    if forallb (λ layer, forallb (uv_ok layer) bm_faces) (uvs doc) then Ret ()
    else Raise IndexError.

(** [open(path)]. *)
Definition open (fs : FileSystem) (path : string) : M FileContent :=
  lift (orraise FileNotFoundError (fs path)).

(** The material library named by the mesh file (lines 253-268). The mapping
    goes to the host, which builds the materials from it. *)
Definition read_mtl (fs : FileSystem) (baseDir mtlfile : string)
  : M (gmap string string) :=
  if String.eqb mtlfile "" then ret ∅
  else
    let* f := open fs (path_join baseDir mtlfile) in
    let* m := lift (parse_mtl baseDir (lines f)) in
    ret (materials m).

(** [importWoWOBJ(objectFile, givenParent, settings)]. The recursion through
    the placement tables is bounded by [fuel]. *)
Fixpoint importWoWOBJ (fs : FileSystem) (settings : Settings) (fuel : nat)
    (objectFile : string) (givenParent : option nat) : M nat :=
  match fuel with
  | O => λ _, OutOfFuel
  | S fuel' =>
      let baseDir := (path_split objectFile).1 in
      let fileName := (path_split objectFile).2 in
      print ("Parsing OBJ: " +:+ fileName) ;;
      let* f := open fs objectFile in
      let* doc := lift (parse_obj (lines f)) in
      read_mtl fs baseDir (mtlfile doc) ;;
      let objname := basename objectFile in
      let* newmesh := meshes_new doc in
      let* obj := objects_new objname (Some newmesh) in
      lift (build_mesh doc) ;;
      map_rotation obj (λ _, zero3) ;;
      map_rotation obj (set_x (radians (of_int 90))) ;;
      link obj ;;
      let csvPath := replace ".obj" csv_suffix objectFile in
      let use_csv := importWMO settings || importM2 settings
                     || importWMOSets settings || importGOBJ settings in
      (if use_csv then
         match fs csvPath with
         | Some csvFile =>
             import_csv fs settings (importWoWOBJ fs settings fuel') baseDir
                        (table csvFile) obj givenParent
         | None => ret ()
         end
       else ret ()) ;;
      ret obj
  end.

(** [importWoWOBJAddon(objectFile, settings)]: the top-level call. *)
Definition importWoWOBJAddon (fs : FileSystem) (settings : Settings) (fuel : nat)
    (objectFile : string) : M unit :=
  importWoWOBJ fs settings fuel objectFile None ;; ret ().

End Importer.

(** ** An implementation of the host numbers, for evaluation

    Floats are the expressions that compute them: every operation builds its
    own term, so that a result shows the formula the importer applied. Of the
    literals [float()] and [int()] accept, this implementation reads the plain
    decimal ones, which is what the tables below contain. *)

Module Sym.

Inductive expr : Type :=
| Lit (s : string)
| Int (z : Z)
| Add (a b : expr)
| Sub (a b : expr)
| Mul (a b : expr)
| Div (a b : expr)
| Neg (a : expr)
| Radians (a : expr)
| Euler (axis : nat) (a b c d : expr).

(** The value of a decimal digit: its code, counted from the code of 0. *)
Definition digit (c : ascii) : option Z :=
  let n := Z.of_N (N_of_ascii c) in
  if (48 <=? n) && (n <=? 57) then Some (n - 48) else None.

Fixpoint digits (s : string) (acc : Z) : option Z :=
  match s with
  | EmptyString => Some acc
  | String c r =>
      match digit c with
      | Some d => digits r (10 * acc + d)
      | None => None
      end
  end.

Definition unsigned (s : string) : option Z :=
  match s with
  | EmptyString => None
  | _ => digits s 0
  end.

Definition int_literal (s : string) : option Z :=
  match s with
  | String "-" r => Z.opp <$> unsigned r
  | String "+" r => unsigned r
  | _ => unsigned s
  end.

Fixpoint before_dot (s : string) : string :=
  match s with
  | EmptyString => ""
  | String c r => if Ascii.eqb c "."%char then "" else String c (before_dot r)
  end.

Fixpoint after_dot (s : string) : option string :=
  match s with
  | EmptyString => None
  | String c r => if Ascii.eqb c "."%char then Some r else after_dot r
  end.

Definition float_literal (s : string) : option expr :=
  match int_literal (before_dot s), after_dot s with
  | Some _, None => Some (Lit s)
  | Some _, Some frac => match digits frac 0 with Some _ => Some (Lit s) | None => None end
  | None, _ => None
  end.

#[export] Instance expr_float : FloatType := expr.

#[export] Instance host : HostNum := {|
  pyfloat := float_literal;
  pyint := int_literal;
  of_int := Int;
  fadd := Add;
  fsub := Sub;
  fmul := Mul;
  fdiv := Div;
  fneg := Neg;
  radians := Radians;
  to_euler := λ q, (Euler 0 q.1.1.1 q.1.1.2 q.1.2 q.2,
                    Euler 1 q.1.1.1 q.1.1.2 q.1.2 q.2,
                    Euler 2 q.1.1.1 q.1.1.2 q.1.2 q.2)
|}.

(** A mesh file and a placement table, as files. *)
Definition obj_file (ls : list string) : FileContent := mkFile ls (mkCsv [] []).
Definition csv_file (header : list string) (rs : list (list (string * string)))
  : FileContent := mkFile [] (mkCsv header (list_to_map <$> rs)).

(** A file system given by its files. *)
Fixpoint files (l : list (string * FileContent)) (path : string) : option FileContent :=
  match l with
  | [] => None
  | (p, f) :: rest => if String.eqb p path then Some f else files rest path
  end.

Definition empty_scene : Blender := mkBlender [] [] [] None [].

Definition all_on : Settings := mkSettings true true false true true true true false true.

End Sym.

(** ** Small worlds to evaluate the importer on *)

Module Demo.
Import Sym.

(** One triangle in one group. *)
Definition tri : list string :=
  ["g grp"; "v 0 0 0"; "v 1 0 0"; "v 0 1 0";
   "vn 0 0 1"; "vn 0 0 1"; "vn 0 0 1";
   "vt 0 0"; "vt 1 0"; "vt 0 1"; "f 1/1/1 2/2/2 3/3/3"].

Definition adt_header : list string :=
  ["ModelFile"; "PositionX"; "PositionY"; "PositionZ";
   "RotationX"; "RotationY"; "RotationZ"; "RotationW";
   "ScaleFactor"; "ModelId"; "Type"].

Definition wmo_header : list string :=
  ["ModelFile"; "PositionX"; "PositionY"; "PositionZ";
   "RotationW"; "RotationX"; "RotationY"; "RotationZ"; "ScaleFactor"].

(** A row: category, file, identifier and scale factor as given, at
    position (100, 50, 200), turned by (10, 20, 30). *)
Definition placement (ty file id sf : string) : list (string * string) :=
  [("ModelFile", file); ("PositionX", "100"); ("PositionY", "50");
   ("PositionZ", "200"); ("RotationX", "10"); ("RotationY", "20");
   ("RotationZ", "30"); ("RotationW", "1"); ("ScaleFactor", sf);
   ("ModelId", id); ("Type", ty)].

Definition row (ty file id sf : string) : gmap string string :=
  list_to_map (placement ty file id sf).

(** A tile [/w/adt_1.obj] with the table [rs], and the models [tree.obj]
    and [house.obj] beside it. *)
Definition tile (rs : list (list (string * string))) : FileSystem :=
  files [("/w/adt_1.obj", obj_file tri);
         ("/w/tree.obj", obj_file tri);
         ("/w/house.obj", obj_file tri);
         ("/w/adt_1_ModelPlacementInformation.csv", csv_file adt_header rs)].

(** Two placements of the same tree; the second has no scale factor. *)
Definition two_trees : FileSystem :=
  tile [placement "m2" "tree.obj" "1" "2"; placement "m2" "tree.obj" "2" ""].

(** The same identifier twice. *)
Definition same_id : FileSystem :=
  tile [placement "m2" "tree.obj" "7" "1"; placement "m2" "tree.obj" "7" "1"].

(** A doodad and a building under one identifier. *)
Definition doodad_then_house : FileSystem :=
  tile [placement "m2" "tree.obj" "7" "1"; placement "wmo" "house.obj" "7" "1"].

(** The first row names a file that is not there. *)
Definition missing_first : FileSystem :=
  tile [placement "m2" "missing.obj" "1" "1"; placement "m2" "tree.obj" "2" "1"].

(** A building whose own table places the building itself. *)
Definition cyclic : FileSystem :=
  files [("/w/house.obj", obj_file tri);
         ("/w/house_ModelPlacementInformation.csv",
          csv_file wmo_header [placement "" "house.obj" "" "1"])].

(** A mesh whose library is in a directory below it. *)
Definition library_below : FileSystem :=
  files [("/a/x.obj", obj_file ["mtllib sub/x.mtl"]);
         ("/a/sub/x.mtl", obj_file ["newmtl m"; "map_Kd t.png"])].

Definition no_m2 : Settings :=
  mkSettings true true false true false true true false true.

Definition duplicates_allowed : Settings :=
  mkSettings true true false true true true true true true.

(** The scene a computation ends in ([empty_scene] when it ran out of fuel),
    the value it returned and the exception it raised, if any. *)
Definition scene_after {A} (r : Res A) : Blender :=
  match r with
  | Done _ st | Raised _ st => st
  | OutOfFuel => empty_scene
  end.

Definition returned {A} (r : Res A) : option A :=
  match r with
  | Done a _ => Some a
  | _ => None
  end.

Definition raised {A} (r : Res A) : option PyExn :=
  match r with
  | Raised e _ => Some e
  | _ => None
  end.

(** The exception a parser raised, if any. *)
Definition raises {A} (x : Exc A) : option PyExn :=
  match x with
  | Ret _ => None
  | Raise e => Some e
  end.

(** The field [f] of the object called [name]. *)
Definition field {A} (f : BObject → A) (name : string) (st : Blender) : option A :=
  (λ p, f p.2) <$> objects_find name st.

(** What a library reads as ([mtl_init] when it cannot be read). *)
Definition mtl_of (baseDir : string) (ls : list string) : MtlState :=
  match parse_mtl baseDir ls with
  | Ret st => st
  | Raise _ => mtl_init
  end.

(** What a mesh file reads as ([obj_init] when it cannot be read). *)
Definition doc_of (ls : list string) : ObjDoc :=
  match parse_obj ls with
  | Ret st => st
  | Raise _ => obj_init
  end.

Definition tree_1 : gmap string string := row "m2" "tree.obj" "1" "2".
Definition tree_2 : gmap string string := row "m2" "tree.obj" "2" "".
Definition tree_7 : gmap string string := row "m2" "tree.obj" "7" "1".
Definition house_7 : gmap string string := row "wmo" "house.obj" "7" "1".
Definition missing_1 : gmap string string := row "m2" "missing.obj" "1" "1".
Definition house_again : gmap string string := row "" "house.obj" "" "1".

(** The first import of the tile with the two trees, on an empty scene. *)
Definition first_import : Blender :=
  scene_after (importWoWOBJAddon two_trees all_on 2 "/w/adt_1.obj" empty_scene).

(** The scene with the first tree placed, and then the second. *)
Definition one_tree : Blender :=
  scene_after (adt_m2 (importWoWOBJ two_trees all_on 1) "/w" None tree_1 empty_scene).
Definition both_trees : Blender :=
  scene_after (adt_m2 (importWoWOBJ two_trees all_on 1) "/w" None tree_2 one_tree).

(** A scene that has the house. *)
Definition with_house : Blender :=
  scene_after (importWoWOBJ cyclic all_on 1 "/w/house.obj" None empty_scene).

End Demo.

(** * Notions the statements use *)

Section Notions.
Context `{Host : HostNum}.

(** [meshIndex] is the position of the group opened last. *)
Definition active_last (st : ObjDoc) : Prop :=
  meshIndex st = Z.of_nat (length (meshes st)) - 1.

(** The category of an ADT row is switched on. *)
Definition enabled (settings : Settings) (ty : string) : bool :=
  (String.eqb ty "wmo" && importWMO settings)
  || (String.eqb ty "m2" && importM2 settings)
  || (String.eqb ty "gobj" && importGOBJ settings).

(** The identifiers the scene holds ([[]] when it has no such key). *)
Definition registry (st : Blender) : list string :=
  default [] (importedModelIDs st).

(** [st], with [mid] appended to the scene's identifiers. *)
Definition register (mid : string) (st : Blender) : Blender :=
  mkBlender (objects st) (mesh_data st) (collection st)
            (Some (registry st ++ [mid])) (stdout st).

(** [st], with one more line printed. *)
Definition printed (line : string) (st : Blender) : Blender :=
  mkBlender (objects st) (mesh_data st) (collection st)
            (importedModelIDs st) (stdout st ++ [line]).

(** The import that is never entered. *)
Definition no_import : string → option nat → M nat := λ _ _ _, OutOfFuel.

(** [m] returns or raises without entering an import it has no fuel for. *)
Definition total {A} (m : M A) : Prop := ∀ st, m st ≠ OutOfFuel.

(** The identifiers the scene held are still there, in front. *)
Definition ids_grow (st st' : Blender) : Prop :=
  ∀ l, importedModelIDs st = Some l → ∃ l', importedModelIDs st' = Some (l ++ l').

(** [R] relates the state before to the state a computation ends in,
    whether it returns or raises. *)
Definition res_rel {A} (R : Blender → Blender → Prop) (st : Blender) (r : Res A) : Prop :=
  match r with
  | Done _ st' | Raised _ st' => R st st'
  | OutOfFuel => True
  end.

Definition preserves {A} (R : Blender → Blender → Prop) (m : M A) : Prop :=
  ∀ st, res_rel R st (m st).

(** The first [k] objects are as they were, no object or mesh is gone,
    and what was printed is still there. *)
Definition keeps (k : nat) (st st' : Blender) : Prop :=
  (∀ i, (i < k)%nat → objects st' !! i = objects st !! i)
  ∧ (length (objects st) ≤ length (objects st'))%nat
  ∧ (∃ ms, mesh_data st' = mesh_data st ++ ms)
  ∧ (∃ out, stdout st' = stdout st ++ out).

(** Started with at least [k] objects, [m], when it returns, has kept the
    first [k] and returns a value for which [Q] holds. *)
Definition spec {A} (k : nat) (Q : A → Prop) (m : M A) : Prop :=
  ∀ st, (k ≤ length (objects st))%nat →
        match m st with
        | Done a st' => keeps k st st' ∧ Q a
        | _ => True
        end.

(** An object made after the first [k]. *)
Definition later (k : nat) (o : nat) : Prop := (k ≤ o)%nat.

(** [f] changes an object's placement, not its name or its mesh. *)
Definition same_mesh (f : BObject → BObject) : Prop :=
  ∀ b, o_name (f b) = o_name b ∧ o_data (f b) = o_data b.

(** From [st] to [st'], the placement of object [o] changed at most. *)
Definition touches (o : nat) (st st' : Blender) : Prop :=
  ∃ f, same_mesh f ∧ objects st' = alter f o (objects st).

Definition only {A} (o : nat) (m : M A) : Prop :=
  ∀ st, match m st with
        | Done _ st' => touches o st st'
        | _ => True
        end.

(** [m] returns [o], having changed its placement at most. *)
Definition places (o : nat) (m : M nat) : Prop :=
  ∀ st, match m st with
        | Done a st' => a = o ∧ touches o st st'
        | _ => True
        end.

(** When [m] returns, the scene has at least one object more; no object less. *)
Definition adds {A} (m : M A) : Prop :=
  ∀ st, match m st with
        | Done _ st' => (length (objects st) < length (objects st'))%nat
        | _ => True
        end.

Definition grows {A} (m : M A) : Prop :=
  ∀ st, match m st with
        | Done _ st' => (length (objects st) ≤ length (objects st'))%nat
        | _ => True
        end.

End Notions.

(** What the library says, read as the specification words it: each [map_Kd]
    line pairs the material named by the last [newmtl] line with the path
    written on it. *)
Fixpoint mtl_bindings (current : string) (ls : list string) : list (string * string) :=
  match ls with
  | [] => []
  | line :: rest =>
      match split line with
      | tok :: arg :: _ =>
          if String.eqb tok "newmtl" then mtl_bindings arg rest
          else if String.eqb tok "map_Kd" then (current, arg) :: mtl_bindings current rest
          else mtl_bindings current rest
      | _ => mtl_bindings current rest
      end
  end.

(** Binding the pairs in order, each path joined to [baseDir]. *)
Definition bind_all (baseDir : string) (m : gmap string string)
    (bs : list (string * string)) : gmap string string :=
  foldl (λ acc b, <[b.1 := path_join baseDir b.2]> acc) m bs.

(** * Further definitions *)

(** ** What the lines of a mesh file say

    The statements about a whole file count its lines by what they say: the
    name a [g] line opens a group under, the library an [mtllib] line names,
    the operands of a line that begins with a given keyword. *)

Definition group_named (line : string) : option string :=
  match split line with
  | tok :: n :: _ => if String.eqb tok "g" then Some n else None
  | _ => None
  end.

Definition library_named (line : string) : option string :=
  match split line with
  | tok :: n :: _ => if String.eqb tok "mtllib" then Some n else None
  | _ => None
  end.

Definition operands (keyword line : string) : option (list string) :=
  match split line with
  | tok :: args => if String.eqb tok keyword then Some args else None
  | [] => None
  end.

(** The first token is one of those the loop of lines 220-247 tests for. *)
Definition is_statement (line : string) : bool :=
  match split line with
  | [] => false
  | tok :: _ =>
      String.eqb tok "mtllib" || String.eqb tok "v" || String.eqb tok "vn"
      || startswith tok "vt" || String.eqb tok "f" || String.eqb tok "g"
      || String.eqb tok "usemtl"
  end.

(** ** What an import reads, and the object it makes

    Lines 214-268 read the mesh file and its library before anything is
    created; [read_files] is that part as a function of the file system. The
    object made for the file at lines 284-285 and turned at 372-373 is
    [root_object]; [with_root] is the scene once it is linked (line 375). *)

Section Reading.
Context `{Host : HostNum}.

Definition read_files (fs : FileSystem) (objectFile : string)
  : Exc (ObjDoc * gmap string string) :=
  let baseDir := (path_split objectFile).1 in
  f ← orraise FileNotFoundError (fs objectFile);
  doc ← parse_obj (lines f);
  if String.eqb (mtlfile doc) "" then mret (doc, ∅)
  else
    m ← orraise FileNotFoundError (fs (path_join baseDir (mtlfile doc)));
    st ← parse_mtl baseDir (lines m);
    mret (doc, materials st).

Definition root_object (st : Blender) (objectFile : string) : BObject :=
  mkBObject (unique_name (names st) (basename objectFile))
            (Some (length (mesh_data st))) None
            zero3 (radians (of_int 90), of_int 0, of_int 0) one3.

Definition parsing (objectFile : string) (st : Blender) : Blender :=
  printed ("Parsing OBJ: " +:+ (path_split objectFile).2) st.

(** The object and its mesh are there, the object is in no collection. *)
Definition with_unlinked (doc : ObjDoc) (objectFile : string) (st : Blender) : Blender :=
  mkBlender (objects st ++ [mkBObject (unique_name (names st) (basename objectFile))
                                      (Some (length (mesh_data st))) None
                                      zero3 zero3 one3])
            (mesh_data st ++ [doc]) (collection st)
            (importedModelIDs st) (stdout (parsing objectFile st)).

Definition with_root (doc : ObjDoc) (objectFile : string) (st : Blender) : Blender :=
  mkBlender (objects st ++ [root_object st objectFile])
            (mesh_data st ++ [doc]) (collection st ++ [length (objects st)])
            (importedModelIDs st) (stdout (parsing objectFile st)).

(** [use_csv] (line 385). *)
Definition use_csv (settings : Settings) : bool :=
  importWMO settings || importM2 settings
  || importWMOSets settings || importGOBJ settings.

(** [float(row[key])], when the row has the cell and it reads as a number. *)
Definition cell (row : gmap string string) (key : string) : option float :=
  row !! key ≫= pyfloat.

End Reading.

(** ** Computations that return, and computations that never do *)

Section Endless.
Context `{Host : HostNum}.

(** [m] returns, whatever the scene. *)
Definition succeeds {A} (m : M A) : Prop := ∀ st, ∃ a st', m st = Done a st'.

(** [m] enters an import for which the fuel does not suffice, whatever the
    scene. *)
Definition dies {A} (m : M A) : Prop := ∀ st, m st = OutOfFuel.

(** The cells a wmo row reads are there and read as numbers; the scale
    factor is empty or a number. *)
Definition wmo_cells (row : gmap string string) : Prop :=
  is_Some (cell row "PositionX") ∧ is_Some (cell row "PositionY")
  ∧ is_Some (cell row "PositionZ") ∧ is_Some (cell row "RotationX")
  ∧ is_Some (cell row "RotationY") ∧ is_Some (cell row "RotationZ")
  ∧ (row !! "ScaleFactor" = Some "" ∨ is_Some (cell row "ScaleFactor")).

End Endless.

(** ** Shader nodes (lines 16-21, 50-61 and 99-110)

    A node is whatever the host makes of it; the functions below read its
    [type] only. *)

(** [not x], for [x] that is [None] or a node. *)
Definition is_None_or_not {A} (x : option A) : bool :=
  match x with
  | Some _ => false
  | None => true
  end.

Section Nodes.
Context {Node : Type}.
Variable node_type : Node → string.

(** [getFirstNodeOfType(nodes, nodeType)]. *)
Fixpoint getFirstNodeOfType (nodes : list Node) (nodeType : string) : option Node :=
  match nodes with
  | [] => None
  | node :: rest =>
      if String.eqb (node_type node) nodeType then Some node
      else getFirstNodeOfType rest nodeType
  end.

(** The loop of [createStandardMaterial] and [createBlendedTerrain] that
    looks for the shader and the output among the nodes of a new material,
    entered with [principled] and [outNode]; it is left at once when both
    are found. *)
Fixpoint shader_and_output (nodes : list Node) (principled outNode : option Node)
  : option Node * option Node :=
  match nodes with
  | [] => (principled, outNode)
  | node :: rest =>
      let principled :=
        if is_None_or_not principled && String.eqb (node_type node) "BSDF_PRINCIPLED"
        then Some node else principled in
      let outNode :=
        if is_None_or_not outNode && String.eqb (node_type node) "OUTPUT_MATERIAL"
        then Some node else outNode in
      if negb (is_None_or_not principled) && negb (is_None_or_not outNode)
      then (principled, outNode)
      else shader_and_output rest principled outNode
  end.

End Nodes.

(** ** UV layers (line 355) *)

(** [layer_index > 0 and ('UV' + str(layer_index + 1) + 'Map') or 'UVMap']:
    the second operand of [and] is a string that is not empty, so that [or]
    is reached with it or with [False]. *)
Definition uv_name (layer_index : nat) : string :=
  let named := "UV" +:+ pretty (layer_index + 1)%nat +:+ "Map" in
  if (0 <? layer_index)%nat && negb (String.eqb named "") then named else "UVMap".

(** ** Images (lines 23-35)

    [bpy.data.images] is the list of the images loaded, each with its name
    and the file it was loaded from. The host is asked for two things: the
    hexadecimal MD5 digest of a string, and whether a file loads as an
    image. It keeps at most 63 characters of a name it is given, and makes
    it differ from the names of the other images. *)

Record Image : Type := mkImage {
  i_name : string;
  i_filepath : string
}.

Inductive Loaded : Type :=
| Image_is (image : Image) (images : list Image)
| RuntimeError
| Image_KeyError.

(** [p.rfind(c)]: the last position of [c] in [p], or -1. *)
Fixpoint rfind_from (c : ascii) (p : string) (i found : Z) : Z :=
  match p with
  | EmptyString => found
  | String a r => rfind_from c r (i + 1) (if Ascii.eqb a c then i else found)
  end.

Definition rfind (c : ascii) (p : string) : Z := rfind_from c p 0 (-1).

Fixpoint all_dots (s : string) : bool :=
  match s with
  | EmptyString => true
  | String c r => Ascii.eqb c "."%char && all_dots r
  end.

(** [p[i:j]] for [0 <= i]. *)
Definition slice (p : string) (i j : Z) : string :=
  substring (Z.to_nat i) (Z.to_nat (j - i)) p.

(** [os.path.splitext(p)]: the extension starts at the last dot of the last
    component, unless only dots precede it there. *)
Definition splitext (p : string) : string * string :=
  let sepIndex := rfind "/" p in
  let dotIndex := rfind "." p in
  if (sepIndex <? dotIndex) && negb (all_dots (slice p (sepIndex + 1) dotIndex))
  then (slice p 0 dotIndex, slice p dotIndex (Z.of_nat (String.length p)))
  else (p, "").

Section Images.
Variable md5_hexdigest : string → string.
Variable loads : string → bool.

(** The name [loadImage] looks the image up under (lines 24-29). *)
Definition image_name (textureLocation : string) : string :=
  let imageName := (splitext (basename textureLocation)).1 in
  if (63 <? String.length imageName)%nat
  then slice (md5_hexdigest imageName) 0 7
  else imageName.

(** [bpy.data.images[name]]. *)
Definition images_getitem (name : string) (images : list Image) : option Image :=
  snd <$> list_find (λ i, i_name i = name) images.

(** [loadImage(textureLocation)]. *)
Definition loadImage (textureLocation : string) (images : list Image) : Loaded :=
  let imageName := image_name textureLocation in
  if bool_decide (imageName ∈ i_name <$> images) then
    match images_getitem imageName images with
    | Some image => Image_is image images
    | None => Image_KeyError
    end
  else if loads textureLocation then
    let loadedImage :=
      mkImage (unique_name (i_name <$> images) (slice imageName 0 63))
              textureLocation in
    let images' := images ++ [loadedImage] in
    match images_getitem imageName images' with
    | Some image => Image_is image images'
    | None => Image_KeyError
    end
  else RuntimeError.

End Images.

(** ** Names and groups *)

(** The names the loop of lines 277-282 tries, in turn. *)
Definition candidate (objname : string) (k : nat) : string :=
  match k with
  | O => objname
  | S _ => objname +:+ "." +:+ rjust3 (pretty k)
  end.

Section Groups.
Context `{Host : HostNum}.

(** The empty of lines 395-400 (and 404-409, 413-418): called [name], unless
    an object has the name already, under [obj], turned by -90 degrees about
    x. *)
Definition group_object (objs : list BObject) (name : string) (obj : nat) : BObject :=
  mkBObject (unique_name (o_name <$> objs) name) None (Some obj)
            zero3 (radians (of_int (-90)), of_int 0, of_int 0) one3.

(** The objects, once the empties that are switched on are made. *)
Fixpoint with_groups (switches : list (bool * string)) (obj : nat)
    (objs : list BObject) : list BObject :=
  match switches with
  | [] => objs
  | (on, name) :: rest =>
      with_groups rest obj (if on : bool then objs ++ [group_object objs name obj]
                            else objs)
  end.

(** The three empties of a tile, in the order they are made. *)
Definition tile_groups (settings : Settings) : list (bool * string) :=
  [(importWMO settings, "WMOs"); (importM2 settings, "Doodads");
   (importGOBJ settings, "GameObjects")].

End Groups.

(** ** More small worlds *)

Module More.
Import Sym Demo.

(** A mesh file with a vertex and no normal. *)
Definition bare : FileSystem :=
  files [("/w/bare.obj", obj_file ["v 0 0 0"])].

(** A triangle with one texture coordinate for its three vertices. *)
Definition one_vt : list string :=
  ["g grp"; "v 0 0 0"; "v 1 0 0"; "v 0 1 0";
   "vn 0 0 1"; "vn 0 0 1"; "vn 0 0 1"; "vt 0 0"; "f 1 2 3"].
Definition short_channel : FileSystem :=
  files [("/w/short.obj", obj_file one_vt)].

(** A tile that places a game object. *)
Definition chest_tile : FileSystem :=
  tile [placement "gobj" "tree.obj" "3" "1"].
Definition chest : gmap string string := row "gobj" "tree.obj" "3" "1".

(** A building of a tile. *)
Definition house_5 : gmap string string := row "wmo" "house.obj" "5" "3".

(** A building whose table, that of a tile, places the building itself. *)
Definition endless : FileSystem :=
  files [("/w/house.obj", obj_file tri);
         ("/w/house_ModelPlacementInformation.csv",
          csv_file adt_header [placement "wmo" "house.obj" "1" "1"])].
Definition house_1 : gmap string string := row "wmo" "house.obj" "1" "1".

(** Everything on but the doodad sets. *)
Definition no_sets : Settings :=
  mkSettings true true false true true true false false true.

(** The scene with the house of [two_trees], which has no table. *)
Definition plain_house : Blender :=
  scene_after (importWoWOBJ two_trees all_on 1 "/w/house.obj" None empty_scene).

(** The tile with the two trees, imported a second time. *)
Definition second_time : Blender :=
  scene_after (importWoWOBJ two_trees all_on 2 "/w/adt_1.obj" None first_import).

(** The scenes the rows of the statements below end in. *)
Definition with_chest : Blender :=
  scene_after (adt_gobj (importWoWOBJ chest_tile all_on 1) "/w" None chest empty_scene).
Definition house_twice : Blender :=
  scene_after (wmo_row (importWoWOBJ cyclic all_on 1) "/w" None 0%nat house_again
                       with_house).
Definition house_copied : Blender :=
  scene_after (adt_wmo two_trees no_import "/w" None house_5 plain_house).
Definition house_placed : Blender :=
  scene_after (adt_wmo two_trees (importWoWOBJ two_trees all_on 1) "/w" None house_5
                       empty_scene).
Definition whole_tile : Blender :=
  scene_after (importWoWOBJ two_trees all_on 2 "/w/adt_1.obj" None empty_scene).

(** The object at position [i] (an empty where there is none). *)
Definition object_at (i : nat) (st : Blender) : BObject :=
  default (mkBObject "" None None zero3 zero3 one3) (objects st !! i).

Definition library : list string := ["newmtl m"; "map_Kd a.png"; "newmtl n"].

(** A host that loads every file, and whose digest is not looked at. *)
Definition any_digest : string → string := λ s, s.
Definition every_file : string → bool := λ _, true.

End More.

(** * Properties *)

(** ** The mesh document *)

Section MeshFacts.
Context `{Host : HostNum}.

Lemma index_pos_last (n : nat) : index_pos (S n) (Z.of_nat (S n) - 1) = Some n.
Proof.
  unfold index_pos.
  replace (0 <=? Z.of_nat (S n) - 1) with true by (symmetry; apply Z.leb_le; lia).
  replace (Z.of_nat (S n) - 1 <? Z.of_nat (S n)) with true
    by (symmetry; apply Z.ltb_lt; lia).
  simpl. f_equal. lia.
Qed.

Lemma moditem_length {A} (l l' : list A) i f :
  moditem l i f = Ret l' → length l' = length l.
Proof.
  unfold moditem. destruct (index_pos _ _); intros [= <-]. apply length_alter.
Qed.

Lemma obj_line_active_last st line st' :
  active_last st → obj_line st line = Ret st' → active_last st'.
Proof.
  unfold active_last, obj_line. intros Hinv.
  destruct (split line) as [|line_start args]; [by intros [= <-]|].
  repeat case_match; cbn; intros Hr;
    repeat match goal with
      | Hr : ebind ?m _ = Ret _ |- _ =>
          let E := fresh "E" in destruct m eqn:E; cbn in Hr; [|discriminate]
      | Hr : mbind _ ?m = Ret _ |- _ =>
          let E := fresh "E" in destruct m eqn:E; cbn in Hr; [|discriminate]
      | Hr : context [match ?x with _ => _ end] |- _ => destruct x eqn:?; try discriminate
      end;
    try discriminate; try (injection Hr as <-); cbn; try done.
  all: try (rewrite length_alter; done).
  all: try (erewrite moditem_length by eassumption; rewrite ?length_app; cbn; lia).
Qed.

Lemma obj_lines_active_last lines : ∀ st st',
  active_last st → obj_lines st lines = Ret st' → active_last st'.
Proof.
  induction lines as [|line rest IH]; intros st st' Hinv; cbn.
  - by intros [= <-].
  - destruct (obj_line st line) as [st1|] eqn:E; cbn; [|discriminate].
    intros Hr. eapply IH; [|exact Hr]. eapply obj_line_active_last; eauto.
Qed.

Lemma alter_last {A} (f : A → A) (l : list A) (x : A) :
  alter f (length l) (l ++ [x]) = l ++ [f x].
Proof.
  induction l as [|y l IH]; cbn; [done|]. by rewrite IH.
Qed.

(** C10. A face line records, in the group opened by the last [g] line,
    the triple of its first three indices as they are written (1-based),
    and adds every index of the line, less one, to the group's set of
    vertices: also a fourth or later index, which is in no recorded triple. *)
Theorem face_line_first_three_all_verts
    (pre : list string) (st : ObjDoc) (line : string) (args : list string)
    (a b c : Z) (more : list Z) (groups : list OBJMesh) (g : OBJMesh) :
  obj_lines obj_init pre = Ret st →
  meshes st = groups ++ [g] →
  split line = "f" :: args →
  mapM (λ v, pyint (before_slash v)) args = Some (a :: b :: c :: more) →
  ∃ g',
    obj_line st line
    = Ret (mkObjDoc (mtlfile st) (verts st) (normals st) (uvs st)
                    (groups ++ [g']) (meshIndex st))
    ∧ m_faces g' = m_faces g ++ [(a, b, c)]
    ∧ m_verts g' = m_verts g ∪ list_to_set ((λ i, i - 1) <$> a :: b :: c :: more)
    ∧ (∀ i, i ∈ more → i - 1 ∈ m_verts g')
    ∧ m_name g' = m_name g ∧ m_usemtl g' = m_usemtl g.
Proof.
  intros Hpre Hms Hsplit Hfv.
  assert (Hact : active_last st).
  { eapply obj_lines_active_last; [|exact Hpre]. reflexivity. }
  exists (add_face (a, b, c) (a :: b :: c :: more) g).
  split; [|split; [done|split; [done|split; [|done]]]].
  - assert (Hidx : index_pos (length (meshes st)) (meshIndex st) = Some (length groups)).
    { rewrite Hact, Hms, length_app. cbn.
      replace (length groups + 1)%nat with (S (length groups)) by lia.
      apply index_pos_last. }
    unfold obj_line. rewrite Hsplit. cbn. rewrite Hfv. cbn.
    rewrite Hidx, Hms. by rewrite alter_last.
  - intros i Hi. unfold add_face, m_verts. apply elem_of_union_r.
    rewrite elem_of_list_to_set. apply list_elem_of_fmap. exists i. split; [done|].
    by do 3 apply list_elem_of_further.
Qed.

Lemma index_pos_nonneg (len : nat) (n : Z) :
  0 ≤ n → n < Z.of_nat len → index_pos len n = Some (Z.to_nat n).
Proof.
  intros H0 H1. unfold index_pos.
  replace (0 <=? n) with true by (symmetry; apply Z.leb_le; lia).
  replace (n <? Z.of_nat len) with true by (symmetry; apply Z.ltb_lt; lia).
  done.
Qed.

Lemma index_pos_beyond (len : nat) (n : Z) :
  Z.of_nat len ≤ n → index_pos len n = None.
Proof.
  intros H1. unfold index_pos.
  replace (n <? Z.of_nat len) with false by (symmetry; apply Z.ltb_ge; lia).
  replace (n <? 0) with false by (symmetry; apply Z.ltb_ge; lia).
  by rewrite andb_false_r.
Qed.

Lemma vt_layer_index_suffix (sfx : string) (n : Z) :
  (sfx = "" ∧ n = 0) ∨ (∃ c d, last_char sfx = Some c ∧ pyint c = Some d ∧ n = d - 1) →
  vt_layer_index ("vt" +:+ sfx) = Ret n.
Proof.
  unfold vt_layer_index. intros [[-> ->]|(c & d & Hc & Hd & ->)]; [done|].
  destruct sfx as [|c0 r]; [done|].
  change (last_char ("vt" +:+ String c0 r)) with (last_char (String c0 r)).
  cbn [String.length String.append Nat.ltb Nat.leb]. rewrite Hc. cbn. by rewrite Hd.
Qed.

(** C9, as amended. A [vt] line adds its coordinates to the channel whose
    index is the last digit of the token less one (0 for a plain [vt]) when
    that channel exists, or when it is the next one, which the line then
    creates; a line whose index is further away raises [IndexError]: the
    list of channels grows by one channel per line at most. *)
Theorem vt_line_channel_or_IndexError
    (st : ObjDoc) (line sfx : string) (args : list string)
    (uv : list float) (n : Z) :
  split line = ("vt" +:+ sfx) :: args →
  floats args = Ret uv →
  (sfx = "" ∧ n = 0) ∨ (∃ c d, last_char sfx = Some c ∧ pyint c = Some d ∧ n = d - 1) →
  0 ≤ n →
  obj_line st line =
    if n <? Z.of_nat (length (uvs st)) then
      Ret (mkObjDoc (mtlfile st) (verts st) (normals st)
                    (alter (λ layer, layer ++ [uv]) (Z.to_nat n) (uvs st))
                    (meshes st) (meshIndex st))
    else if n =? Z.of_nat (length (uvs st)) then
      Ret (mkObjDoc (mtlfile st) (verts st) (normals st) (uvs st ++ [[uv]])
                    (meshes st) (meshIndex st))
    else Raise IndexError.
Proof.
  intros Hsplit Hfl Hn H0. unfold obj_line. rewrite Hsplit.
  change (String.eqb ("vt" +:+ sfx) "mtllib") with false.
  change (String.eqb ("vt" +:+ sfx) "v") with false.
  change (String.eqb ("vt" +:+ sfx) "vn") with false.
  change (startswith ("vt" +:+ sfx) "vt") with true. cbv iota.
  rewrite (vt_layer_index_suffix sfx n Hn). cbn [mbind exc_bind ebind].
  destruct (Z.ltb_spec n (Z.of_nat (length (uvs st)))) as [Hlt|Hge].
  - replace (Z.of_nat (length (uvs st)) <=? n) with false
      by (symmetry; apply Z.leb_gt; lia).
    rewrite index_pos_nonneg by lia. by rewrite Hfl.
  - replace (Z.of_nat (length (uvs st)) <=? n) with true
      by (symmetry; apply Z.leb_le; lia).
    destruct (Z.eqb_spec n (Z.of_nat (length (uvs st)))) as [->|Hne].
    + rewrite length_app. cbn [length].
      rewrite index_pos_nonneg by lia. rewrite Hfl. cbn.
      rewrite Nat2Z.id. by rewrite alter_last.
    + rewrite index_pos_beyond; [done|]. rewrite length_app. cbn [length]. lia.
Qed.

End MeshFacts.

(** ** The material library *)

Lemma mtl_lines_bind_all baseDir ls : ∀ st st',
  mtl_lines baseDir st ls = Ret st' →
  materials st' = bind_all baseDir (materials st) (mtl_bindings (matname st) ls).
Proof.
  induction ls as [|line rest IH]; intros st st'; cbn.
  - by intros [= <-].
  - unfold mtl_line.
    destruct (split line) as [|tok [|arg more]]; cbn.
    + apply IH.
    + repeat case_match; cbn; try discriminate. apply IH.
    + repeat case_match; cbn; try congruence; intros Hr; apply IH in Hr; apply Hr.
Qed.

Lemma bind_all_last baseDir post : ∀ m n f,
  n ∉ post.*1 →
  bind_all baseDir (<[n := path_join baseDir f]> m) post !! n
  = Some (path_join baseDir f).
Proof.
  induction post as [|[n' f'] post IH]; intros m n f Hn; cbn.
  - apply lookup_insert_eq.
  - rewrite fmap_cons, not_elem_of_cons in Hn. destruct Hn as [Hne Hn]. cbn in Hne.
    rewrite insert_insert_ne by done. by apply IH.
Qed.

(** C8, as amended. After the library is read, a material name is bound to
    the path of the last [map_Kd] line read under that name (the name being
    the one of the most recent [newmtl] line), and that path is joined to
    [baseDir], the directory of the mesh file that names the library. *)
Theorem mtl_last_map_Kd_wins_in_baseDir
    (baseDir : string) (ls : list string) (st : MtlState)
    (pre post : list (string * string)) (n f : string) :
  parse_mtl baseDir ls = Ret st →
  mtl_bindings "" ls = pre ++ (n, f) :: post →
  n ∉ post.*1 →
  materials st !! n = Some (path_join baseDir f).
Proof.
  intros Hp Hb Hn. apply mtl_lines_bind_all in Hp. rewrite Hp. cbn.
  rewrite Hb. unfold bind_all. rewrite foldl_app. cbn.
  by apply bind_all_last.
Qed.

(** ** Paths and names *)

Lemma basename_no_slash p : has_slash p = false → basename p = p.
Proof.
  destruct p as [|c r]; [done|]. cbn. intros Hs.
  apply orb_false_iff in Hs as [Hc Hr]. by rewrite Hr, Hc.
Qed.

Lemma has_slash_app a b : has_slash (a +:+ String "/" b) = true.
Proof.
  induction a as [|c a IH]; [done|].
  change (has_slash (String c (a +:+ String "/" b)) = true).
  cbn [has_slash]. rewrite IH. apply orb_true_r.
Qed.

Lemma basename_app_slash a b : basename (a +:+ String "/" b) = basename b.
Proof.
  induction a as [|c a IH].
  - change (basename (String "/" b) = basename b). cbn [basename].
    change (is_slash "/") with true. cbv iota.
    destruct (has_slash b) eqn:Hb; [done|]. by rewrite basename_no_slash.
  - change (basename (String c (a +:+ String "/" b)) = basename b).
    cbn [basename]. by rewrite has_slash_app.
Qed.

Lemma ends_with_slash_app a :
  ends_with_slash a = true → ∃ a0, a = a0 +:+ "/".
Proof.
  induction a as [|c a IH]; [done|]. cbn. destruct a as [|c' a'].
  - unfold is_slash. intros Hc. apply Ascii.eqb_eq in Hc as ->. by exists "".
  - intros Hs. destruct (IH Hs) as [a0 Ha0]. exists (String c a0).
    change (String c (String c' a') = String c (a0 +:+ "/")). by rewrite Ha0.
Qed.

Lemma append_slash_assoc a b : (a +:+ "/") +:+ b = a +:+ String "/" b.
Proof.
  induction a as [|c a IH]; [done|].
  change (String c ((a +:+ "/") +:+ b) = String c (a +:+ String "/" b)). by rewrite IH.
Qed.

Lemma basename_path_join a b : basename (path_join a b) = basename b.
Proof.
  unfold path_join. destruct (startswith b "/"); [done|].
  destruct a as [|c a]; [done|].
  destruct (ends_with_slash (String c a)) eqn:He.
  - apply ends_with_slash_app in He as [a0 ->].
    by rewrite append_slash_assoc, basename_app_slash.
  - apply (basename_app_slash (String c a) b).
Qed.

Lemma unique_name_free names n : n ∉ names → unique_name names n = n.
Proof. intros Hn. unfold unique_name. cbn. by rewrite bool_decide_eq_false_2. Qed.

(** ** The placement loop *)

Section RowFacts.
Context `{Host : HostNum}.
Variable fs : FileSystem.
Variable settings : Settings.

Lemma bind_Done {A B} (m : M A) (k : A → M B) st b st' :
  bind m k st = Done b st' ↔ ∃ a st1, m st = Done a st1 ∧ k a st1 = Done b st'.
Proof.
  unfold bind. split.
  - destruct (m st) as [a st1| |]; [eauto|done|done].
  - intros (a & st1 & -> & Hk). done.
Qed.

Lemma bind_step {A B} (m : M A) (k : A → M B) st a st1 :
  m st = Done a st1 → bind m k st = k a st1.
Proof. unfold bind. by intros ->. Qed.

Lemma print_printed line st : print line st = Done () (printed line st).
Proof. done. Qed.

Lemma in_objects_eq name st :
  in_objects name st = Done (bool_decide (is_Some (objects_find name st))) st.
Proof. done. Qed.

Lemma gets_eq {A} (f : Blender → A) st : gets f st = Done (f st) st.
Proof. done. Qed.

Lemma temp_items_Shared st : temp_items Shared st = Done (registry st) st.
Proof. done. Qed.

Lemma temp_append_Shared mid st :
  temp_append Shared mid st = Done Shared (register mid st).
Proof. done. Qed.

Lemma temp_items_Fresh l st : temp_items (Fresh l) st = Done l st.
Proof. done. Qed.

Lemma temp_append_Fresh l mid st :
  temp_append (Fresh l) mid st = Done (Fresh (l ++ [mid])) st.
Proof. done. Qed.

Lemma row_get_Some row key v st :
  row !! key = Some v → row_get row key st = Done v st.
Proof. unfold row_get. by intros ->. Qed.

(** C7, as amended. A row of an ADT table whose category is switched off
    creates no object, but its [ModelId] goes through the registry like any
    other: when it is not there yet it is appended; when it is there, the
    row is announced as skipped, or, duplicates being allowed, nothing
    happens at all. *)
Theorem disabled_row_still_registers
    (rec : string → option nat → M nat) (baseDir : string)
    (wmoparent doodadparent gobjparent : option nat)
    (row : gmap string string) (mid ty : string) (st : Blender) :
  row !! "ModelId" = Some mid →
  row !! "Type" = Some ty →
  enabled settings ty = false →
  adt_row fs settings rec baseDir wmoparent doodadparent gobjparent row st
  = if bool_decide (mid ∈ registry st) then
      if allowDuplicates settings then Done () st
      else Done () (printed ("Skipping already imported model " +:+ mid) st)
    else Done () (register mid st).
Proof.
  intros Hmid Hty Hen.
  assert (Hd : ∀ s, adt_dispatch fs settings rec baseDir wmoparent doodadparent
                      gobjparent row s = Done () s).
  { intros s. unfold adt_dispatch, bind. rewrite (row_get_Some _ _ _ _ Hty).
    unfold enabled in Hen. apply orb_false_iff in Hen as [Hen Hg].
    apply orb_false_iff in Hen as [Hw Hm]. by rewrite Hw, Hm, Hg. }
  unfold adt_row, registry, bind, gets.
  rewrite (row_get_Some _ _ _ _ Hmid).
  destruct st as [objs ms coll [l|] out]; cbn.
  - case_bool_decide; cbn.
    + destruct (allowDuplicates settings); cbn; [|done]. by rewrite Hd.
    + by rewrite Hd.
  - rewrite bool_decide_eq_false_2 by apply not_elem_of_nil. cbn. by rewrite Hd.
Qed.

(** *** Computations that need no fuel *)

Lemma total_bind {A B} (m : M A) (k : A → M B) :
  total m → (∀ a, total (k a)) → total (bind m k).
Proof.
  intros Hm Hk st. unfold bind. specialize (Hm st).
  destruct (m st) as [a st1| |]; [apply Hk|done|done].
Qed.

Lemma total_ret {A} (a : A) : total (ret a).
Proof. done. Qed.

Lemma total_lift {A} (x : Exc A) : total (lift x).
Proof. by destruct x. Qed.

Lemma total_gets {A} (f : Blender → A) : total (gets f).
Proof. done. Qed.

Lemma total_modify f : total (modify f).
Proof. done. Qed.

Lemma total_add_object o : total (add_object o).
Proof. done. Qed.

Lemma total_objects_getitem name : total (objects_getitem name).
Proof. intros st. unfold objects_getitem. by destruct (objects_find name st) as [[]|]. Qed.

Lemma total_set_name o n : total (set_name o n).
Proof. done. Qed.

Lemma total_mesh_copy d : total (mesh_copy d).
Proof. intros st. unfold mesh_copy. by repeat case_match. Qed.

Ltac total_step :=
  first
    [ apply total_ret | apply total_lift | apply total_gets | apply total_modify
    | apply total_add_object | apply total_objects_getitem | apply total_set_name
    | apply total_mesh_copy
    | apply total_bind; [|intros] ].

Ltac solve_total :=
  repeat (first [ total_step | progress unfold row_float, row_get, apply_scale,
                    print, set_parent, map_location, map_rotation, set_scale, set_data,
                    update, link, object_copy, objects_new, in_objects, copy_turned,
                    set_importedModelIDs
                | case_match ]).

(** C5, as amended. The importer keeps no set of files being assembled and
    has no error for a cycle. What stops a row from entering a file again
    is the name lookup: when the base name of [ModelFile] is the name of an
    object of the scene (as the file being assembled and the files above it
    are), an m2 row, a gobj row and a row of a WMO table copy that object;
    the import is not entered, whatever it would do, and the row returns or
    raises for reasons of its own. *)
Theorem present_name_is_copied_without_import
    (rec : string → option nat → M nat) (baseDir : string)
    (row : gmap string string) (mf : string) (st : Blender) :
  row !! "ModelFile" = Some mf →
  is_Some (objects_find (basename mf) st) →
  (∀ doodadparent,
      adt_m2 rec baseDir doodadparent row st
      = adt_m2 no_import baseDir doodadparent row st
      ∧ adt_m2 rec baseDir doodadparent row st ≠ OutOfFuel)
  ∧ (∀ gobjparent,
      adt_gobj rec baseDir gobjparent row st
      = adt_gobj no_import baseDir gobjparent row st
      ∧ adt_gobj rec baseDir gobjparent row st ≠ OutOfFuel)
  ∧ (∀ givenParent obj,
      wmo_row rec baseDir givenParent obj row st
      = wmo_row no_import baseDir givenParent obj row st
      ∧ wmo_row rec baseDir givenParent obj row st ≠ OutOfFuel).
Proof.
  intros Hmf Hin.
  assert (Hp : ∀ line, is_Some (objects_find (basename mf) (printed line st))) by done.
  split; [|split]; intros; split.
  - unfold adt_m2. rewrite !(bind_step _ _ _ _ _ (row_get_Some _ _ _ _ Hmf)).
    rewrite !(bind_step _ _ _ _ _ (print_printed _ _)).
    rewrite !(bind_step _ _ _ _ _ (in_objects_eq _ _)).
    by rewrite !bool_decide_eq_true_2.
  - unfold adt_m2. rewrite !(bind_step _ _ _ _ _ (row_get_Some _ _ _ _ Hmf)).
    rewrite !(bind_step _ _ _ _ _ (print_printed _ _)).
    rewrite !(bind_step _ _ _ _ _ (in_objects_eq _ _)).
    rewrite !bool_decide_eq_true_2 by done. cbn [negb].
    apply total_bind; [|intros]; solve_total.
  - unfold adt_gobj. rewrite !(bind_step _ _ _ _ _ (row_get_Some _ _ _ _ Hmf)).
    rewrite !(bind_step _ _ _ _ _ (in_objects_eq _ _)).
    by rewrite !bool_decide_eq_true_2.
  - unfold adt_gobj. rewrite !(bind_step _ _ _ _ _ (row_get_Some _ _ _ _ Hmf)).
    rewrite !(bind_step _ _ _ _ _ (in_objects_eq _ _)).
    rewrite !bool_decide_eq_true_2 by done. cbn [negb].
    apply total_bind; [|intros]; solve_total.
  - unfold wmo_row. rewrite !(bind_step _ _ _ _ _ (row_get_Some _ _ _ _ Hmf)).
    rewrite !(bind_step _ _ _ _ _ (print_printed _ _)).
    rewrite !(bind_step _ _ _ _ _ (in_objects_eq _ _)).
    by rewrite !bool_decide_eq_true_2.
  - unfold wmo_row. rewrite !(bind_step _ _ _ _ _ (row_get_Some _ _ _ _ Hmf)).
    rewrite !(bind_step _ _ _ _ _ (print_printed _ _)).
    rewrite !(bind_step _ _ _ _ _ (in_objects_eq _ _)).
    rewrite !bool_decide_eq_true_2 by done. cbn [negb].
    apply total_bind; [|intros]; solve_total.
Qed.

(** *** A file that cannot be opened *)

Lemma bind_raised {A B} (m : M A) (k : A → M B) st e st1 :
  m st = Raised e st1 → bind m k st = Raised e st1.
Proof. unfold bind. by intros ->. Qed.

Lemma import_missing fuel path givenParent st :
  fs path = None →
  importWoWOBJ fs settings (S fuel) path givenParent st
  = Raised FileNotFoundError (printed ("Parsing OBJ: " +:+ (path_split path).2) st).
Proof.
  intros Hnone. cbn [importWoWOBJ].
  rewrite (bind_step _ _ _ _ _ (print_printed _ _)).
  apply bind_raised. unfold open. by rewrite Hnone.
Qed.

Lemma adt_m2_missing fuel baseDir doodadparent row mf st :
  row !! "ModelFile" = Some mf →
  objects_find (basename mf) st = None →
  fs (path_join baseDir mf) = None →
  ∃ st', adt_m2 (importWoWOBJ fs settings (S fuel)) baseDir doodadparent row st
         = Raised FileNotFoundError st'.
Proof.
  intros Hmf Hfind Hnone. eexists. unfold adt_m2.
  rewrite (bind_step _ _ _ _ _ (row_get_Some _ _ _ _ Hmf)).
  rewrite (bind_step _ _ _ _ _ (print_printed _ _)).
  rewrite (bind_step _ _ _ _ _ (in_objects_eq _ _)).
  change (objects_find (basename mf) (printed _ st)) with (objects_find (basename mf) st).
  rewrite Hfind. rewrite bool_decide_eq_false_2 by (by intros [? ?]). cbn [negb].
  apply bind_raised. by apply import_missing.
Qed.

(** C6, as amended. Nothing in the importer catches an exception. When an
    m2 row that is due to be imported names a file that is neither the name
    of an object of the scene nor a file that exists, [open] raises
    [FileNotFoundError] and the loop over the table ends there with that
    exception: the rows after it are not looked at, whatever they are. *)
Theorem missing_file_aborts_the_loop
    (fuel : nat) (baseDir : string) (wmoparent doodadparent gobjparent : option nat)
    (row : gmap string string) (mid mf : string) (st : Blender) :
  row !! "ModelId" = Some mid →
  row !! "Type" = Some "m2" →
  row !! "ModelFile" = Some mf →
  importM2 settings = true →
  mid ∉ registry st ∨ allowDuplicates settings = true →
  objects_find (basename mf) st = None →
  fs (path_join baseDir mf) = None →
  ∃ st', ∀ rest,
    for_rows (adt_row fs settings (importWoWOBJ fs settings (S fuel)) baseDir
                      wmoparent doodadparent gobjparent)
             (row :: rest) st
    = Raised FileNotFoundError st'.
Proof.
  intros Hmid Hty Hmf Hm2 Hreg Hfind Hnone.
  assert (Hd : ∀ s, objects s = objects st →
            ∃ st', adt_dispatch fs settings (importWoWOBJ fs settings (S fuel)) baseDir
                     wmoparent doodadparent gobjparent row s
                   = Raised FileNotFoundError st').
  { intros s Hs. unfold adt_dispatch.
    rewrite (bind_step _ _ _ _ _ (row_get_Some _ _ _ _ Hty)).
    rewrite Hm2. cbn [String.eqb Ascii.eqb andb].
    change (String.eqb "m2" "wmo") with false. change (String.eqb "m2" "m2") with true.
    cbn [andb].
    destruct (adt_m2_missing fuel baseDir doodadparent row mf s Hmf) as [st' Hst'];
      [by unfold objects_find; rewrite Hs|done|].
    exists st'. by apply bind_raised. }
  assert (Hrow : ∃ st', adt_row fs settings (importWoWOBJ fs settings (S fuel)) baseDir
                          wmoparent doodadparent gobjparent row st
                        = Raised FileNotFoundError st').
  { unfold adt_row.
    rewrite (bind_step _ _ _ _ _ (gets_eq _ _)).
    rewrite (bind_step _ _ _ _ _ (row_get_Some _ _ _ _ Hmid)).
    destruct (importedModelIDs st) as [l|] eqn:Hl.
    - rewrite (bind_step _ _ _ _ _ (temp_items_Shared _)).
      case_bool_decide as Hin.
      + destruct Hreg as [?|Had]; [done|]. rewrite Had. cbn [negb].
        destruct (Hd st eq_refl) as [st' Hst']. exists st'. by apply bind_raised.
      + rewrite (bind_step _ _ _ _ _ (temp_append_Shared _ _)).
        destruct (Hd (register mid st) eq_refl) as [st' Hst'].
        exists st'. by apply bind_raised.
    - rewrite (bind_step _ _ _ _ _ (temp_items_Fresh _ _)).
      rewrite bool_decide_eq_false_2 by apply not_elem_of_nil.
      rewrite (bind_step _ _ _ _ _ (temp_append_Fresh _ _ _)).
      destruct (Hd st eq_refl) as [st' Hst']. exists st'. by apply bind_raised. }
  destruct Hrow as [st' Hst']. exists st'. intros rest. cbn [for_rows].
  by apply bind_raised.
Qed.

(** *** The registry only grows *)

Lemma ids_grow_refl st : ids_grow st st.
Proof. intros l Hl. exists []. by rewrite app_nil_r. Qed.

Lemma ids_grow_trans st1 st2 st3 : ids_grow st1 st2 → ids_grow st2 st3 → ids_grow st1 st3.
Proof.
  intros H12 H23 l Hl. destruct (H12 l Hl) as [l' Hl']. destruct (H23 _ Hl') as [l'' Hl''].
  exists (l' ++ l''). by rewrite app_assoc.
Qed.

Lemma ids_grow_same st st' : importedModelIDs st' = importedModelIDs st → ids_grow st st'.
Proof. intros Heq l Hl. exists []. by rewrite app_nil_r, Heq. Qed.

Lemma ids_grow_None st st' : importedModelIDs st = None → ids_grow st st'.
Proof. intros Hn l Hl. congruence. Qed.

Lemma grow_bind {A B} (m : M A) (k : A → M B) :
  preserves ids_grow m → (∀ a, preserves ids_grow (k a)) → preserves ids_grow (bind m k).
Proof.
  intros Hm Hk st. unfold bind. specialize (Hm st).
  destruct (m st) as [a st1|e st1|]; cbn in *; [|done|done].
  specialize (Hk a st1). destruct (k a st1); cbn in *; eauto using ids_grow_trans.
Qed.

Lemma grow_ret {A} (a : A) : preserves ids_grow (ret a).
Proof. intros st. apply ids_grow_refl. Qed.

Lemma grow_lift {A} (x : Exc A) : preserves ids_grow (lift x).
Proof. intros st. destruct x; apply ids_grow_refl. Qed.

Lemma grow_gets {A} (f : Blender → A) : preserves ids_grow (gets f).
Proof. intros st. apply ids_grow_refl. Qed.

Lemma grow_modify f :
  (∀ st, importedModelIDs (f st) = importedModelIDs st) → preserves ids_grow (modify f).
Proof. intros Hf st. by apply ids_grow_same. Qed.

Lemma grow_add_object o : preserves ids_grow (add_object o).
Proof. intros st. by apply ids_grow_same. Qed.

Lemma grow_objects_getitem name : preserves ids_grow (objects_getitem name).
Proof.
  intros st. unfold objects_getitem.
  destruct (objects_find name st) as [[]|]; apply ids_grow_refl.
Qed.

Lemma grow_set_name o n : preserves ids_grow (set_name o n).
Proof. intros st. by apply ids_grow_same. Qed.

Lemma grow_mesh_copy d : preserves ids_grow (mesh_copy d).
Proof.
  intros st. unfold mesh_copy. repeat case_match; cbn; by apply ids_grow_same.
Qed.

Lemma res_rel_grow {A} st st1 (r : Res A) :
  ids_grow st st1 → res_rel ids_grow st1 r → res_rel ids_grow st r.
Proof. destruct r; cbn; eauto using ids_grow_trans. Qed.

Lemma grow_meshes_new d : preserves ids_grow (meshes_new d).
Proof. intros st. by apply ids_grow_same. Qed.

Lemma grow_temp_append x : preserves ids_grow (temp_append Shared x).
Proof.
  intros st. cbn. intros l Hl. exists [x]. cbn. by rewrite Hl.
Qed.

Ltac grow_step :=
  first
    [ apply grow_ret | apply grow_lift | apply grow_gets
    | apply grow_add_object | apply grow_objects_getitem | apply grow_set_name
    | apply grow_mesh_copy | apply grow_meshes_new | apply grow_temp_append
    | apply grow_modify; done
    | apply grow_bind; [|intros] ].

Ltac solve_grow :=
  repeat (first [ assumption | grow_step
                | progress unfold row_float, row_get, apply_scale,
                    print, set_parent, map_location, map_rotation, set_scale, set_data,
                    update, link, object_copy, objects_new, in_objects, copy_turned,
                    new_group, open, read_mtl
                | case_match ]).

Section GrowRows.
Variable rec : string → option nat → M nat.
Variable baseDir : string.
Hypothesis rec_grow : ∀ path gp, preserves ids_grow (rec path gp).

Lemma grow_adt_dispatch w d g row :
  preserves ids_grow (adt_dispatch fs settings rec baseDir w d g row).
Proof.
  unfold adt_dispatch, adt_wmo, adt_m2, adt_gobj.
  solve_grow; try apply rec_grow.
Qed.

Lemma grow_wmo_row gp obj row : preserves ids_grow (wmo_row rec baseDir gp obj row).
Proof. unfold wmo_row. solve_grow; try apply rec_grow. Qed.

Lemma grow_adt_row w d g row :
  preserves ids_grow (adt_row fs settings rec baseDir w d g row).
Proof.
  intros st. destruct (importedModelIDs st) as [l|] eqn:Hl.
  - unfold adt_row. rewrite (bind_step _ _ _ _ _ (gets_eq _ _)), Hl.
    cbv beta iota zeta.
    match goal with |- res_rel _ _ (?m st) => enough (preserves ids_grow m) by done end.
    apply grow_bind; [solve_grow|intros mid].
    apply grow_bind; [apply grow_gets|intros items].
    case_match; [case_match|].
    + solve_grow.
    + apply grow_bind; [apply grow_adt_dispatch|intros]. apply grow_ret.
    + intros s. rewrite (bind_step _ _ _ _ _ (temp_append_Shared _ _)).
      eapply res_rel_grow; [apply (grow_temp_append mid s)|].
      revert s. intros s.
      match goal with |- res_rel _ _ (?m _) => enough (preserves ids_grow m) by done end.
      apply grow_bind; [apply grow_adt_dispatch|intros]. apply grow_ret.
  - destruct (adt_row _ _ _ _ _ _ _ _ st); cbn; auto using ids_grow_None.
Qed.

Lemma grow_for_rows body rs :
  (∀ row, preserves ids_grow (body row)) → preserves ids_grow (for_rows body rs).
Proof.
  intros Hb. induction rs as [|row rest IH]; cbn [for_rows]; [apply grow_ret|].
  apply grow_bind; [apply Hb|by intros].
Qed.

Lemma grow_import_csv t obj gp :
  preserves ids_grow (import_csv fs settings rec baseDir t obj gp).
Proof.
  unfold import_csv. case_match.
  - repeat (apply grow_bind; [solve_grow|intros]).
    apply grow_for_rows. apply grow_adt_row.
  - apply grow_bind; [solve_grow|intros].
    apply grow_for_rows. intros row. case_match; [|apply grow_ret].
    apply grow_bind; [apply grow_wmo_row|intros; apply grow_ret].
Qed.

End GrowRows.

Lemma grow_import fuel : ∀ path gp,
  preserves ids_grow (importWoWOBJ fs settings fuel path gp).
Proof.
  induction fuel as [|fuel IH]; intros path gp; [done|].
  cbn [importWoWOBJ].
  do 10 (apply grow_bind; [by solve_grow|intros]).
  apply grow_bind; [|intros; apply grow_ret].
  repeat case_match; try apply grow_ret.
  by apply grow_import_csv.
Qed.

(** C2, as amended. The registry is the list the scene holds under
    [importedModelIDs]; an import reads it as it finds it and appends to it.
    Whatever the scene held when an import is called, it still holds, in
    front of what the call added, when the call returns or raises: the next
    call, on the same scene, starts from there. *)
Theorem registry_outlives_the_import
    (fuel : nat) (objectFile : string) (st : Blender) (l : list string) :
  importedModelIDs st = Some l →
  (∀ u st', importWoWOBJAddon fs settings fuel objectFile st = Done u st' →
            ∃ l', importedModelIDs st' = Some (l ++ l'))
  ∧ (∀ e st', importWoWOBJAddon fs settings fuel objectFile st = Raised e st' →
              ∃ l', importedModelIDs st' = Some (l ++ l')).
Proof.
  intros Hl.
  assert (Hp : preserves ids_grow (importWoWOBJAddon fs settings fuel objectFile)).
  { unfold importWoWOBJAddon. apply grow_bind; [apply grow_import|intros; apply grow_ret]. }
  specialize (Hp st). split; intros ? st' Hr; rewrite Hr in Hp; by apply Hp.
Qed.

(** *** What an import leaves as it was *)

Lemma keeps_refl k st : keeps k st st.
Proof. repeat split; try done; exists []; by rewrite app_nil_r. Qed.

Lemma keeps_trans k st1 st2 st3 : keeps k st1 st2 → keeps k st2 st3 → keeps k st1 st3.
Proof.
  intros (Ha & Hb & [m1 Hc] & [o1 Hd]) (Ha' & Hb' & [m2 Hc'] & [o2 Hd']).
  split; [|split; [|split]].
  - intros i Hi. by rewrite Ha', Ha.
  - lia.
  - exists (m1 ++ m2). by rewrite Hc', Hc, app_assoc.
  - exists (o1 ++ o2). by rewrite Hd', Hd, app_assoc.
Qed.

Lemma spec_bind {A B} k (Q : A → Prop) (Q' : B → Prop) (m : M A) (f : A → M B) :
  spec k Q m → (∀ a, Q a → spec k Q' (f a)) → spec k Q' (bind m f).
Proof.
  intros Hm Hf st Hk. unfold bind. specialize (Hm st Hk).
  destruct (m st) as [a st1| |]; [|done|done].
  destruct Hm as [Hkeep Ha]. specialize (Hf a Ha st1).
  assert (Hk1 : (k ≤ length (objects st1))%nat) by (destruct Hkeep as (_ & ? & _); lia).
  specialize (Hf Hk1). destruct (f a st1) as [b st2| |]; [|done|done].
  destruct Hf as [Hkeep' Hb]. eauto using keeps_trans.
Qed.

Lemma spec_weaken {A} k (Q Q' : A → Prop) (m : M A) :
  spec k Q m → (∀ a, Q a → Q' a) → spec k Q' m.
Proof.
  intros Hm HQ st Hk. specialize (Hm st Hk). destruct (m st); [|done|done].
  destruct Hm. eauto.
Qed.

Lemma spec_ret {A} k (Q : A → Prop) (a : A) : Q a → spec k Q (ret a).
Proof. intros Ha st Hk. cbn. eauto using keeps_refl. Qed.

Lemma spec_lift {A} k (x : Exc A) : spec k (λ _, True) (lift x).
Proof. intros st Hk. destruct x; cbn; eauto using keeps_refl. Qed.

Lemma spec_gets {A} k (f : Blender → A) : spec k (λ _, True) (gets f).
Proof. intros st Hk. cbn. eauto using keeps_refl. Qed.

Lemma spec_print k line : spec k (λ _, True) (print line).
Proof.
  intros st Hk. cbn. split; [|done]. repeat split; try done.
  - exists []. by rewrite app_nil_r.
  - by eexists.
Qed.

Lemma keeps_same k st st' :
  objects st' = objects st → mesh_data st' = mesh_data st → stdout st' = stdout st →
  keeps k st st'.
Proof.
  intros Ho Hm Hs. unfold keeps. rewrite Ho, Hm, Hs.
  repeat split; try done; exists []; by rewrite app_nil_r.
Qed.

Lemma spec_link k o : spec k (λ _, True) (link o).
Proof. intros st Hk. cbn. split; [|done]. by apply keeps_same. Qed.

Lemma spec_set_ids k l : spec k (λ _, True) (set_importedModelIDs l).
Proof. intros st Hk. cbn. split; [|done]. by apply keeps_same. Qed.

Lemma keeps_alter k o f st :
  later k o → keeps k st (with_objects (alter f o) st).
Proof.
  intros Ho. split; [|split; [|split]]; cbn.
  - intros i Hi. apply list_lookup_alter_ne. unfold later in Ho. lia.
  - by rewrite length_alter.
  - exists []. by rewrite app_nil_r.
  - exists []. by rewrite app_nil_r.
Qed.

Lemma spec_update k o f : later k o → spec k (λ _, True) (update o f).
Proof. intros Ho st Hk. cbn. split; [|done]. by apply keeps_alter. Qed.

Lemma spec_set_name k o n : later k o → spec k (λ _, True) (set_name o n).
Proof. intros Ho st Hk. cbn. split; [|done]. by apply keeps_alter. Qed.

Lemma spec_add_object k o : spec k (later k) (add_object o).
Proof.
  intros st Hk. cbn. split; [|done]. split; [|split; [|split]]; cbn.
  - intros i Hi. apply lookup_app_l. lia.
  - rewrite length_app. lia.
  - exists []. by rewrite app_nil_r.
  - exists []. by rewrite app_nil_r.
Qed.

Lemma spec_meshes_new k d : spec k (λ _, True) (meshes_new d).
Proof.
  intros st Hk. cbn. split; [|done]. repeat split; try done.
  - by eexists.
  - exists []. by rewrite app_nil_r.
Qed.

Lemma spec_mesh_copy k d : spec k (λ _, True) (mesh_copy d).
Proof.
  intros st Hk. unfold mesh_copy.
  destruct d as [n|]; [|done]. destruct (mesh_data st !! n) as [doc|]; [|done].
  by apply spec_meshes_new.
Qed.

Lemma spec_objects_getitem k name : spec k (λ _, True) (objects_getitem name).
Proof.
  intros st Hk. unfold objects_getitem.
  destruct (objects_find name st) as [[]|]; [|done]. eauto using keeps_refl.
Qed.

Ltac spec_prim :=
  first
    [ apply spec_lift | apply spec_gets | apply spec_print | apply spec_link
    | apply spec_set_ids | apply spec_add_object | apply spec_meshes_new
    | apply spec_mesh_copy | apply spec_objects_getitem
    | apply spec_update; assumption | apply spec_set_name; assumption
    | apply spec_ret; first [assumption | exact I] ].

Ltac solve_spec :=
  repeat (first [ assumption | spec_prim
                | eapply spec_bind; [|intros ? ?]
                | progress unfold row_float, row_get, apply_scale,
                    set_parent, map_location, map_rotation, set_scale, set_data,
                    object_copy, objects_new, in_objects, copy_turned,
                    new_group, open, read_mtl
                | case_match ]).

Lemma spec_row_float k row key : spec k (λ _, True) (row_float row key).
Proof. by solve_spec. Qed.

Lemma spec_apply_scale k row o : later k o → spec k (λ _, True) (apply_scale row o).
Proof. intros Ho. by solve_spec. Qed.

Lemma spec_copy_turned k name : spec k (later k) (copy_turned name).
Proof. by solve_spec. Qed.

Lemma spec_if {A} k (Q : A → Prop) (b : bool) (m1 m2 : M A) :
  spec k Q m1 → spec k Q m2 → spec k Q (if b then m1 else m2).
Proof. by destruct b. Qed.

Lemma spec_read_mtl k baseDir mtlfile :
  spec k (λ _, True) (read_mtl fs baseDir mtlfile).
Proof.
  unfold read_mtl, open. apply spec_if; [by apply spec_ret|].
  eapply spec_bind; [apply spec_lift|intros ? _].
  eapply spec_bind; [apply spec_lift|intros ? _]. by apply spec_ret.
Qed.

Section SpecRows.
Variable rec : string → option nat → M nat.
Variable baseDir : string.
Hypothesis rec_spec : ∀ path gp k, spec k (later k) (rec path gp).

Ltac spec_rows :=
  repeat (first
    [ assumption | apply rec_spec | apply spec_copy_turned | apply spec_row_float
    | apply spec_apply_scale; assumption | apply spec_if
    | spec_prim
    | eapply spec_bind; [|intros ? ?]
    | progress unfold row_get, set_parent, map_location, map_rotation, set_scale,
        set_data, object_copy, objects_new, in_objects ]).

Lemma spec_adt_m2 k dp row : spec k (later k) (adt_m2 rec baseDir dp row).
Proof. unfold adt_m2. by spec_rows. Qed.

Lemma spec_adt_gobj k gp row : spec k (later k) (adt_gobj rec baseDir gp row).
Proof. unfold adt_gobj. by spec_rows. Qed.

Lemma spec_adt_wmo k wp row : spec k (later k) (adt_wmo fs rec baseDir wp row).
Proof. unfold adt_wmo. by spec_rows. Qed.

Lemma spec_wmo_row k gp obj row : spec k (later k) (wmo_row rec baseDir gp obj row).
Proof. unfold wmo_row. by spec_rows. Qed.

Lemma spec_adt_dispatch k w d g row :
  spec k (λ _, True) (adt_dispatch fs settings rec baseDir w d g row).
Proof.
  unfold adt_dispatch, row_get. eapply spec_bind; [apply spec_lift|intros ty _].
  repeat apply spec_if; try (by apply spec_ret);
    (eapply spec_bind; [|intros ? ?; by apply spec_ret]).
  - apply spec_adt_wmo.
  - apply spec_adt_m2.
  - apply spec_adt_gobj.
Qed.

Lemma spec_temp_store k t : spec k (λ _, True) (temp_store t).
Proof. destruct t; [by apply spec_ret|apply spec_set_ids]. Qed.

Lemma spec_temp_items k t : spec k (λ _, True) (temp_items t).
Proof. destruct t; [apply spec_gets|by apply spec_ret]. Qed.

Lemma spec_temp_append k t x : spec k (λ _, True) (temp_append t x).
Proof.
  destruct t; cbn [temp_append]; [|by apply spec_ret].
  eapply spec_bind; [apply spec_temp_items|intros ? ?].
  eapply spec_bind; [apply spec_set_ids|intros ? ?]. by apply spec_ret.
Qed.

Lemma spec_adt_row k w d g row :
  spec k (λ _, True) (adt_row fs settings rec baseDir w d g row).
Proof.
  unfold adt_row, row_get.
  eapply spec_bind; [apply spec_gets|intros held _].
  eapply spec_bind; [apply spec_lift|intros mid _].
  eapply spec_bind; [apply spec_temp_items|intros items _].
  apply spec_if; [apply spec_if|].
  - apply spec_print.
  - eapply spec_bind; [apply spec_adt_dispatch|intros ? ?; apply spec_temp_store].
  - eapply spec_bind; [apply spec_temp_append|intros t _].
    eapply spec_bind; [apply spec_adt_dispatch|intros ? ?; apply spec_temp_store].
Qed.

Lemma spec_for_rows k body rs :
  (∀ row, spec k (λ _, True) (body row)) → spec k (λ _, True) (for_rows body rs).
Proof.
  intros Hb. induction rs as [|row rest IH]; cbn [for_rows]; [by apply spec_ret|].
  eapply spec_bind; [apply Hb|by intros].
Qed.

Lemma spec_new_group k n0 n1 obj : spec k (later k) (new_group n0 n1 obj).
Proof. unfold new_group. by solve_spec. Qed.

Lemma spec_group_if k (b : bool) n0 n1 obj :
  spec k (λ _, True)
       (if b then let* g := new_group n0 n1 obj in ret (Some g) else ret None).
Proof.
  destruct b; [|by apply spec_ret].
  eapply spec_bind; [apply spec_new_group|intros ? ?; by apply spec_ret].
Qed.

Lemma spec_import_csv k t obj gp :
  spec k (λ _, True) (import_csv fs settings rec baseDir t obj gp).
Proof.
  unfold import_csv. apply spec_if.
  - do 3 (eapply spec_bind; [apply spec_group_if|intros ? _]).
    apply spec_for_rows. apply spec_adt_row.
  - eapply (spec_bind k (λ _, True)); [|intros gp' _].
    { destruct gp; [by apply spec_ret|].
      eapply spec_bind; [apply spec_print|intros ? _]. apply spec_group_if. }
    apply spec_for_rows. intros row. apply spec_if; [|by apply spec_ret].
    eapply spec_bind; [apply spec_wmo_row|intros ? ?; by apply spec_ret].
Qed.

End SpecRows.

Lemma spec_import fuel : ∀ path gp k,
  spec k (later k) (importWoWOBJ fs settings fuel path gp).
Proof.
  induction fuel as [|fuel IH]; intros path gp k; [done|].
  cbn [importWoWOBJ].
  eapply spec_bind; [apply spec_print|intros ? _].
  eapply spec_bind; [apply spec_lift|intros f _].
  eapply spec_bind; [apply spec_lift|intros doc _].
  eapply spec_bind; [apply spec_read_mtl|intros ? _].
  eapply spec_bind; [apply spec_meshes_new|intros newmesh _].
  eapply spec_bind; [apply spec_add_object|intros obj Hobj].
  eapply spec_bind; [apply spec_lift|intros ? _].
  do 2 (eapply spec_bind; [by apply spec_update|intros ? _]).
  eapply spec_bind; [apply spec_link|intros ? _].
  eapply (spec_bind k (λ _, True)); [|intros ? _; by apply spec_ret].
  apply spec_if; [|by apply spec_ret].
  destruct (fs _); [|by apply spec_ret].
  by apply spec_import_csv.
Qed.

(** *** Rows that add objects *)

Lemma spec_grows {A} (Q : A → Prop) (m : M A) : spec 0 Q m → grows m.
Proof.
  intros Hm st. specialize (Hm st (Nat.le_0_l _)).
  destruct (m st); [|done|done]. by destruct Hm as [(_ & ? & _) _].
Qed.

Lemma later_0 o : later 0 o.
Proof. unfold later. lia. Qed.

Lemma adds_bind_l {A B} (m : M A) (f : A → M B) :
  adds m → (∀ a, grows (f a)) → adds (bind m f).
Proof.
  intros Hm Hf st. unfold bind. specialize (Hm st).
  destruct (m st) as [a st1| |]; [|done|done].
  specialize (Hf a st1). destruct (f a st1); [lia|done|done].
Qed.

Lemma adds_bind_r {A B} (m : M A) (f : A → M B) :
  grows m → (∀ a, adds (f a)) → adds (bind m f).
Proof.
  intros Hm Hf st. unfold bind. specialize (Hm st).
  destruct (m st) as [a st1| |]; [|done|done].
  specialize (Hf a st1). destruct (f a st1); [lia|done|done].
Qed.

Lemma adds_if {A} (b : bool) (m1 m2 : M A) :
  adds m1 → adds m2 → adds (if b then m1 else m2).
Proof. by destruct b. Qed.

Lemma adds_add_object o : adds (add_object o).
Proof. intros st. cbn. rewrite length_app. cbn. lia. Qed.

Lemma adds_copy_turned name : adds (copy_turned name).
Proof.
  unfold copy_turned.
  apply adds_bind_r; [apply (spec_grows _ _ (spec_objects_getitem 0 name))|intros orig].
  apply adds_bind_l; [apply adds_add_object|intros o].
  eapply spec_grows.
  repeat first [ apply spec_link | apply spec_ret; exact I
               | apply spec_update; apply later_0
               | eapply spec_bind; [|intros ? ?]
               | progress unfold map_rotation ].
Qed.

Section AddRows.
Variable rec : string → option nat → M nat.
Variable baseDir : string.
Hypothesis rec_spec : ∀ path gp k, spec k (later k) (rec path gp).
Hypothesis rec_adds : ∀ path gp, adds (rec path gp).
Hypothesis rec_grow : ∀ path gp, preserves ids_grow (rec path gp).

Ltac grows_tac :=
  eapply spec_grows;
  repeat (first
    [ apply rec_spec | apply spec_copy_turned | apply spec_row_float
    | apply spec_apply_scale; apply later_0 | apply spec_if
    | apply spec_lift | apply spec_gets | apply spec_print | apply spec_link
    | apply spec_add_object | apply spec_mesh_copy | apply spec_objects_getitem
    | apply spec_update; apply later_0
    | apply spec_ret; first [exact I | apply later_0]
    | eapply spec_bind; [|intros ? ?]
    | progress unfold row_get, set_parent, map_location, map_rotation, set_scale,
        set_data, object_copy, objects_new, in_objects ]).

Lemma adds_adt_m2 dp row : adds (adt_m2 rec baseDir dp row).
Proof.
  unfold adt_m2.
  do 3 (apply adds_bind_r; [by grows_tac|intros ?]).
  apply adds_bind_l; [apply adds_if; [apply rec_adds|apply adds_copy_turned]|intros o].
  by grows_tac.
Qed.

Lemma adds_adt_gobj gp row : adds (adt_gobj rec baseDir gp row).
Proof.
  unfold adt_gobj.
  do 2 (apply adds_bind_r; [by grows_tac|intros ?]).
  apply adds_bind_l; [apply adds_if; [apply rec_adds|apply adds_copy_turned]|intros o].
  by grows_tac.
Qed.

Lemma adds_adt_wmo wp row : adds (adt_wmo fs rec baseDir wp row).
Proof.
  unfold adt_wmo.
  do 2 (apply adds_bind_r; [by grows_tac|intros ?]).
  apply adds_bind_l; [apply adds_add_object|intros o].
  by grows_tac.
Qed.

Lemma adds_enabled_dispatch w d g row ty st st' :
  row !! "Type" = Some ty →
  enabled settings ty = true →
  adt_dispatch fs settings rec baseDir w d g row st = Done () st' →
  (length (objects st) < length (objects st'))%nat.
Proof.
  intros Hty Hen. unfold adt_dispatch.
  rewrite (bind_step _ _ _ _ _ (row_get_Some _ _ _ _ Hty)).
  unfold enabled in Hen.
  destruct (String.eqb ty "wmo" && importWMO settings).
  { intros Hr. pose proof (adds_bind_l _ (λ _, ret ()) (adds_adt_wmo w row)
                            (λ _ s, le_n _) st) as Ha. by rewrite Hr in Ha. }
  destruct (String.eqb ty "m2" && importM2 settings).
  { intros Hr. pose proof (adds_bind_l _ (λ _, ret ()) (adds_adt_m2 d row)
                            (λ _ s, le_n _) st) as Ha. by rewrite Hr in Ha. }
  destruct (String.eqb ty "gobj" && importGOBJ settings); [|done].
  intros Hr. pose proof (adds_bind_l _ (λ _, ret ()) (adds_adt_gobj g row)
                           (λ _ s, le_n _) st) as Ha. by rewrite Hr in Ha.
Qed.

(** A row that is not skipped leaves its [ModelId] registered. *)
Lemma dispatch_keeps_registered w d g row mid st st' l :
  importedModelIDs st = Some l → mid ∈ l →
  adt_dispatch fs settings rec baseDir w d g row st = Done () st' →
  ∃ l', importedModelIDs st' = Some l' ∧ mid ∈ l'.
Proof.
  intros Hl Hin Hr.
  pose proof (grow_adt_dispatch rec baseDir rec_grow w d g row st) as Hg.
  rewrite Hr in Hg. destruct (Hg l Hl) as [l' Hl'].
  exists (l ++ l'). split; [done|]. apply elem_of_app. by left.
Qed.

Lemma adt_row_cases w d g row mid st :
  row !! "ModelId" = Some mid →
  adt_row fs settings rec baseDir w d g row st
  = match importedModelIDs st with
    | Some l =>
        if bool_decide (mid ∈ l) then
          if allowDuplicates settings
          then adt_dispatch fs settings rec baseDir w d g row st
          else Done () (printed ("Skipping already imported model " +:+ mid) st)
        else adt_dispatch fs settings rec baseDir w d g row (register mid st)
    | None =>
        (adt_dispatch fs settings rec baseDir w d g row;;
         set_importedModelIDs [mid]) st
    end.
Proof.
  intros Hmid. unfold adt_row.
  rewrite (bind_step _ _ _ _ _ (gets_eq _ _)).
  rewrite (bind_step _ _ _ _ _ (row_get_Some _ _ _ _ Hmid)).
  destruct (importedModelIDs st) as [l|] eqn:Hl.
  - rewrite (bind_step _ _ _ _ _ (temp_items_Shared _)).
    unfold registry. rewrite Hl. change (default [] (Some l)) with l.
    destruct (bool_decide (mid ∈ l)).
    + destruct (allowDuplicates settings); cbn [negb]; [|done].
      unfold bind. by destruct (adt_dispatch _ _ _ _ _ _ _ _ st) as [[] ?| |].
    + rewrite (bind_step _ _ _ _ _ (temp_append_Shared _ _)).
      unfold bind.
      by destruct (adt_dispatch _ _ _ _ _ _ _ _ (register mid st)) as [[] ?| |].
  - rewrite (bind_step _ _ _ _ _ (temp_items_Fresh _ _)).
    rewrite bool_decide_eq_false_2 by apply not_elem_of_nil.
    by rewrite (bind_step _ _ _ _ _ (temp_append_Fresh _ _ _)).
Qed.

Lemma adt_row_imports w d g row mid ty st st' :
  row !! "ModelId" = Some mid →
  row !! "Type" = Some ty →
  enabled settings ty = true →
  mid ∉ registry st ∨ allowDuplicates settings = true →
  adt_row fs settings rec baseDir w d g row st = Done () st' →
  (length (objects st) < length (objects st'))%nat
  ∧ ∃ l', importedModelIDs st' = Some l' ∧ mid ∈ l'.
Proof.
  intros Hmid Hty Hen Hreg. rewrite (adt_row_cases w d g row mid st Hmid).
  unfold registry in Hreg.
  destruct (importedModelIDs st) as [l|] eqn:Hl; cbn [default] in Hreg.
  - case_bool_decide as Hin.
    + destruct Hreg as [?|Had]; [done|]. rewrite Had. intros Hr. split.
      * eapply adds_enabled_dispatch; eauto.
      * eapply dispatch_keeps_registered; eauto.
    + intros Hr. split.
      * apply (adds_enabled_dispatch w d g row ty _ _ Hty Hen Hr).
      * eapply (dispatch_keeps_registered w d g row mid (register mid st));
          [reflexivity| |exact Hr].
        unfold registry. rewrite Hl. apply elem_of_app. right. by apply list_elem_of_singleton.
  - intros Hr. apply bind_Done in Hr as ([] & s1 & Hd & Hs).
    cbn in Hs. injection Hs as <-. split.
    + apply (adds_enabled_dispatch w d g row ty _ _ Hty Hen Hd).
    + exists [mid]. split; [done|]. by apply list_elem_of_singleton.
Qed.

Lemma adt_row_skips w d g row mid st l :
  row !! "ModelId" = Some mid →
  importedModelIDs st = Some l → mid ∈ l →
  allowDuplicates settings = false →
  adt_row fs settings rec baseDir w d g row st
  = Done () (printed ("Skipping already imported model " +:+ mid) st).
Proof.
  intros Hmid Hl Hin Had. rewrite (adt_row_cases w d g row mid st Hmid), Hl, Had.
  by rewrite bool_decide_eq_true_2.
Qed.

End AddRows.

Lemma adds_import fuel path gp : adds (importWoWOBJ fs settings fuel path gp).
Proof.
  destruct fuel as [|fuel]; [done|]. cbn [importWoWOBJ].
  apply adds_bind_r; [apply (spec_grows _ _ (spec_print 0 _))|intros ?].
  apply adds_bind_r; [apply (spec_grows _ _ (spec_lift 0 _))|intros ?].
  apply adds_bind_r; [apply (spec_grows _ _ (spec_lift 0 _))|intros ?].
  apply adds_bind_r; [apply (spec_grows _ _ (spec_read_mtl 0 _ _))|intros ?].
  apply adds_bind_r; [apply (spec_grows _ _ (spec_meshes_new 0 _))|intros ?].
  apply adds_bind_l; [apply adds_add_object|intros obj].
  eapply spec_grows.
  eapply spec_bind; [apply spec_lift|intros ? _].
  do 2 (eapply spec_bind; [apply spec_update; apply later_0|intros ? _]).
  eapply spec_bind; [apply spec_link|intros ? _].
  eapply (spec_bind 0 (λ _, True)); [|intros ? _; by apply (spec_ret 0 (λ _, True))].
  apply spec_if; [|by apply spec_ret].
  destruct (fs _); [|by apply spec_ret].
  apply spec_import_csv. apply spec_import.
Qed.

(** C3. Two rows of an ADT table carry the same [ModelId], their categories
    are switched on, and the registry is empty when the first is reached.
    Without [allowDuplicates], the table does what its first row alone does
    (which, returning, has added at least one object) and then announces
    the second as skipped: the second adds no object and raises nothing.
    With [allowDuplicates], a table that is gone through has imported both:
    each of the two rows has added at least one object. *)
Theorem same_ModelId_imported_once_or_twice
    (fuel : nat) (baseDir : string) (wmoparent doodadparent gobjparent : option nat)
    (r1 r2 : gmap string string) (mid ty1 ty2 : string) (st : Blender) :
  r1 !! "ModelId" = Some mid →
  r2 !! "ModelId" = Some mid →
  r1 !! "Type" = Some ty1 →
  r2 !! "Type" = Some ty2 →
  enabled settings ty1 = true →
  enabled settings ty2 = true →
  registry st = [] →
  let body := adt_row fs settings (importWoWOBJ fs settings fuel) baseDir
                      wmoparent doodadparent gobjparent in
  (allowDuplicates settings = false →
     for_rows body [r1; r2] st
     = match body r1 st with
       | Done _ st1 =>
           Done () (printed ("Skipping already imported model " +:+ mid) st1)
       | r => r
       end
     ∧ ∀ st1, body r1 st = Done () st1 →
              (length (objects st) < length (objects st1))%nat)
  ∧ (allowDuplicates settings = true →
     ∀ st2, for_rows body [r1; r2] st = Done () st2 →
            ∃ st1, body r1 st = Done () st1 ∧ body r2 st1 = Done () st2
                   ∧ (length (objects st) < length (objects st1))%nat
                   ∧ (length (objects st1) < length (objects st2))%nat).
Proof.
  intros Hm1 Hm2 Ht1 Ht2 He1 He2 Hreg body.
  assert (Hfresh : mid ∉ registry st) by (rewrite Hreg; apply not_elem_of_nil).
  assert (Hfirst : ∀ st1, body r1 st = Done () st1 →
            (length (objects st) < length (objects st1))%nat
            ∧ ∃ l', importedModelIDs st1 = Some l' ∧ mid ∈ l').
  { intros st1. apply (adt_row_imports _ baseDir (spec_import fuel) (adds_import fuel)
                         (grow_import fuel) wmoparent doodadparent gobjparent
                         r1 mid ty1); auto. }
  split.
  - intros Had. split; [|intros st1 Hr; by apply Hfirst].
    cbn [for_rows]. unfold bind at 1.
    destruct (body r1 st) as [[] st1| |] eqn:E1; [|done|done].
    destruct (Hfirst st1 eq_refl) as [_ (l' & Hl' & Hin)].
    unfold body at 1.
    by rewrite (bind_step _ _ _ _ _
                  (adt_row_skips _ baseDir _ _ _ r2 mid st1 l' Hm2 Hl' Hin Had)).
  - intros Had st2 Hr. cbn [for_rows] in Hr.
    apply bind_Done in Hr as ([] & st1 & E1 & Hr).
    apply bind_Done in Hr as ([] & st1' & E2 & Hr).
    cbn in Hr. injection Hr as ->.
    exists st1. split; [done|]. split; [done|].
    split; [by apply Hfirst|].
    apply (adt_row_imports _ baseDir (spec_import fuel) (adds_import fuel)
             (grow_import fuel) wmoparent doodadparent gobjparent
             r2 mid ty2 st1 st2); auto.
Qed.

(** *** The object an import returns *)

Lemma lift_Done {A} (x : Exc A) st a st' : lift x st = Done a st' → st' = st.
Proof. destruct x; cbn; [by intros [= _ <-]|done]. Qed.

Lemma read_mtl_Done baseDir mtlfile st m st' :
  read_mtl fs baseDir mtlfile st = Done m st' → st' = st.
Proof.
  unfold read_mtl, open. destruct (String.eqb mtlfile ""); [by intros [= _ <-]|].
  intros Hr. apply bind_Done in Hr as (f & s1 & H1 & Hr). apply lift_Done in H1 as ->.
  apply bind_Done in Hr as (x & s2 & H2 & Hr). apply lift_Done in H2 as ->.
  by injection Hr as _ <-.
Qed.

Lemma import_root fuel path gp st obj st' :
  importWoWOBJ fs settings fuel path gp st = Done obj st' →
  obj = length (objects st)
  ∧ (∃ o, objects st' !! obj = Some o
          ∧ o_name o = unique_name (names st) (basename path)
          ∧ o_data o = Some (length (mesh_data st)))
  ∧ (∃ out, stdout st' = stdout st ++ ("Parsing OBJ: " +:+ (path_split path).2) :: out)
  ∧ (length (mesh_data st) < length (mesh_data st'))%nat.
Proof.
  destruct fuel as [|fuel]; [done|]. cbn [importWoWOBJ]. intros Hr.
  apply bind_Done in Hr as ([] & s1 & H1 & Hr).
  unfold print, modify in H1. injection H1 as <-.
  apply bind_Done in Hr as (f & s2 & H2 & Hr). apply lift_Done in H2 as ->.
  apply bind_Done in Hr as (doc & s3 & H3 & Hr). apply lift_Done in H3 as ->.
  apply bind_Done in Hr as (mats & s4 & H4 & Hr). apply read_mtl_Done in H4 as ->.
  apply bind_Done in Hr as (newmesh & s5 & H5 & Hr).
  unfold meshes_new in H5. injection H5 as <- <-.
  apply bind_Done in Hr as (o & s6 & H6 & Hr).
  unfold objects_new, add_object in H6. injection H6 as <- <-.
  apply bind_Done in Hr as ([] & s7 & H7 & Hr). apply lift_Done in H7 as ->.
  apply bind_Done in Hr as ([] & s8 & H8 & Hr).
  unfold map_rotation, update, modify in H8. injection H8 as <-.
  apply bind_Done in Hr as ([] & s9 & H9 & Hr).
  unfold map_rotation, update, modify in H9. injection H9 as <-.
  apply bind_Done in Hr as ([] & s10 & H10 & Hr).
  unfold link, modify in H10. injection H10 as <-.
  apply bind_Done in Hr as ([] & s11 & H11 & Hr).
  injection Hr as <- <-.
  match type of H11 with
  | ?m ?sB = _ =>
      assert (Hs : spec (S (length (objects st))) (λ _ : (), True) m);
      [ apply spec_if; [|by apply spec_ret];
        destruct (fs _); [|by apply spec_ret];
        apply spec_import_csv; apply spec_import
      | specialize (Hs sB) ]
  end.
  rewrite H11 in Hs.
  destruct Hs as [(Hobj & _ & [ms Hms] & [out Hout]) _].
  { cbn [objects with_objects]. rewrite !length_alter, length_app. cbn. lia. }
  split; [done|]. split; [|split].
  - specialize (Hobj (length (objects st)) (Nat.lt_succ_diag_r _)).
    cbn [objects with_objects] in Hobj.
    rewrite !list_lookup_alter_eq, list_lookup_middle in Hobj by done.
    eexists. split; [exact Hobj|]. done.
  - exists out. rewrite Hout. cbn [stdout]. by rewrite <- app_assoc.
  - rewrite Hms. cbn [mesh_data]. rewrite !length_app. cbn. lia.
Qed.

(** *** Placing an object changes that object only *)

Lemma touches_refl o st : touches o st st.
Proof. exists id. split; [done|]. by rewrite list_alter_id. Qed.

Lemma touches_same o st st' : objects st' = objects st → touches o st st'.
Proof. intros Ho. exists id. split; [done|]. by rewrite list_alter_id. Qed.

Lemma alter_alter {A} (f g : A → A) i (l : list A) :
  alter f i (alter g i l) = alter (f ∘ g) i l.
Proof.
  revert i. induction l as [|x l IH]; intros [|i]; cbn; try done. by rewrite IH.
Qed.

Lemma touches_trans o st1 st2 st3 :
  touches o st1 st2 → touches o st2 st3 → touches o st1 st3.
Proof.
  intros (f & Hf & H12) (g & Hg & H23). exists (g ∘ f). split.
  - intros b. cbn. destruct (Hf b) as [<- <-]. apply Hg.
  - by rewrite H23, H12, alter_alter.
Qed.

Lemma only_bind {A B} o (m : M A) (f : A → M B) :
  only o m → (∀ a, only o (f a)) → only o (bind m f).
Proof.
  intros Hm Hf st. unfold bind. specialize (Hm st).
  destruct (m st) as [a st1| |]; [|done|done].
  specialize (Hf a st1). destruct (f a st1); eauto using touches_trans.
Qed.

Lemma only_ret {A} o (a : A) : only o (ret a).
Proof. intros st. apply touches_refl. Qed.

Lemma only_lift {A} o (x : Exc A) : only o (lift x).
Proof. intros st. destruct x; [apply touches_refl|done]. Qed.

Lemma only_update o f : same_mesh f → only o (update o f).
Proof. intros Hf st. by exists f. Qed.

Lemma only_if {A} o (b : bool) (m1 m2 : M A) :
  only o m1 → only o m2 → only o (if b then m1 else m2).
Proof. by destruct b. Qed.

Lemma places_bind {A} o (m : M A) (f : A → M nat) :
  only o m → (∀ a, places o (f a)) → places o (bind m f).
Proof.
  intros Hm Hf st. unfold bind. specialize (Hm st).
  destruct (m st) as [a st1| |]; [|done|done].
  specialize (Hf a st1). destruct (f a st1); [|done|done].
  destruct Hf. eauto using touches_trans.
Qed.

Lemma places_ret o : places o (ret o).
Proof. intros st. split; [done|apply touches_refl]. Qed.

Ltac only_tac :=
  repeat (first
    [ apply only_ret | apply only_lift | apply only_update; done | apply only_if
    | apply only_bind; [|intros ?]
    | progress unfold row_float, row_get, apply_scale, set_parent, map_location,
        map_rotation, set_scale ]).

Ltac places_tac :=
  repeat (first [ apply places_ret | apply places_bind; [by only_tac|intros ?] ]).

Lemma copy_turned_Done name st o st' :
  copy_turned name st = Done o st' →
  ∃ i orig c, objects_find name st = Some (i, orig)
              ∧ o = length (objects st)
              ∧ objects st' = objects st ++ [c]
              ∧ o_data c = o_data orig.
Proof.
  unfold copy_turned. intros Hr.
  apply bind_Done in Hr as (orig & s1 & H1 & Hr).
  unfold objects_getitem in H1.
  destruct (objects_find name st) as [[i orig']|] eqn:Hfind; [|done].
  injection H1 as <- <-.
  apply bind_Done in Hr as (o' & s2 & H2 & Hr).
  unfold object_copy, add_object in H2. injection H2 as <- <-.
  apply bind_Done in Hr as ([] & s3 & H3 & Hr).
  unfold map_rotation, update, modify in H3. injection H3 as <-.
  apply bind_Done in Hr as ([] & s4 & H4 & Hr).
  unfold map_rotation, update, modify in H4. injection H4 as <-.
  apply bind_Done in Hr as ([] & s5 & H5 & Hr).
  unfold link, modify in H5. injection H5 as <-.
  injection Hr as <- <-.
  exists i, orig'. eexists. split; [done|]. split; [done|].
  cbn [objects with_objects]. rewrite !alter_app_r_alt by done.
  rewrite Nat.sub_diag. cbn. split; [reflexivity|done].
Qed.

(** What an m2 row does: it obtains [importedFile] from the import or from
    a copy, and then places it. *)
Lemma adt_m2_Done rec baseDir dp row mf st o st' :
  row !! "ModelFile" = Some mf →
  adt_m2 rec baseDir dp row st = Done o st' →
  ∃ s2,
    (if bool_decide (is_Some (objects_find (basename mf) st))
     then copy_turned (basename mf)
     else rec (path_join baseDir mf) None)
      (printed ("ADT M2 import: " +:+ mf) st) = Done o s2
    ∧ touches o s2 st'.
Proof.
  intros Hmf. unfold adt_m2.
  rewrite (bind_step _ _ _ _ _ (row_get_Some _ _ _ _ Hmf)).
  rewrite (bind_step _ _ _ _ _ (print_printed _ _)).
  rewrite (bind_step _ _ _ _ _ (in_objects_eq _ _)).
  change (objects_find (basename mf) (printed _ st)) with (objects_find (basename mf) st).
  intros Hr. apply bind_Done in Hr as (o' & s2 & H2 & Hr).
  match type of Hr with
  | ?m s2 = _ => assert (Hm : places o' m) by places_tac; specialize (Hm s2)
  end.
  rewrite Hr in Hm. destruct Hm as [-> Ht].
  exists s2. split; [|done].
  by destruct (bool_decide (is_Some (objects_find (basename mf) st))).
Qed.


Lemma find_kept name st st' i orig :
  objects_find name st = Some (i, orig) →
  (∀ j, (j < length (objects st))%nat → objects st' !! j = objects st !! j) →
  objects_find name st' = Some (i, orig).
Proof.
  unfold objects_find. intros Hf Hsame.
  apply list_find_Some in Hf as (Hi & Hn & Hleast).
  assert (Hlt : (i < length (objects st))%nat) by eauto using lookup_lt_Some.
  apply list_find_Some. split; [by rewrite Hsame|]. split; [done|].
  intros j y Hj Hji. apply (Hleast j y); [|done]. rewrite <- Hsame; [done|lia].
Qed.

Lemma find_new name st st' b :
  objects_find name st = None →
  (∀ j, (j < length (objects st))%nat → objects st' !! j = objects st !! j) →
  objects st' !! length (objects st) = Some b →
  o_name b = name →
  objects_find name st' = Some (length (objects st), b).
Proof.
  unfold objects_find. intros Hf Hsame Hb Hn.
  apply list_find_None in Hf. rewrite Forall_lookup in Hf.
  apply list_find_Some. split; [done|]. split; [done|].
  intros j y Hj Hji. rewrite Hsame in Hj by done. by apply (Hf j y).
Qed.

Lemma find_None_names name st : objects_find name st = None → name ∉ names st.
Proof.
  unfold objects_find, names. intros Hf Hin.
  apply list_find_None in Hf. rewrite Forall_forall in Hf.
  apply list_elem_of_fmap in Hin as (b & -> & Hb). by apply (Hf b Hb).
Qed.

Lemma touches_lookup o st st' :
  touches o st st' →
  (∀ j, j ≠ o → objects st' !! j = objects st !! j)
  ∧ (∀ b, objects st !! o = Some b →
          ∃ b', objects st' !! o = Some b' ∧ o_name b' = o_name b ∧ o_data b' = o_data b).
Proof.
  intros (f & Hf & ->). split.
  - intros j Hj. by apply list_lookup_alter_ne.
  - intros b Hb. exists (f b). rewrite list_lookup_alter_eq, Hb.
    split; [done|]. apply Hf.
Qed.

(** After an m2 row, the name of its file finds an object with the mesh of
    the object the row returned. *)
Lemma adt_m2_leaves_original fuel baseDir dp row mf st o st' :
  row !! "ModelFile" = Some mf →
  adt_m2 (importWoWOBJ fs settings fuel) baseDir dp row st = Done o st' →
  ∃ i orig b,
    objects_find (basename mf) st' = Some (i, orig)
    ∧ objects st' !! o = Some b
    ∧ o_data orig = o_data b.
Proof.
  intros Hmf Hr. destruct (adt_m2_Done _ _ _ _ _ _ _ _ Hmf Hr) as (s2 & H2 & Ht).
  apply touches_lookup in Ht as [Hother Hat].
  case_bool_decide as Hpres.
  - apply copy_turned_Done in H2 as (i & orig & c & Hfind & -> & Hobjs & Hc).
    change (objects (printed _ st)) with (objects st) in *.
    change (objects_find (basename mf) (printed _ st))
      with (objects_find (basename mf) st) in Hfind.
    destruct (Hat c) as (b' & Hb' & _ & Hdata).
    { rewrite Hobjs. by apply list_lookup_middle. }
    exists i, orig, b'. split; [|split; [done|congruence]].
    apply (find_kept _ st); [done|]. intros j Hj.
    rewrite Hother by lia. rewrite Hobjs. by apply lookup_app_l.
  - assert (Hnone : objects_find (basename mf) st = None).
    { destruct (objects_find (basename mf) st) eqn:E; [|done]. destruct Hpres. eauto. }
    pose proof (spec_import fuel (path_join baseDir mf) None (length (objects st))
                  (printed ("ADT M2 import: " +:+ mf) st) (le_n _)) as Hk.
    rewrite H2 in Hk. destruct Hk as [(Hkeep & _) _].
    apply import_root in H2 as (-> & (r & Hr' & Hname & Hdata) & _).
    change (objects (printed _ st)) with (objects st) in *.
    change (names (printed _ st)) with (names st) in Hname.
    rewrite basename_path_join, unique_name_free in Hname
      by by apply find_None_names.
    destruct (Hat r Hr') as (b' & Hb' & Hname' & Hdata').
    exists (length (objects st)), b', b'. split; [|done].
    apply find_new; [done| |done|congruence].
    intros j Hj. rewrite Hother by lia. by apply Hkeep.
Qed.

(** C4. Two m2 rows name the same file; between them the scene only got
    more objects. The second returns an object of its own, other than the
    first's, whose mesh is the very mesh of the first ([o_data] is the same
    position in [mesh_data]), and leaves the first as it was. A wmo row
    whose file has a placement table beside it gets its object from the
    import of that file, entered again, whether or not the scene has an
    object of that name; it is then given its parent. *)
Theorem m2_rows_share_mesh_and_wmo_with_table_is_imported_again
    (fuel : nat) (baseDir : string) (doodadparent : option nat)
    (r1 r2 : gmap string string) (mf : string)
    (st st1 st1' st2 : Blender) (o1 o2 : nat) :
  r1 !! "ModelFile" = Some mf →
  r2 !! "ModelFile" = Some mf →
  adt_m2 (importWoWOBJ fs settings fuel) baseDir doodadparent r1 st = Done o1 st1 →
  keeps (length (objects st1)) st1 st1' →
  adt_m2 (importWoWOBJ fs settings fuel) baseDir doodadparent r2 st1' = Done o2 st2 →
  (o1 ≠ o2
   ∧ ∃ b1 b2, objects st1 !! o1 = Some b1 ∧ objects st2 !! o1 = Some b1
              ∧ objects st2 !! o2 = Some b2 ∧ o_data b2 = o_data b1)
  ∧ (∀ wmoparent row file s o s',
       row !! "ModelFile" = Some file →
       path_exists fs (path_join baseDir (replace ".obj" csv_suffix file)) = true →
       adt_wmo fs (importWoWOBJ fs settings fuel) baseDir wmoparent row s = Done o s' →
       ∃ parent s_a s_b,
         importWoWOBJ fs settings fuel (path_join baseDir file) (Some parent) s_a
         = Done o s_b
         ∧ touches o s_b s').
Proof.
  intros Hm1 Hm2 Hr1 (Hkeep & Hlen & _) Hr2. split.
  - destruct (adt_m2_leaves_original _ _ _ _ _ _ _ _ Hm1 Hr1)
      as (i & orig & b1 & Hfind & Hb1 & Hdata).
    assert (Ho1 : (o1 < length (objects st1))%nat) by eauto using lookup_lt_Some.
    assert (Hfind' : objects_find (basename mf) st1' = Some (i, orig)).
    { by apply (find_kept _ st1). }
    destruct (adt_m2_Done _ _ _ _ _ _ _ _ Hm2 Hr2) as (s2 & H2 & Ht).
    rewrite Hfind' in H2. rewrite bool_decide_eq_true_2 in H2 by eauto.
    apply copy_turned_Done in H2 as (i' & orig' & c & Hf2 & -> & Hobjs & Hc).
    change (objects (printed _ st1')) with (objects st1') in *.
    change (objects_find (basename mf) (printed _ st1'))
      with (objects_find (basename mf) st1') in Hf2.
    rewrite Hfind' in Hf2. injection Hf2 as <- <-.
    apply touches_lookup in Ht as [Hother Hat].
    destruct (Hat c) as (b2 & Hb2 & _ & Hdata2).
    { rewrite Hobjs. by apply list_lookup_middle. }
    split; [lia|]. exists b1, b2. split; [done|]. split; [|split; [done|congruence]].
    rewrite Hother by lia. rewrite Hobjs, lookup_app_l by lia. by rewrite Hkeep.
  - intros wp row file s o s' Hfile Hex Hr. unfold adt_wmo in Hr.
    rewrite (bind_step _ _ _ _ _ (row_get_Some _ _ _ _ Hfile)) in Hr.
    apply bind_Done in Hr as ([] & ? & _ & Hr).
    apply bind_Done in Hr as (parent & ? & _ & Hr).
    do 15 (apply bind_Done in Hr as (? & ? & _ & Hr)).
    apply bind_Done in Hr as (o' & s_b & Hif & Hr).
    rewrite Hex in Hif.
    match type of Hr with
    | ?m s_b = _ => assert (Hm : places o' m) by places_tac; specialize (Hm s_b)
    end.
    rewrite Hr in Hm. destruct Hm as [-> Ht].
    eexists parent, _, s_b. split; [|done].
    match type of Hif with (if ?c then _ else _) _ = _ => by destruct c end.
Qed.

End RowFacts.

(** * The statements on the small worlds *)

Section Evaluations.
Import Sym Demo.

Lemma returned_Done {A} (r : Res A) (a : A) :
  returned r = Some a → r = Done a (scene_after r).
Proof. destruct r; cbn; congruence. Qed.

Lemma named_is_found (name : string) (st : Blender) :
  name ∈ names st → is_Some (objects_find name st).
Proof.
  unfold names, objects_find. intros Hin.
  apply list_elem_of_fmap in Hin as (b & -> & Hb).
  by apply (list_find_elem_of _ _ b).
Qed.

(** C1. The tile places [tree.obj] twice, first with scale factor 2, then
    with none. The second tree is a copy of the first: its translation and
    rotation are set from its own row, by the formulas of the wmo and m2
    rows, but its scale is the 2 of the first tree, not 1. *)
Theorem empty_ScaleFactor_on_a_copy_keeps_the_scale_of_the_original :
  let st := scene_after (importWoWOBJ two_trees all_on 2 "/w/adt_1.obj" None empty_scene) in
  tree_2 !! "ScaleFactor" = Some ""
  ∧ field o_location "tree.obj.001" st
    = Some (fsub max_size (Lit "100"),
            fmul (fsub max_size (Lit "200")) (of_int (-1)),
            Lit "50")
  ∧ field o_rotation_euler "tree.obj.001" st
    = Some (fadd (radians (of_int 90)) (radians (Lit "30")),
            fadd (of_int 0) (radians (Lit "10")),
            radians (fadd (of_int 90) (Lit "20")))
  ∧ field o_scale "tree.obj.001" st = Some (Lit "2", Lit "2", Lit "2")
  ∧ field o_scale "tree.obj.001" st ≠ Some one3.
Proof. vm_compute. repeat split; discriminate. Qed.

(** C2 at an input: the second import of a tile finds the identifiers the
    first left in the scene, and skips both rows. *)
Lemma second_import_sees_the_first :
  let r := importWoWOBJAddon two_trees all_on 2 "/w/adt_1.obj" first_import in
  importedModelIDs first_import = Some ["1"; "2"]
  ∧ returned r = Some ()
  ∧ drop (length (stdout first_import)) (stdout (scene_after r))
    = ["Parsing OBJ: adt_1.obj"; "Skipping already imported model 1";
       "Skipping already imported model 2"].
Proof. by vm_compute. Qed.

Lemma registry_outlives_the_import_witness :
  importedModelIDs first_import = Some ["1"; "2"]
  ∧ (∀ u st', importWoWOBJAddon two_trees all_on 2 "/w/adt_1.obj" first_import
              = Done u st' →
              ∃ l', importedModelIDs st' = Some (["1"; "2"] ++ l'))
  ∧ (∀ e st', importWoWOBJAddon two_trees all_on 2 "/w/adt_1.obj" first_import
              = Raised e st' →
              ∃ l', importedModelIDs st' = Some (["1"; "2"] ++ l')).
Proof.
  split; [by vm_compute|].
  apply (registry_outlives_the_import two_trees all_on 2 "/w/adt_1.obj"
           first_import ["1"; "2"]).
  by vm_compute.
Defined.

Lemma same_ModelId_imported_once_or_twice_witness :
  (tree_7 !! "ModelId" = Some "7" ∧ tree_7 !! "Type" = Some "m2"
   ∧ enabled all_on "m2" = true ∧ enabled duplicates_allowed "m2" = true
   ∧ registry empty_scene = [])
  ∧ (let body := adt_row same_id all_on (importWoWOBJ same_id all_on 1) "/w"
                         None None None in
     for_rows body [tree_7; tree_7] empty_scene
     = match body tree_7 empty_scene with
       | Done _ st1 => Done () (printed "Skipping already imported model 7" st1)
       | r => r
       end
     ∧ ∀ st1, body tree_7 empty_scene = Done () st1 →
              (length (objects empty_scene) < length (objects st1))%nat)
  ∧ (let body := adt_row same_id duplicates_allowed
                         (importWoWOBJ same_id duplicates_allowed 1) "/w"
                         None None None in
     ∀ st2, for_rows body [tree_7; tree_7] empty_scene = Done () st2 →
            ∃ st1, body tree_7 empty_scene = Done () st1
                   ∧ body tree_7 st1 = Done () st2
                   ∧ (length (objects empty_scene) < length (objects st1))%nat
                   ∧ (length (objects st1) < length (objects st2))%nat).
Proof.
  split; [by vm_compute|]. split.
  - apply (same_ModelId_imported_once_or_twice same_id all_on 1 "/w" None None None
             tree_7 tree_7 "7" "m2" "m2" empty_scene); by vm_compute.
  - apply (same_ModelId_imported_once_or_twice same_id duplicates_allowed 1 "/w"
             None None None tree_7 tree_7 "7" "m2" "m2" empty_scene); by vm_compute.
Defined.

Lemma m2_rows_share_mesh_witness :
  (tree_1 !! "ModelFile" = Some "tree.obj" ∧ tree_2 !! "ModelFile" = Some "tree.obj"
   ∧ adt_m2 (importWoWOBJ two_trees all_on 1) "/w" None tree_1 empty_scene
     = Done 0%nat one_tree
   ∧ adt_m2 (importWoWOBJ two_trees all_on 1) "/w" None tree_2 one_tree
     = Done 1%nat both_trees)
  ∧ (0 ≠ 1)%nat
  ∧ ∃ b1 b2, objects one_tree !! 0%nat = Some b1 ∧ objects both_trees !! 0%nat = Some b1
             ∧ objects both_trees !! 1%nat = Some b2 ∧ o_data b2 = o_data b1.
Proof.
  assert (H1 : adt_m2 (importWoWOBJ two_trees all_on 1) "/w" None tree_1 empty_scene
               = Done 0%nat one_tree).
  { unfold one_tree at 1. apply returned_Done. by vm_compute. }
  assert (H2 : adt_m2 (importWoWOBJ two_trees all_on 1) "/w" None tree_2 one_tree
               = Done 1%nat both_trees).
  { unfold both_trees at 1. apply returned_Done. by vm_compute. }
  assert (F1 : tree_1 !! "ModelFile" = Some "tree.obj") by (by vm_compute).
  assert (F2 : tree_2 !! "ModelFile" = Some "tree.obj") by (by vm_compute).
  split; [exact (conj F1 (conj F2 (conj H1 H2)))|].
  exact (proj1 (m2_rows_share_mesh_and_wmo_with_table_is_imported_again
                  two_trees all_on 1 "/w" None tree_1 tree_2 "tree.obj" empty_scene
                  one_tree one_tree both_trees 0%nat 1%nat F1 F2 H1
                  (keeps_refl _ one_tree) H2)).
Defined.

(** C5 at an input: the table of [house.obj] places [house.obj]. The import
    returns the house, with a copy of it among its doodads. *)
Lemma self_placing_table_imports :
  let r := importWoWOBJ cyclic all_on 1 "/w/house.obj" None empty_scene in
  returned r = Some 0%nat
  ∧ raised r = None
  ∧ names (scene_after r) = ["house.obj"; "Doodads"; "house.obj.001"].
Proof. by vm_compute. Qed.

Lemma present_name_is_copied_witness :
  (house_again !! "ModelFile" = Some "house.obj"
   ∧ is_Some (objects_find (basename "house.obj") with_house))
  ∧ (∀ givenParent obj,
       wmo_row (importWoWOBJ cyclic all_on 5) "/w" givenParent obj house_again with_house
       = wmo_row no_import "/w" givenParent obj house_again with_house
       ∧ wmo_row (importWoWOBJ cyclic all_on 5) "/w" givenParent obj house_again with_house
         ≠ OutOfFuel).
Proof.
  assert (Hin : is_Some (objects_find (basename "house.obj") with_house)).
  { apply named_is_found. vm_compute. apply list_elem_of_here. }
  split; [split; [by vm_compute|done]|].
  apply (present_name_is_copied_without_import (importWoWOBJ cyclic all_on 5) "/w"
           house_again "house.obj" with_house); [by vm_compute|done].
Defined.

(** C6 at an input: the first row names a file that does not exist. The
    import raises; [tree.obj], named by the second row, is not imported. *)
Lemma missing_file_ends_the_import :
  let r := importWoWOBJ missing_first all_on 3 "/w/adt_1.obj" None empty_scene in
  raised r = Some FileNotFoundError
  ∧ returned r = None
  ∧ names (scene_after r) = ["adt_1.obj"; "WMOs"; "Doodads"; "GameObjects"].
Proof. by vm_compute. Qed.

Lemma missing_file_aborts_the_loop_witness :
  (missing_1 !! "ModelId" = Some "1" ∧ missing_1 !! "Type" = Some "m2"
   ∧ missing_1 !! "ModelFile" = Some "missing.obj" ∧ importM2 all_on = true
   ∧ objects_find (basename "missing.obj") empty_scene = None
   ∧ missing_first (path_join "/w" "missing.obj") = None)
  ∧ ∃ st', ∀ rest,
      for_rows (adt_row missing_first all_on (importWoWOBJ missing_first all_on 1) "/w"
                        None None None)
               (missing_1 :: rest) empty_scene
      = Raised FileNotFoundError st'.
Proof.
  split.
  { do 4 (split; [by vm_compute|]). split; [reflexivity|by vm_compute]. }
  apply (missing_file_aborts_the_loop missing_first all_on 0 "/w" None None None
           missing_1 "1" "missing.obj" empty_scene);
    [by vm_compute|by vm_compute|by vm_compute|reflexivity
    |left; apply not_elem_of_nil|reflexivity|by vm_compute].
Defined.

(** C3 at an input: a doodad and a building carry the identifier 7, m2 is
    switched off, wmo is switched on, duplicates are not allowed and the
    registry is empty. Neither of the two rows is imported: the doodad for
    its category, the building for the identifier the doodad has
    registered. The loop returns, with no object made. *)
Lemma same_ModelId_and_neither_row_is_imported :
  let body := adt_row doodad_then_house no_m2 (importWoWOBJ doodad_then_house no_m2 1)
                      "/w" None None None in
  tree_7 !! "ModelId" = Some "7" ∧ house_7 !! "ModelId" = Some "7"
  ∧ house_7 !! "Type" = Some "wmo" ∧ enabled no_m2 "wmo" = true
  ∧ allowDuplicates no_m2 = false
  ∧ registry empty_scene = []
  ∧ for_rows body [tree_7; house_7] empty_scene
    = Done () (printed "Skipping already imported model 7"
                       (register "7" empty_scene))
  ∧ objects (printed "Skipping already imported model 7" (register "7" empty_scene))
    = [].
Proof. by vm_compute. Qed.

(** C7 at an input: m2 is switched off, and the table has a doodad and a
    building under the identifier 7. The doodad is not imported, its
    identifier is registered, and the building is skipped for it. *)
Lemma disabled_row_changes_the_registry :
  let r := importWoWOBJ doodad_then_house no_m2 3 "/w/adt_1.obj" None empty_scene in
  importedModelIDs empty_scene = None
  ∧ returned r = Some 0%nat
  ∧ importedModelIDs (scene_after r) = Some ["7"]
  ∧ names (scene_after r) = ["adt_1.obj"; "WMOs"; "GameObjects"]
  ∧ stdout (scene_after r)
    = ["Parsing OBJ: adt_1.obj"; "Skipping already imported model 7"].
Proof. by vm_compute. Qed.

Lemma disabled_row_still_registers_witness :
  (tree_7 !! "ModelId" = Some "7" ∧ tree_7 !! "Type" = Some "m2"
   ∧ enabled no_m2 "m2" = false)
  ∧ adt_row doodad_then_house no_m2 no_import "/w" None None None tree_7 empty_scene
    = Done () (register "7" empty_scene).
Proof.
  split; [by vm_compute|].
  apply (disabled_row_still_registers doodad_then_house no_m2 no_import "/w"
           None None None tree_7 "7" "m2" empty_scene); by vm_compute.
Defined.

(** C8 at an input: [/a/x.obj] names the library [sub/x.mtl]. The texture
    of its material is looked for in [/a], not in [/a/sub], the directory
    of the library. *)
Lemma texture_is_not_beside_the_library :
  let m := returned (read_mtl library_below "/a" "sub/x.mtl" empty_scene) in
  (path_split "/a/x.obj").1 = "/a"
  ∧ mtlfile (doc_of ["mtllib sub/x.mtl"]) = "sub/x.mtl"
  ∧ dirname (path_join "/a" "sub/x.mtl") = "/a/sub"
  ∧ m ≫= (λ m, m !! "m") = Some "/a/t.png"
  ∧ m ≫= (λ m, m !! "m")
    ≠ Some (path_join (dirname (path_join "/a" "sub/x.mtl")) "t.png").
Proof. vm_compute. repeat split; discriminate. Qed.

Lemma mtl_last_map_Kd_wins_witness :
  (parse_mtl "/a" ["newmtl m"; "map_Kd a.png"; "newmtl n"; "map_Kd b.png";
                   "newmtl m"; "map_Kd t.png"]
   = Ret (mtl_of "/a" ["newmtl m"; "map_Kd a.png"; "newmtl n"; "map_Kd b.png";
                       "newmtl m"; "map_Kd t.png"])
   ∧ mtl_bindings "" ["newmtl m"; "map_Kd a.png"; "newmtl n"; "map_Kd b.png";
                      "newmtl m"; "map_Kd t.png"]
     = [("m", "a.png"); ("n", "b.png")] ++ ("m", "t.png") :: [])
  ∧ materials (mtl_of "/a" ["newmtl m"; "map_Kd a.png"; "newmtl n"; "map_Kd b.png";
                            "newmtl m"; "map_Kd t.png"]) !! "m"
    = Some (path_join "/a" "t.png").
Proof.
  split; [by vm_compute|].
  apply (mtl_last_map_Kd_wins_in_baseDir "/a"
           ["newmtl m"; "map_Kd a.png"; "newmtl n"; "map_Kd b.png";
            "newmtl m"; "map_Kd t.png"]
           (mtl_of "/a" ["newmtl m"; "map_Kd a.png"; "newmtl n"; "map_Kd b.png";
                         "newmtl m"; "map_Kd t.png"])
           [("m", "a.png"); ("n", "b.png")] [] "m" "t.png");
    [by vm_compute|by vm_compute|apply not_elem_of_nil].
Defined.

(** C9 at an input: a file whose first UV line is for the second channel
    does not parse. *)
Lemma second_channel_first_raises :
  raises (parse_obj ["vt2 0 0"]) = Some IndexError
  ∧ raises (parse_obj ["vt 0 0"; "vt3 1 1"]) = Some IndexError.
Proof. by vm_compute. Qed.

Lemma vt_line_channel_witness :
  (split "vt2 1 1" = ("vt" +:+ "2") :: ["1"; "1"]
   ∧ floats ["1"; "1"] = Ret [Lit "1"; Lit "1"]
   ∧ last_char "2" = Some "2" ∧ pyint "2" = Some 2 ∧ 0 ≤ 1)
  ∧ obj_line (doc_of ["vt 0 0"]) "vt2 1 1"
    = Ret (mkObjDoc "" [] [] [[[Lit "0"; Lit "0"]]; [[Lit "1"; Lit "1"]]] [] (-1)).
Proof.
  split; [by vm_compute|].
  apply (vt_line_channel_or_IndexError (doc_of ["vt 0 0"]) "vt2 1 1" "2" ["1"; "1"]
           [Lit "1"; Lit "1"] 1); [by vm_compute|by vm_compute| |by vm_compute].
  right. by exists "2", 2.
Defined.

Lemma face_line_witness :
  (obj_lines obj_init ["g grp"] = Ret (doc_of ["g grp"])
   ∧ meshes (doc_of ["g grp"]) = [] ++ [with_name "grp" new_OBJMesh]
   ∧ split "f 1/1 2/2 3/3 4/4" = "f" :: ["1/1"; "2/2"; "3/3"; "4/4"]
   ∧ mapM (λ v, pyint (before_slash v)) ["1/1"; "2/2"; "3/3"; "4/4"]
     = Some [1; 2; 3; 4])
  ∧ ∃ g', obj_line (doc_of ["g grp"]) "f 1/1 2/2 3/3 4/4"
          = Ret (mkObjDoc "" [] [] [] ([] ++ [g']) 0)
          ∧ m_faces g' = [(1, 2, 3)]
          ∧ 3 ∈ m_verts g'.
Proof.
  assert (Hpre : obj_lines obj_init ["g grp"] = Ret (doc_of ["g grp"])) by reflexivity.
  split; [split; [exact Hpre|by vm_compute]|].
  destruct (face_line_first_three_all_verts ["g grp"] (doc_of ["g grp"])
              "f 1/1 2/2 3/3 4/4" ["1/1"; "2/2"; "3/3"; "4/4"] 1 2 3 [4] []
              (with_name "grp" new_OBJMesh))
    as (g' & Hline & Hfaces & _ & Hmore & _);
    [exact Hpre|by vm_compute|by vm_compute|by vm_compute|].
  exists g'. split; [exact Hline|]. split; [exact Hfaces|].
  apply (Hmore 4). apply list_elem_of_here.
Defined.

End Evaluations.

(** * Further properties of the mesh file and the material library *)

Section LineFacts.
Context `{Host : HostNum}.

Lemma index_pos_empty (i : Z) : index_pos 0 i = None.
Proof.
  unfold index_pos. change (Z.of_nat 0) with 0. change (- 0) with 0.
  destruct (Z.leb_spec 0 i), (Z.ltb_spec i 0); cbn; done || lia.
Qed.

Lemma startswith_vt_not (tok kw : string) :
  startswith tok "vt" = true → kw ∈ ["mtllib"; "v"; "vn"; "f"; "g"; "usemtl"] →
  String.eqb tok kw = false.
Proof.
  intros Hs Hkw. destruct tok as [|a [|b r]]; [done| |].
  - cbn [startswith] in Hs. by rewrite andb_false_r in Hs.
  - cbn [startswith] in Hs. apply andb_prop in Hs as [Ha Hb].
    apply andb_prop in Hb as [Hb _].
    apply Ascii.eqb_eq in Ha as <-. apply Ascii.eqb_eq in Hb as <-.
    repeat (apply elem_of_cons in Hkw as [->|Hkw]; [done|]).
    by apply elem_of_nil in Hkw.
Qed.

Lemma fmap_name_alter (f : OBJMesh → OBJMesh) k (l : list OBJMesh) :
  (∀ m, m_name (f m) = m_name m) → m_name <$> alter f k l = m_name <$> l.
Proof.
  intros Hf. revert k. induction l as [|x l IH]; intros [|k]; cbn; try done.
  - by rewrite Hf.
  - by rewrite IH.
Qed.

Ltac unchanged args :=
  first [ done
        | exists []; by rewrite app_nil_r
        | by rewrite app_nil_r
        | destruct args; cbn; by rewrite ?app_nil_r ].

(** What one line that is read without error changes. *)
Lemma obj_line_Ret (st st' : ObjDoc) (line : string) :
  active_last st →
  obj_line st line = Ret st' →
  mtlfile st' = default (mtlfile st) (library_named line)
  ∧ (∃ vs, verts st' = verts st ++ vs
           ∧ Forall2 (λ args v, mapM pyfloat args = Some v)
                     (option_list (operands "v" line)) vs)
  ∧ (∃ vs, normals st' = normals st ++ vs
           ∧ Forall2 (λ args v, mapM pyfloat args = Some v)
                     (option_list (operands "vn" line)) vs)
  ∧ m_name <$> meshes st' = (m_name <$> meshes st) ++ option_list (group_named line).
Proof.
  intros Hact. unfold obj_line, library_named, operands, group_named.
  destruct (split line) as [|tok args].
  { intros [= <-]. cbn. repeat split; unchanged tt. }
  destruct (String.eqb_spec tok "mtllib") as [->|Hmtllib].
  { destruct args as [|f more]; cbn; [done|]. intros [= <-]. cbn.
    repeat split; unchanged tt. }
  destruct (String.eqb_spec tok "v") as [->|Hv].
  { unfold floats. destruct (mapM pyfloat args) as [v|] eqn:Hfl; cbn; [|done].
    intros [= <-]. cbn. split; [unchanged args|].
    split; [exists [v]; split; [done|by repeat constructor]|].
    split; unchanged args. }
  destruct (String.eqb_spec tok "vn") as [->|Hvn].
  { unfold floats. destruct (mapM pyfloat args) as [v|] eqn:Hfl; cbn; [|done].
    intros [= <-]. cbn. split; [unchanged args|].
    split; [unchanged args|].
    split; [exists [v]; split; [done|by repeat constructor]|].
    unchanged args. }
  destruct (startswith tok "vt") eqn:Hvt.
  { rewrite (startswith_vt_not tok "g" Hvt) by set_solver.
    destruct (vt_layer_index tok) as [layer_index|]; cbn; [|done].
    destruct (index_pos _ layer_index); [|done].
    destruct (floats args) as [uv|]; cbn; [|done].
    intros [= <-]. cbn. repeat split; unchanged args. }
  destruct (String.eqb_spec tok "f") as [->|Hf].
  { destruct (mapM _ args) as [fv|]; cbn; [|done].
    destruct (index_pos _ _) as [k|]; [|done].
    destruct fv as [|a [|b [|c more]]]; try done.
    intros [= <-]. cbn. rewrite fmap_name_alter by done.
    repeat split; unchanged args. }
  destruct (String.eqb_spec tok "g") as [->|Hg].
  { destruct args as [|n more]; cbn; [done|].
    unfold moditem. rewrite length_app. cbn [length].
    rewrite Hact.
    replace (Z.of_nat (length (meshes st)) - 1 + 1)
      with (Z.of_nat (S (length (meshes st))) - 1) by lia.
    replace (length (meshes st) + 1)%nat with (S (length (meshes st))) by lia.
    rewrite index_pos_last. cbn. intros [= <-]. cbn.
    rewrite alter_last, fmap_app. repeat split; unchanged tt. }
  destruct (String.eqb_spec tok "usemtl") as [->|Hu].
  { destruct args as [|n more]; cbn; [done|].
    unfold moditem. destruct (index_pos _ _) as [k|]; [|done].
    cbn. intros [= <-]. cbn. rewrite fmap_name_alter by done.
    repeat split; unchanged tt. }
  intros [= <-]. repeat split; unchanged args.
Qed.

Lemma obj_lines_Ret (lines : list string) : ∀ (st d : ObjDoc),
  active_last st →
  obj_lines st lines = Ret d →
  mtlfile d = default (mtlfile st) (last (omap library_named lines))
  ∧ (∃ vs, verts d = verts st ++ vs
           ∧ Forall2 (λ args v, mapM pyfloat args = Some v)
                     (omap (operands "v") lines) vs)
  ∧ (∃ vs, normals d = normals st ++ vs
           ∧ Forall2 (λ args v, mapM pyfloat args = Some v)
                     (omap (operands "vn") lines) vs)
  ∧ m_name <$> meshes d = (m_name <$> meshes st) ++ omap group_named lines
  ∧ active_last d.
Proof.
  induction lines as [|line rest IH]; intros st d Hact; cbn [obj_lines].
  - intros [= <-]. cbn. rewrite app_nil_r.
    repeat split; try done; exists []; by rewrite app_nil_r.
  - destruct (obj_line st line) as [st1|] eqn:E; cbn; [|done]. intros Hr.
    pose proof (obj_line_active_last _ _ _ Hact E) as Hact1.
    destruct (obj_line_Ret _ _ _ Hact E) as (Hm & (vs & Hv & Hvs) & (ns & Hn & Hns) & Hg).
    destruct (IH _ _ Hact1 Hr) as (Hm' & (vs' & Hv' & Hvs') & (ns' & Hn' & Hns') & Hg' & Hd).
    split; [|split; [|split; [|split; [|done]]]].
    + rewrite Hm', Hm. destruct (library_named line) as [f|]; cbn; [|done].
      by destruct (omap library_named rest) as [|x l] using rev_ind;
        [|rewrite app_comm_cons, !last_snoc].
    + exists (vs ++ vs'). rewrite Hv', Hv, <- app_assoc. split; [done|].
      destruct (operands "v" line); cbn in Hvs |- *.
      * inversion Hvs as [|? ? ? ? Hx Hnil]; subst. inversion Hnil; subst.
        by constructor.
      * by inversion Hvs; subst.
    + exists (ns ++ ns'). rewrite Hn', Hn, <- app_assoc. split; [done|].
      destruct (operands "vn" line); cbn in Hns |- *.
      * inversion Hns as [|? ? ? ? Hx Hnil]; subst. inversion Hnil; subst.
        by constructor.
      * by inversion Hns; subst.
    + rewrite Hg', Hg, <- app_assoc. by destruct (group_named line).
Qed.

(** X1. The groups of a file that parses are its [g] lines, one group for
    each, in the order of the file and under the name on the line: two
    lines with one name give two groups. When the reading ends, the group
    being filled is the last one. *)
Theorem groups_follow_the_g_lines (lines : list string) (d : ObjDoc) :
  parse_obj lines = Ret d →
  m_name <$> meshes d = omap group_named lines
  ∧ meshIndex d = Z.of_nat (length (omap group_named lines)) - 1.
Proof.
  intros Hp. destruct (obj_lines_Ret lines obj_init d) as (_ & _ & _ & Hg & Hact);
    [reflexivity|exact Hp|].
  change (m_name <$> meshes d = omap group_named lines) in Hg.
  split; [exact Hg|]. rewrite <- Hg, length_fmap. exact Hact.
Qed.

(** X2. The vertices of a file that parses are its [v] lines, and its normals
    its [vn] lines, in the order of the file: each with as many numbers as
    the line has operands, be they three or not, and whatever groups lie
    between them. *)
Theorem vertices_follow_the_v_lines (lines : list string) (d : ObjDoc) :
  parse_obj lines = Ret d →
  mapM (mapM pyfloat) (omap (operands "v") lines) = Some (verts d)
  ∧ mapM (mapM pyfloat) (omap (operands "vn") lines) = Some (normals d).
Proof.
  intros Hp.
  destruct (obj_lines_Ret lines obj_init d)
    as (_ & (vs & -> & Hvs) & (ns & -> & Hns) & _); [reflexivity|exact Hp|].
  split; by apply mapM_Some_2.
Qed.

(** X3. Of several [mtllib] lines the last one names the library the
    file is read with; with none, the name is empty. *)
Theorem last_mtllib_line_names_the_library (lines : list string) (d : ObjDoc) :
  parse_obj lines = Ret d →
  mtlfile d = default "" (last (omap library_named lines)).
Proof.
  intros Hp. by destruct (obj_lines_Ret lines obj_init d) as (Hm & _);
    [reflexivity|exact Hp|].
Qed.

Lemma no_group_yet (lines : list string) (d : ObjDoc) :
  parse_obj lines = Ret d → omap group_named lines = [] → meshes d = [].
Proof.
  intros Hp Hg.
  destruct (obj_lines_Ret lines obj_init d) as (_ & _ & _ & Hn & _);
    [reflexivity|exact Hp|].
  rewrite Hg in Hn. by apply fmap_nil_inv in Hn.
Qed.

(** X4. A face line raises when no [g] line came before it, or when it has
    fewer than three references: [IndexError] when its references read as
    integers, [ValueError] (raised first, by the conversion) when one of
    them does not. *)
Theorem face_line_without_group_or_third_reference_raises
    (lines : list string) (d : ObjDoc) (line : string) (args : list string) :
  parse_obj lines = Ret d →
  split line = "f" :: args →
  omap group_named lines = [] ∨ (length args < 3)%nat →
  obj_line d line
  = Raise (match mapM (λ v, pyint (before_slash v)) args with
           | Some _ => IndexError
           | None => ValueError
           end).
Proof.
  intros Hp Hsplit Hcase. unfold obj_line. rewrite Hsplit. cbn.
  destruct (mapM _ args) as [fv|] eqn:Hfv; cbn; [|done].
  destruct Hcase as [Hg|Hlen].
  - rewrite (no_group_yet _ _ Hp Hg). cbn [length]. by rewrite index_pos_empty.
  - apply length_mapM in Hfv. destruct (index_pos _ _); [|done].
    destruct fv as [|a [|b [|c more]]]; try done. cbn in Hfv. lia.
Qed.

(** X5. A [usemtl] line before the first [g] line raises [IndexError]: there
    is no group yet to take the material, and none is made for it. *)
Theorem usemtl_before_the_first_g_line_raises
    (lines : list string) (d : ObjDoc) (line : string) (args : list string) :
  parse_obj lines = Ret d →
  omap group_named lines = [] →
  split line = "usemtl" :: args →
  obj_line d line = Raise IndexError.
Proof.
  intros Hp Hg Hsplit. unfold obj_line. rewrite Hsplit. cbn.
  destruct args as [|n more]; cbn; [done|].
  unfold moditem. rewrite (no_group_yet _ _ Hp Hg). cbn [length].
  by rewrite index_pos_empty.
Qed.

Lemma obj_line_other (st : ObjDoc) (line : string) :
  is_statement line = false → obj_line st line = Ret st.
Proof.
  unfold is_statement, obj_line. destruct (split line) as [|tok args]; [done|].
  intros Hno. repeat (apply orb_false_elim in Hno as [Hno ?]).
  by repeat match goal with H : _ = false |- _ => rewrite H; clear H end.
Qed.

(** X6. The lines that open with none of the seven keywords (blank lines,
    comments, [s], [o] and the like) are passed over: the file reads, or
    raises, as it does without them. *)
Theorem other_lines_are_skipped (lines : list string) (st : ObjDoc) :
  obj_lines st (List.filter is_statement lines) = obj_lines st lines.
Proof.
  revert st. induction lines as [|line rest IH]; intros st; [done|].
  cbn [List.filter obj_lines]. destruct (is_statement line) eqn:Hs.
  - cbn [obj_lines]. destruct (obj_line st line); cbn; [apply IH|done].
  - rewrite (obj_line_other _ _ Hs). cbn. apply IH.
Qed.

End LineFacts.

Lemma bind_all_keys (baseDir : string) (bs : list (string * string)) :
  ∀ (m : gmap string string) (n : string),
    is_Some (bind_all baseDir m bs !! n) ↔ is_Some (m !! n) ∨ n ∈ bs.*1.
Proof.
  induction bs as [|[k f] bs IH]; intros m n.
  - cbn. rewrite elem_of_nil. tauto.
  - change (bind_all baseDir m ((k, f) :: bs))
      with (bind_all baseDir (<[k := path_join baseDir f]> m) bs).
    rewrite IH, fmap_cons, elem_of_cons. cbn. destruct (decide (n = k)) as [->|Hne].
    + rewrite lookup_insert_eq. split; [intros _; right; by left|intros _; left; eauto].
    + rewrite lookup_insert_ne by done. tauto.
Qed.

(** X7. The materials of a library that parses are the names under which a
    [map_Kd] line stands: a [newmtl] line without one gives no material,
    and a [map_Kd] line before the first [newmtl] gives one under the empty
    name. *)
Theorem materials_are_the_names_with_a_map_Kd_line
    (baseDir : string) (ls : list string) (st : MtlState) (n : string) :
  parse_mtl baseDir ls = Ret st →
  is_Some (materials st !! n) ↔ n ∈ (mtl_bindings "" ls).*1.
Proof.
  intros Hp. apply mtl_lines_bind_all in Hp. rewrite Hp, bind_all_keys. cbn.
  rewrite lookup_empty. split; [intros [[? ?]|?]; done|by right].
Qed.

(** * Further properties of the import *)

Section ImportFacts.
Context `{Host : HostNum}.
Variable fs : FileSystem.
Variable settings : Settings.

Lemma open_Some path f st : fs path = Some f → open fs path st = Done f st.
Proof. unfold open. by intros ->. Qed.

Lemma lift_Ret {A} (x : Exc A) a st : x = Ret a → lift x st = Done a st.
Proof. by intros ->. Qed.

Lemma lift_Raise {A} (x : Exc A) e st : x = Raise e → lift x st = Raised e st.
Proof. by intros ->. Qed.

Lemma read_files_Ret path doc m :
  read_files fs path = Ret (doc, m) →
  ∃ f, fs path = Some f
       ∧ parse_obj (lines f) = Ret doc
       ∧ ∀ st, read_mtl fs (path_split path).1 (mtlfile doc) st = Done m st.
Proof.
  unfold read_files, read_mtl, open.
  destruct (fs path) as [f|] eqn:Hf; cbn; [|done].
  destruct (parse_obj (lines f)) as [doc'|] eqn:Hd; cbn; [|done].
  destruct (String.eqb (mtlfile doc') "") eqn:Hm.
  - intros [= <- <-]. exists f. rewrite Hm. done.
  - destruct (fs (path_join _ (mtlfile doc'))) as [lib|] eqn:Hlib; cbn; [|done].
    destruct (parse_mtl _ (lines lib)) as [ms|] eqn:Hp; cbn; [|done].
    intros [= <- <-]. exists f. rewrite Hm, Hlib. cbn. split; [done|].
    split; [done|]. intros st. unfold bind. cbn. by rewrite Hp.
Qed.

Lemma import_unreadable
    (fuel : nat) (path : string) (gp : option nat) (st : Blender) (e : PyExn) :
  read_files fs path = Raise e →
  importWoWOBJ fs settings (S fuel) path gp st = Raised e (parsing path st).
Proof.
  intros Hr. cbn [importWoWOBJ].
  rewrite (bind_step _ _ _ _ _ (print_printed _ _)). fold (parsing path st).
  unfold read_files in Hr.
  destruct (fs path) as [f|] eqn:Hf.
  2: { injection Hr as <-. apply bind_raised. unfold open. by rewrite Hf. }
  rewrite (bind_step _ _ _ _ _ (open_Some _ _ _ Hf)).
  change (orraise FileNotFoundError (Some f) ≫= ?k) with (k f) in Hr. cbv beta in Hr.
  destruct (parse_obj (lines f)) as [doc|e'] eqn:Hd.
  2: { injection Hr as <-. by apply bind_raised. }
  rewrite (bind_step _ _ _ _ _ (lift_Ret _ _ _ eq_refl)).
  change (Ret doc ≫= ?k) with (k doc) in Hr. cbv beta in Hr.
  apply bind_raised. unfold read_mtl.
  destruct (String.eqb (mtlfile doc) ""); [done|].
  destruct (fs (path_join _ (mtlfile doc))) as [lib|] eqn:Hlib.
  2: { injection Hr as <-. apply bind_raised. unfold open. by rewrite Hlib. }
  rewrite (bind_step _ _ _ _ _ (open_Some _ _ _ Hlib)).
  change (orraise FileNotFoundError (Some lib) ≫= ?k) with (k lib) in Hr.
  cbv beta in Hr.
  destruct (parse_mtl _ (lines lib)) as [ms|e'] eqn:Hp; [done|].
  injection Hr as <-. by apply bind_raised.
Qed.

(** The import of a file that reads, up to the making of its object. *)
Lemma import_made (fuel : nat) (path : string) (gp : option nat) (st : Blender)
    (doc : ObjDoc) (m : gmap string string) :
  read_files fs path = Ret (doc, m) →
  importWoWOBJ fs settings (S fuel) path gp st
  = match build_mesh doc with
    | Raise e => Raised e (with_unlinked doc path st)
    | Ret _ =>
        ((if use_csv settings then
            match fs (replace ".obj" csv_suffix path) with
            | Some csvFile =>
                import_csv fs settings (importWoWOBJ fs settings fuel)
                           (path_split path).1 (table csvFile)
                           (length (objects st)) gp
            | None => ret ()
            end
          else ret ()) ;;
         ret (length (objects st))) (with_root doc path st)
    end.
Proof.
  intros Hr. destruct (read_files_Ret _ _ _ Hr) as (f & Hf & Hdoc & Hmtl).
  cbn [importWoWOBJ].
  rewrite (bind_step _ _ _ _ _ (print_printed _ _)).
  rewrite (bind_step _ _ _ _ _ (open_Some _ _ _ Hf)).
  rewrite (bind_step _ _ _ _ _ (lift_Ret _ _ _ Hdoc)).
  rewrite (bind_step _ _ _ _ _ (Hmtl _)).
  unfold bind at 1. cbn [meshes_new].
  unfold bind at 1. cbn [objects_new add_object].
  destruct (build_mesh doc) as [[]|e].
  - unfold bind at 1. cbn [lift ret].
    unfold bind at 1. cbn [map_rotation update modify].
    unfold bind at 1. cbn [map_rotation update modify].
    unfold bind at 1. cbn [link modify].
    unfold with_root, root_object, parsing, printed, use_csv, with_objects.
    cbn [objects mesh_data collection importedModelIDs stdout names].
    rewrite !alter_last. reflexivity.
  - unfold bind at 1. cbn [lift raise]. done.
Qed.

(** X8. A file that is not there, does not parse, or names a library that is
    not there or does not parse, ends the import with that exception before
    anything is made: the scene has one more line printed, and is otherwise
    as it was. *)
Theorem unreadable_file_leaves_the_scene_untouched
    (fuel : nat) (path : string) (gp : option nat) (st : Blender) (e : PyExn) :
  read_files fs path = Raise e →
  importWoWOBJ fs settings (S fuel) path gp st = Raised e (parsing path st).
Proof. apply import_unreadable. Qed.

Lemma face_verts_cases (nverts : nat) (face : Z * Z * Z) :
  (face_ok nverts face = true ∧ ∃ f, face_verts nverts face = Ret f)
  ∨ (face_ok nverts face = false ∧ face_verts nverts face = Raise IndexError).
Proof.
  unfold face_ok, face_verts.
  destruct (index_pos nverts (face.1.1 - 1)) as [a|]; [|by right].
  destruct (index_pos nverts (face.1.2 - 1)) as [b|]; [|by right].
  destruct (index_pos nverts (face.2 - 1)) as [c|]; [|by right].
  left. split; [|by eexists].
  rewrite !bool_decide_eq_true_2; eauto.
Qed.

Lemma make_faces_raises (nverts : nat) (faces : list (Z * Z * Z)) (face : Z * Z * Z) :
  face ∈ faces → face_ok nverts face = false →
  ∀ bm_faces, make_faces nverts faces bm_faces = Raise IndexError.
Proof.
  intros Hin Hbad. induction faces as [|face0 rest IH]; intros bm_faces.
  - by apply elem_of_nil in Hin.
  - cbn [make_faces].
    destruct (face_verts_cases nverts face0) as [[Hok [f ->]]|[_ ->]]; [|done].
    apply elem_of_cons in Hin as [->|Hin]; [congruence|]. by apply IH.
Qed.

Lemma in_the_faces (doc : ObjDoc) (g : OBJMesh) (face : Z * Z * Z) :
  g ∈ meshes doc → face ∈ m_faces g → face ∈ concat (m_faces <$> meshes doc).
Proof.
  intros Hg Hface. apply list_elem_of_In, in_concat. exists (m_faces g).
  split; apply list_elem_of_In; [|done]. by apply list_elem_of_fmap_2.
Qed.

Lemma build_mesh_raises (doc : ObjDoc) :
  (length (normals doc) < length (verts doc))%nat
  ∨ (∃ g face, g ∈ meshes doc ∧ face ∈ m_faces g
               ∧ face_ok (length (verts doc)) face = false) →
  build_mesh doc = Raise IndexError.
Proof.
  unfold build_mesh. intros [Hlt|(g & face & Hg & Hface & Hbad)].
  - apply Nat.ltb_lt in Hlt. by rewrite Hlt.
  - destruct (_ <? _)%nat; [done|].
    by rewrite (make_faces_raises _ _ _ (in_the_faces _ _ _ Hg Hface) Hbad).
Qed.

(** X9. The object and its mesh are made before the mesh is filled (lines
    284-285, then 316-349). A file with fewer normals than vertices, or with
    a face that refers to a vertex the file does not have, raises
    [IndexError] there: the object stays in the data, named and with its
    mesh, but linked to no collection. *)
Theorem failed_mesh_leaves_an_unlinked_object
    (fuel : nat) (path : string) (gp : option nat) (st : Blender)
    (doc : ObjDoc) (m : gmap string string) :
  read_files fs path = Ret (doc, m) →
  (length (normals doc) < length (verts doc))%nat
  ∨ (∃ g face, g ∈ meshes doc ∧ face ∈ m_faces g
               ∧ face_ok (length (verts doc)) face = false) →
  importWoWOBJ fs settings (S fuel) path gp st
  = Raised IndexError (with_unlinked doc path st).
Proof.
  intros Hr Hbad. rewrite (import_made _ _ _ _ _ _ Hr).
  by rewrite (build_mesh_raises _ Hbad).
Qed.

Lemma make_faces_IndexError (nverts : nat) (faces : list (Z * Z * Z)) (e : PyExn) :
  ∀ bm_faces, make_faces nverts faces bm_faces = Raise e → e = IndexError.
Proof.
  induction faces as [|face rest IH]; intros bm_faces; [done|]. cbn [make_faces].
  destruct (face_verts_cases nverts face) as [[_ [f ->]]|[_ ->]].
  - apply IH.
  - by intros [= <-].
Qed.

Lemma faces_new_keeps (bm_faces : list (nat * nat * nat)) (f g : nat * nat * nat) :
  g ∈ bm_faces → g ∈ faces_new bm_faces f.
Proof.
  intros Hg. unfold faces_new. destruct (_ && _); [|done].
  apply elem_of_app. by left.
Qed.

Lemma faces_new_covers (bm_faces : list (nat * nat * nat)) (f : nat * nat * nat) :
  NoDup (corners f) →
  ∃ g, g ∈ faces_new bm_faces f ∧ ∀ v, v ∈ corners f → v ∈ corners g.
Proof.
  intros Hnd. unfold faces_new. rewrite bool_decide_eq_true_2 by done.
  destruct (existsb _ bm_faces) eqn:Hex; cbn [andb negb].
  - apply existsb_exists in Hex as (g & Hg & Hall). exists g.
    split; [by apply list_elem_of_In|].
    intros v Hv. rewrite forallb_forall in Hall.
    apply list_elem_of_In in Hv. by apply Hall, bool_decide_eq_true in Hv.
  - exists f. split; [|done]. apply elem_of_app. right. apply list_elem_of_here.
Qed.

(** Every face with three vertices is in [bm] when the loop ends, itself or
    as the face made before it on the same vertices. *)
Lemma make_faces_covers (nverts : nat) (faces : list (Z * Z * Z)) :
  ∀ bm_faces made, make_faces nverts faces bm_faces = Ret made →
    (∀ g, g ∈ bm_faces → g ∈ made)
    ∧ (∀ face f, face ∈ faces → face_verts nverts face = Ret f →
                 NoDup (corners f) →
                 ∃ g, g ∈ made ∧ ∀ v, v ∈ corners f → v ∈ corners g).
Proof.
  induction faces as [|face0 rest IH]; intros bm_faces made.
  - intros [= <-]. split; [done|]. intros face f Hin. by apply elem_of_nil in Hin.
  - cbn [make_faces].
    destruct (face_verts nverts face0) as [f0|e] eqn:Hf0; [|done].
    intros Hmade. destruct (IH _ _ Hmade) as [Hkeep Hrest]. split.
    + intros g Hg. by apply Hkeep, faces_new_keeps.
    + intros face f Hin Hf Hnd. apply elem_of_cons in Hin as [->|Hin].
      * rewrite Hf0 in Hf. injection Hf as ->.
        destruct (faces_new_covers bm_faces f Hnd) as (g & Hg & Hcov).
        exists g. split; [by apply Hkeep|done].
      * by apply (Hrest face).
Qed.

Lemma build_mesh_short_channel (doc : ObjDoc) (layer : list (list float))
    (g : OBJMesh) (face : Z * Z * Z) (f : nat * nat * nat) (v : nat) :
  layer ∈ uvs doc → g ∈ meshes doc → face ∈ m_faces g →
  face_verts (length (verts doc)) face = Ret f →
  NoDup (corners f) → v ∈ corners f → (length layer ≤ v)%nat →
  build_mesh doc = Raise IndexError.
Proof.
  intros Hlayer Hg Hface Hf Hnd Hv Hshort. unfold build_mesh.
  destruct (_ <? _)%nat; [done|].
  destruct (make_faces _ _ []) as [made|e] eqn:Hmade.
  - destruct (make_faces_covers _ _ _ _ Hmade) as [_ Hcov].
    destruct (Hcov face f (in_the_faces _ _ _ Hg Hface) Hf Hnd) as (g' & Hg' & Hsub).
    cbn. destruct (forallb _ (uvs doc)) eqn:Hall; [|done]. exfalso.
    rewrite forallb_forall in Hall. apply list_elem_of_In in Hlayer.
    specialize (Hall layer Hlayer). rewrite forallb_forall in Hall.
    apply list_elem_of_In in Hg'. specialize (Hall g' Hg').
    unfold uv_ok in Hall. rewrite forallb_forall in Hall.
    specialize (Hall v (proj1 (list_elem_of_In _ _) (Hsub v Hv))).
    apply Nat.ltb_lt in Hall. lia.
  - cbn. by rewrite (make_faces_IndexError _ _ _ _ Hmade).
Qed.

(** X28. A UV channel is read at the index of every corner of every face
    that is made (line 360). A channel with no entry at a vertex that a
    face with three vertices of its own uses raises [IndexError] while the
    mesh is built, if nothing has raised it before: as for the other two
    subscripts, the object stays in the data, named and with its mesh, but
    linked to no collection. *)
Theorem face_corner_without_uv_entry_raises
    (fuel : nat) (path : string) (gp : option nat) (st : Blender)
    (doc : ObjDoc) (m : gmap string string) (layer : list (list float))
    (g : OBJMesh) (face : Z * Z * Z) (f : nat * nat * nat) (v : nat) :
  read_files fs path = Ret (doc, m) →
  layer ∈ uvs doc →
  g ∈ meshes doc →
  face ∈ m_faces g →
  face_verts (length (verts doc)) face = Ret f →
  NoDup (corners f) →
  v ∈ corners f →
  (length layer ≤ v)%nat →
  importWoWOBJ fs settings (S fuel) path gp st
  = Raised IndexError (with_unlinked doc path st).
Proof.
  intros Hr Hlayer Hg Hface Hf Hnd Hv Hshort. rewrite (import_made _ _ _ _ _ _ Hr).
  by rewrite (build_mesh_short_channel _ _ _ _ _ _ Hlayer Hg Hface Hf Hnd Hv Hshort).
Qed.

(** X10. Without a placement table to read (the four switches are off, or no
    table lies beside the file), the import of a file that reads and whose
    mesh builds makes one object, whatever [givenParent] is: the root, named
    after the file, turned by 90 degrees about x, linked, with the parsed
    document as its mesh. *)
Theorem import_without_table_makes_the_root_only
    (fuel : nat) (path : string) (gp : option nat) (st : Blender)
    (doc : ObjDoc) (m : gmap string string) :
  read_files fs path = Ret (doc, m) →
  build_mesh doc = Ret () →
  use_csv settings = false ∨ fs (replace ".obj" csv_suffix path) = None →
  importWoWOBJ fs settings (S fuel) path gp st
  = Done (length (objects st)) (with_root doc path st).
Proof.
  intros Hr Hb Hno. rewrite (import_made _ _ _ _ _ _ Hr), Hb.
  destruct Hno as [->| ->]; [done|]. by destruct (use_csv settings).
Qed.

Lemma for_rows_nothing (rs : list (gmap string string)) (st : Blender) :
  for_rows (λ _, ret ()) rs st = Done () st.
Proof. induction rs as [|r rs IH]; [done|]. cbn [for_rows]. by unfold bind at 1. Qed.

(** X11. The rows of a table without a [Type] column are read only when
    [importWMOSets] is on. When it is off, the table adds nothing, whatever
    its rows are and whatever the other switches are: the import of a file
    that reads and whose mesh builds makes the root, and says so when it was
    given no parent. *)
Theorem doodad_sets_are_skipped_when_switched_off
    (fuel : nat) (path : string) (gp : option nat) (st : Blender)
    (doc : ObjDoc) (m : gmap string string) (csvFile : FileContent) :
  read_files fs path = Ret (doc, m) →
  build_mesh doc = Ret () →
  use_csv settings = true →
  fs (replace ".obj" csv_suffix path) = Some csvFile →
  "Type" ∉ fieldnames (table csvFile) →
  importWMOSets settings = false →
  importWoWOBJ fs settings (S fuel) path gp st
  = Done (length (objects st))
         (match gp with
          | Some _ => with_root doc path st
          | None => printed "WMO import without given parent, creating.."
                            (with_root doc path st)
          end).
Proof.
  intros Hr Hb Hcsv Hfile Hty Hsets.
  rewrite (import_made _ _ _ _ _ _ Hr), Hb, Hcsv, Hfile.
  unfold import_csv. rewrite bool_decide_eq_false_2 by done. rewrite Hsets.
  destruct gp as [p|]; unfold bind; cbn [ret print modify];
    by rewrite for_rows_nothing.
Qed.

(** The import of a file that returns has read it, and has made its root. *)
Lemma import_Done_inv (fuel : nat) (path : string) (gp : option nat)
    (st st' : Blender) (obj : nat) :
  importWoWOBJ fs settings fuel path gp st = Done obj st' →
  ∃ doc m,
    read_files fs path = Ret (doc, m)
    ∧ build_mesh doc = Ret ()
    ∧ obj = length (objects st)
    ∧ keeps (S (length (objects st))) (with_root doc path st) st'.
Proof.
  destruct fuel as [|fuel]; [done|].
  destruct (read_files fs path) as [[doc m]|e] eqn:Hr.
  2: { by rewrite (import_unreadable _ _ _ _ _ Hr). }
  rewrite (import_made _ _ _ _ _ _ Hr).
  destruct (build_mesh doc) as [[]|e] eqn:Hb; [|done].
  intros Hd. apply bind_Done in Hd as ([] & s1 & H1 & Hd). injection Hd as <- <-.
  exists doc, m. split; [done|]. split; [done|]. split; [done|].
  match type of H1 with
  | ?t ?sB = _ =>
      assert (Hs : spec (S (length (objects st))) (λ _ : (), True) t);
      [ apply spec_if; [|by apply spec_ret];
        destruct (fs _); [|by apply spec_ret];
        apply spec_import_csv; apply spec_import
      | specialize (Hs sB) ]
  end.
  rewrite H1 in Hs. apply Hs. cbn [objects with_root].
  rewrite length_app. cbn. lia.
Qed.

(** X12. When an import returns, it returns the object it made for the file,
    as it made it: the rows of the table have not moved it, and the import
    itself sets no parent on it, whatever [givenParent] is. Its mesh holds
    the parsed document. *)
Theorem import_returns_the_root_it_made
    (fuel : nat) (path : string) (gp : option nat) (st st' : Blender) (obj : nat) :
  importWoWOBJ fs settings fuel path gp st = Done obj st' →
  obj = length (objects st)
  ∧ objects st' !! obj = Some (root_object st path)
  ∧ ∃ doc m, read_files fs path = Ret (doc, m)
             ∧ mesh_data st' !! length (mesh_data st) = Some doc.
Proof.
  intros Hd. apply import_Done_inv in Hd
    as (doc & m & Hr & _ & -> & Hobj & _ & [ms Hms] & _).
  split; [done|]. split.
  - rewrite Hobj by lia. cbn [objects with_root]. by apply list_lookup_middle.
  - exists doc, m. split; [done|]. rewrite Hms. cbn [mesh_data with_root].
    rewrite <- app_assoc. by apply list_lookup_middle.
Qed.

(** X13. When an import returns, the objects the scene had are as they were,
    at their positions; no mesh is gone or changed, and what was printed is
    still there, in front. *)
Theorem import_leaves_what_the_scene_had
    (fuel : nat) (path : string) (gp : option nat) (st st' : Blender) (obj : nat) :
  importWoWOBJ fs settings fuel path gp st = Done obj st' →
  (∀ i b, objects st !! i = Some b → objects st' !! i = Some b)
  ∧ (∀ i doc, mesh_data st !! i = Some doc → mesh_data st' !! i = Some doc)
  ∧ ∃ out, stdout st' = stdout st ++ out.
Proof.
  intros Hd.
  pose proof (spec_import fs settings fuel path gp (length (objects st)) st (le_n _))
    as Hs.
  rewrite Hd in Hs. destruct Hs as [(Hobj & _ & [ms Hms] & Hout) _].
  split; [|split; [|done]].
  - intros i b Hi. rewrite Hobj; [done|]. eauto using lookup_lt_Some.
  - intros i doc Hi. rewrite Hms. by apply lookup_app_l_Some.
Qed.

End ImportFacts.

(** * Further properties of the rows *)

Section PlacementFacts.
Context `{Host : HostNum}.
Variable fs : FileSystem.
Variable settings : Settings.

Lemma row_get_Done row key v st st' :
  row_get row key st = Done v st' → st' = st ∧ row !! key = Some v.
Proof.
  unfold row_get. destruct (row !! key) as [s|]; cbn; [|done]. by intros [= <- <-].
Qed.

Lemma row_float_Done row key v st st' :
  row_float row key st = Done v st' → st' = st ∧ cell row key = Some v.
Proof.
  unfold row_float, cell. intros Hr.
  apply bind_Done in Hr as (s & s1 & H1 & Hr).
  apply row_get_Done in H1 as [-> ->]. cbn.
  destruct (pyfloat s) as [f|]; cbn in Hr |- *; [|done]. by injection Hr as <- <-.
Qed.

Lemma update_Done o f u st st' :
  update o f st = Done u st' → st' = with_objects (alter f o) st.
Proof. by intros [= <-]. Qed.

Lemma apply_scale_Done row o u st st' :
  apply_scale row o st = Done u st' →
  ∃ sf, row !! "ScaleFactor" = Some sf
        ∧ ((sf = "" ∧ st' = st)
           ∨ (sf ≠ "" ∧ ∃ f, pyfloat sf = Some f
                             ∧ st' = with_objects
                                 (alter (λ b, mkBObject (o_name b) (o_data b) (o_parent b)
                                                (o_location b) (o_rotation_euler b)
                                                (f, f, f)) o) st)).
Proof.
  unfold apply_scale. intros Hr.
  apply bind_Done in Hr as (sf & s1 & H1 & Hr).
  apply row_get_Done in H1 as [-> Hsf]. exists sf. split; [done|].
  destruct (String.eqb_spec sf "") as [->|Hne].
  - left. by injection Hr as <-.
  - right. split; [done|].
    apply bind_Done in Hr as (f & s1 & H1 & Hr).
    apply row_float_Done in H1 as [-> Hc]. unfold cell in Hc. rewrite Hsf in Hc.
    cbn in Hc. exists f. split; [done|]. by injection Hr as <-.
Qed.

(** The copy of lines 482-486 and 502-506: the original, under a name of its
    own, turned to 90 degrees about x; parent, place and scale are those of
    the original. *)
Lemma copy_turned_made name st o st' :
  copy_turned name st = Done o st' →
  ∃ i orig,
    objects_find name st = Some (i, orig)
    ∧ o = length (objects st)
    ∧ objects st'
      = objects st ++ [mkBObject (unique_name (names st) (o_name orig)) (o_data orig)
                                 (o_parent orig) (o_location orig)
                                 (radians (of_int 90), of_int 0, of_int 0)
                                 (o_scale orig)]
    ∧ mesh_data st' = mesh_data st.
Proof.
  unfold copy_turned. intros Hr.
  apply bind_Done in Hr as (orig & s1 & H1 & Hr).
  unfold objects_getitem in H1.
  destruct (objects_find name st) as [[i orig']|] eqn:Hfind; [|done].
  injection H1 as <- <-.
  apply bind_Done in Hr as (o' & s2 & H2 & Hr).
  unfold object_copy, add_object in H2. injection H2 as <- <-.
  apply bind_Done in Hr as ([] & s3 & H3 & Hr). apply update_Done in H3 as ->.
  apply bind_Done in Hr as ([] & s4 & H4 & Hr). apply update_Done in H4 as ->.
  apply bind_Done in Hr as ([] & s5 & H5 & Hr).
  unfold link, modify in H5. injection H5 as <-.
  injection Hr as <- <-.
  exists i, orig'. split; [done|]. split; [done|].
  cbn [objects with_objects mesh_data]. rewrite !alter_last. done.
Qed.

(** A row of type [gobj], inverted. *)
Ltac pop H Hs :=
  let a := fresh "a" in let s := fresh "s" in
  apply bind_Done in H as (a & s & Hs & H).

Ltac pop_float H Hc :=
  let Hs := fresh "Hs" in
  pop H Hs; apply row_float_Done in Hs as [-> Hc].

Ltac pop_update H :=
  let Hs := fresh "Hs" in
  pop H Hs; apply update_Done in Hs as ->.

(** X14. A [gobj] row that returns leaves its object under [gobjparent], at
    (PositionY, -PositionX, PositionZ), turned as the quaternion
    (RotationX, RotationY, -RotationZ, RotationW) says, whether the object
    was imported or copied. *)
Theorem gobj_row_placement
    (rec : string → option nat → M nat) (baseDir : string)
    (gobjparent : option nat) (row : gmap string string)
    (st st' : Blender) (o : nat) (b : BObject) :
  adt_gobj rec baseDir gobjparent row st = Done o st' →
  objects st' !! o = Some b →
  ∃ px py pz qx qy qz qw,
    cell row "PositionX" = Some px ∧ cell row "PositionY" = Some py
    ∧ cell row "PositionZ" = Some pz
    ∧ cell row "RotationX" = Some qx ∧ cell row "RotationY" = Some qy
    ∧ cell row "RotationZ" = Some qz ∧ cell row "RotationW" = Some qw
    ∧ o_parent b = gobjparent
    ∧ o_location b = (py, fneg px, pz)
    ∧ o_rotation_euler b = to_euler (qx, qy, fneg qz, qw).
Proof.
  unfold adt_gobj. intros Hr Hb.
  pop Hr H1. apply row_get_Done in H1 as [-> Hmf].
  pop Hr H1. injection H1 as <- <-.
  pop Hr Hacq.
  unfold set_parent, map_location, map_rotation in Hr.
  pop_update Hr.
  pop_float Hr Hpy. pop_float Hr Hpx. pop_float Hr Hpz.
  pop_update Hr.
  pop_float Hr Hqx. pop_float Hr Hqy. pop_float Hr Hqz. pop_float Hr Hqw.
  pop_update Hr.
  pop Hr Hsc. injection Hr as <- <-.
  match goal with
  | _ : cell row "PositionX" = Some ?px, _ : cell row "PositionY" = Some ?py,
    _ : cell row "PositionZ" = Some ?pz, _ : cell row "RotationX" = Some ?qx,
    _ : cell row "RotationY" = Some ?qy, _ : cell row "RotationZ" = Some ?qz,
    _ : cell row "RotationW" = Some ?qw |- _ => exists px, py, pz, qx, qy, qz, qw
  end.
  do 7 (split; [done|]).
  apply apply_scale_Done in Hsc as (sf & Hsf & [[-> ->]|(Hne & f & Hf & ->)]);
    cbn [objects with_objects] in Hb; rewrite !list_lookup_alter_eq in Hb;
    match type of Hb with context [objects ?s !! ?i] =>
      destruct (objects s !! i) as [b0|]; cbn in Hb; [|done] end;
    by injection Hb as <-.
Qed.

(** X15. A row of a table without a [Type] column that returns leaves its
    object at (PositionX, PositionY, PositionZ) as written, turned as the
    quaternion (RotationW, RotationX, RotationY, RotationZ) says and then by
    90 degrees more about x, under [givenParent], or under the object of the
    file when there is none. *)
Theorem doodad_set_row_placement
    (rec : string → option nat → M nat) (baseDir : string)
    (givenParent : option nat) (obj : nat) (row : gmap string string)
    (st st' : Blender) (o : nat) (b : BObject) :
  wmo_row rec baseDir givenParent obj row st = Done o st' →
  objects st' !! o = Some b →
  ∃ px py pz qw qx qy qz,
    cell row "PositionX" = Some px ∧ cell row "PositionY" = Some py
    ∧ cell row "PositionZ" = Some pz
    ∧ cell row "RotationW" = Some qw ∧ cell row "RotationX" = Some qx
    ∧ cell row "RotationY" = Some qy ∧ cell row "RotationZ" = Some qz
    ∧ o_parent b = Some (default obj givenParent)
    ∧ o_location b = (px, py, pz)
    ∧ o_rotation_euler b
      = (fadd (to_euler (qw, qx, qy, qz)).1.1 (radians (of_int 90)),
         (to_euler (qw, qx, qy, qz)).1.2,
         (to_euler (qw, qx, qy, qz)).2).
Proof.
  unfold wmo_row. intros Hr Hb.
  pop Hr H1. apply row_get_Done in H1 as [-> Hmf].
  pop Hr H1. injection H1 as <- <-.
  pop Hr H1. injection H1 as <- <-.
  pop Hr Hacq.
  unfold set_parent, map_location, map_rotation in Hr.
  pop_float Hr Hpx. pop_float Hr Hpy. pop_float Hr Hpz.
  pop_update Hr. pop_update Hr.
  pop_float Hr Hqw. pop_float Hr Hqx. pop_float Hr Hqy. pop_float Hr Hqz.
  pop_update Hr. pop_update Hr.
  pop Hr Hsc. injection Hr as <- <-.
  match goal with
  | _ : cell row "PositionX" = Some ?px, _ : cell row "PositionY" = Some ?py,
    _ : cell row "PositionZ" = Some ?pz, _ : cell row "RotationX" = Some ?qx,
    _ : cell row "RotationY" = Some ?qy, _ : cell row "RotationZ" = Some ?qz,
    _ : cell row "RotationW" = Some ?qw |- _ => exists px, py, pz, qw, qx, qy, qz
  end.
  do 7 (split; [done|]).
  apply apply_scale_Done in Hsc as (sf & Hsf & [[-> ->]|(Hne & f & Hf & ->)]);
    cbn [objects with_objects] in Hb; rewrite !list_lookup_alter_eq in Hb;
    match type of Hb with context [objects ?s !! ?i] =>
      destruct (objects s !! i) as [b0|]; cbn in Hb; [|done] end;
    by injection Hb as <-.
Qed.

(** What an m2 or gobj row starts from: an object, imported or copied, that
    stands at the end of the scene, turned to 90 degrees about x. *)
Lemma acquired (fuel : nat) (path name : string) (present : bool)
    (st st' : Blender) (o : nat) :
  (if negb present then importWoWOBJ fs settings fuel path None
   else copy_turned name) st = Done o st' →
  o = length (objects st)
  ∧ ∃ b0, objects st' !! o = Some b0
          ∧ o_rotation_euler b0 = (radians (of_int 90), of_int 0, of_int 0).
Proof.
  destruct present; cbn [negb]; intros Hr.
  - apply copy_turned_made in Hr as (i & orig & _ & -> & Hobjs & _).
    split; [done|]. eexists. rewrite Hobjs. split; [by apply list_lookup_middle|done].
  - apply import_Done_inv in Hr as (doc & m & _ & _ & -> & Hobj & _).
    split; [done|]. exists (root_object st path). split; [|done].
    rewrite Hobj by lia. cbn [objects with_root]. by apply list_lookup_middle.
Qed.

(** X16. An m2 row that returns leaves its object, imported or copied, under
    [doodadparent], at (max_size - PositionX, -(max_size - PositionZ),
    PositionY), turned by (90 + RotationZ, RotationX, 90 + RotationY)
    degrees, with the scale factor on every axis when the row has one. *)
Theorem m2_row_placement
    (fuel : nat) (baseDir : string) (doodadparent : option nat)
    (row : gmap string string) (st st' : Blender) (o : nat) :
  adt_m2 (importWoWOBJ fs settings fuel) baseDir doodadparent row st = Done o st' →
  ∃ b px py pz rx ry rz,
    objects st' !! o = Some b
    ∧ cell row "PositionX" = Some px ∧ cell row "PositionY" = Some py
    ∧ cell row "PositionZ" = Some pz
    ∧ cell row "RotationX" = Some rx ∧ cell row "RotationY" = Some ry
    ∧ cell row "RotationZ" = Some rz
    ∧ o_parent b = doodadparent
    ∧ o_location b
      = (fsub max_size px, fmul (fsub max_size pz) (of_int (-1)), py)
    ∧ o_rotation_euler b
      = (fadd (radians (of_int 90)) (radians rz),
         fadd (of_int 0) (radians rx),
         radians (fadd (of_int 90) ry))
    ∧ (∀ sf, row !! "ScaleFactor" = Some sf → sf ≠ "" →
             ∃ f, pyfloat sf = Some f ∧ o_scale b = (f, f, f)).
Proof.
  unfold adt_m2. intros Hr.
  pop Hr H1. apply row_get_Done in H1 as [-> Hmf].
  pop Hr H1. injection H1 as <- <-.
  pop Hr H1. injection H1 as <- <-.
  pop Hr Hacq. apply acquired in Hacq as (-> & b0 & Hb0 & Hrot).
  destruct b0 as [n0 d0 p0 l0 r0 sc0]. cbn [o_rotation_euler] in Hrot. subst r0.
  unfold set_parent, map_location, map_rotation in Hr.
  pop_update Hr.
  pop_float Hr Hpx. pop_update Hr.
  pop_float Hr Hpz. pop_update Hr.
  pop_float Hr Hpy. pop_update Hr.
  pop_float Hr Hrz. pop_update Hr.
  pop_float Hr Hrx. pop_update Hr.
  pop_float Hr Hry. pop_update Hr.
  pop Hr Hsc. injection Hr as <- <-.
  match goal with
  | _ : cell row "PositionX" = Some ?px, _ : cell row "PositionY" = Some ?py,
    _ : cell row "PositionZ" = Some ?pz, _ : cell row "RotationX" = Some ?rx,
    _ : cell row "RotationY" = Some ?ry, _ : cell row "RotationZ" = Some ?rz
    |- _ =>
      apply apply_scale_Done in Hsc as (sf & Hsf & [[-> ->]|(Hne & f & Hf & ->)]);
      eexists _, px, py, pz, rx, ry, rz
  end.
  all: cbn [objects with_objects printed]; rewrite !list_lookup_alter_eq.
  all: cbn [objects printed] in Hb0; rewrite Hb0.
  all: cbv [fmap option_fmap option_map o_name o_data o_parent o_location
            o_rotation_euler o_scale set_x set_y set_z fst snd].
  all: split; [reflexivity|]; do 6 (split; [done|]).
  all: split; [done|]; split; [done|]; split; [done|].
  all: intros sf' Hsf' Hne'; rewrite Hsf in Hsf'; injection Hsf' as <-.
  all: first [done | by exists f].
Qed.

Lemma alter_last_shape {A} (f : A → A) (l objs : list A) :
  (∃ p, objs = l ++ [p]) → ∃ p, alter f (length l) objs = l ++ [p].
Proof. intros [p ->]. exists (f p). apply alter_last. Qed.

(** The copy of lines 469-472: the original under a name of its own, with
    a mesh of its own that holds what the mesh of the original holds. *)
Lemma wmo_copy_made name st o st' :
  (let* originalObject := objects_getitem name in
   let* importedFile := object_copy originalObject in
   let* data := mesh_copy (o_data originalObject) in
   set_data importedFile (Some data) ;;
   link importedFile ;;
   ret importedFile) st = Done o st' →
  ∃ i orig m doc,
    objects_find name st = Some (i, orig)
    ∧ o_data orig = Some m
    ∧ mesh_data st !! m = Some doc
    ∧ o = length (objects st)
    ∧ objects st'
      = objects st ++ [mkBObject (unique_name (names st) (o_name orig))
                                 (Some (length (mesh_data st)))
                                 (o_parent orig) (o_location orig)
                                 (o_rotation_euler orig) (o_scale orig)]
    ∧ mesh_data st' = mesh_data st ++ [doc].
Proof.
  intros Hr.
  pop Hr H1. unfold objects_getitem in H1.
  destruct (objects_find name st) as [[i orig]|] eqn:Hfind; [|done].
  injection H1 as <- <-.
  pop Hr H2. unfold object_copy, add_object in H2. injection H2 as <- <-.
  pop Hr H3. unfold mesh_copy in H3.
  destruct (o_data orig) as [m|] eqn:Hdata; [|done].
  cbn [mesh_data with_objects] in H3.
  destruct (mesh_data st !! m) as [doc|] eqn:Hdoc; [|done].
  unfold meshes_new in H3. injection H3 as <- <-.
  unfold set_data in Hr. pop_update Hr.
  pop Hr H5. unfold link, modify in H5. injection H5 as <- <-.
  injection Hr as <- <-.
  exists i, orig, m, doc. do 4 (split; [done|]).
  cbn [objects with_objects mesh_data]. rewrite alter_last.
  done.
Qed.

(** X17. A wmo row whose file is the name of an object of the scene and has
    no placement table beside it copies that object. The copy has a mesh of
    its own, holding what the mesh of the original holds, and goes under the
    parent made for the row; its own place, turn and scale are those of the
    original, which is left as it was. *)
Theorem wmo_row_copy_has_a_mesh_of_its_own
    (rec : string → option nat → M nat) (baseDir : string)
    (wmoparent : option nat) (row : gmap string string) (mf : string)
    (st st' : Blender) (o : nat) :
  row !! "ModelFile" = Some mf →
  is_Some (objects_find (basename mf) st) →
  path_exists fs (path_join baseDir (replace ".obj" csv_suffix mf)) = false →
  adt_wmo fs rec baseDir wmoparent row st = Done o st' →
  ∃ i orig m doc b,
    objects_find (basename mf) st = Some (i, orig)
    ∧ o_data orig = Some m
    ∧ mesh_data st !! m = Some doc
    ∧ objects st' !! i = Some orig
    ∧ objects st' !! o = Some b
    ∧ o_data b = Some (length (mesh_data st))
    ∧ mesh_data st' !! length (mesh_data st) = Some doc
    ∧ (m < length (mesh_data st))%nat
    ∧ o_parent b = Some (length (objects st))
    ∧ o_location b = o_location orig
    ∧ o_rotation_euler b = o_rotation_euler orig
    ∧ o_scale b = o_scale orig.
Proof.
  intros Hmf [[i orig] Hfind] Hcsv. unfold adt_wmo. intros Hr.
  rewrite (bind_step _ _ _ _ _ (row_get_Some _ _ _ _ Hmf)) in Hr.
  rewrite (bind_step _ _ _ _ _ (print_printed _ _)) in Hr.
  pop Hr H1. unfold objects_new, add_object in H1. injection H1 as <- <-.
  unfold set_parent, map_location, map_rotation in Hr.
  pop_update Hr.
  pop_float Hr Hpx. pop_float Hr Hpz. pop_float Hr Hpy.
  pop_update Hr. pop_update Hr.
  pop_float Hr Hrz. pop_update Hr.
  pop_float Hr Hrx. pop_update Hr.
  pop_float Hr Hry. pop_update Hr.
  pop Hr Hsc.
  pop Hr H5. unfold link, modify in H5. injection H5 as <- <-.
  pop Hr H6. injection H6 as <- <-.
  pop Hr Hacq. pop_update Hr. injection Hr as <- <-.
  (* the objects before the copy: those of [st], then the parent *)
  match type of Hacq with
  | _ ?sB = _ =>
      assert (Hbefore : (∃ p, objects sB = objects st ++ [p])
                        ∧ mesh_data sB = mesh_data st)
  end.
  { apply apply_scale_Done in Hsc as (sf & Hsf & [[-> ->]|(Hne & f & Hf & ->)]);
      (split; [|done]); cbn [objects with_objects printed];
      repeat apply alter_last_shape; eauto. }
  destruct Hbefore as [[p Hobjs] Hmesh].
  match type of Hacq with
  | _ ?sB = _ =>
      assert (Hfind' : objects_find (basename mf) sB = Some (i, orig))
  end.
  { unfold objects_find in Hfind |- *. rewrite Hobjs.
    apply list_find_app_Some. by left. }
  rewrite Hfind', Hcsv in Hacq. rewrite bool_decide_eq_true_2 in Hacq by eauto.
  cbn [negb] in Hacq.
  apply wmo_copy_made in Hacq
    as (i' & orig' & m & doc & Hf' & Hdata & Hdoc & -> & Hobjs' & Hmesh').
  rewrite Hfind' in Hf'. injection Hf' as <- <-.
  cbn [objects mesh_data with_objects] in Hobjs, Hmesh, Hdoc, Hmesh', Hobjs' |- *.
  rewrite Hmesh in Hdoc, Hmesh', Hobjs'. rewrite Hobjs in Hobjs' |- *.
  assert (Horig : objects st !! i = Some orig).
  { unfold objects_find in Hfind. by apply list_find_Some in Hfind as (Hi' & _). }
  assert (Hi : (i < length (objects st))%nat) by eauto using lookup_lt_Some.
  exists i, orig, m, doc. eexists.
  do 3 (split; [done|]).
  rewrite Hobjs', Hmesh', length_app. cbn [length].
  split.
  { rewrite list_lookup_alter_ne by lia.
    rewrite <- app_assoc. by rewrite lookup_app_l. }
  split.
  { rewrite list_lookup_alter_eq. rewrite lookup_app_r; rewrite length_app; cbn; [|lia].
    replace (length (objects st) + 1 - (length (objects st) + 1))%nat with 0%nat by lia.
    reflexivity. }
  cbn [o_data o_parent o_location o_rotation_euler o_scale].
  split; [done|]. split; [by apply list_lookup_middle|].
  split; [eauto using lookup_lt_Some|]. done.
Qed.

(** What a wmo row puts under its parent: an object, imported or copied,
    that stands at the end of the scene, the objects before it being as they
    were. *)
Lemma wmo_acquired (fuel : nat) (path name : string) (present csv : bool)
    (parent : option nat) (st st' : Blender) (o : nat) :
  (if negb present then importWoWOBJ fs settings fuel path parent
   else if csv then importWoWOBJ fs settings fuel path parent
   else
     let* originalObject := objects_getitem name in
     let* importedFile := object_copy originalObject in
     let* data := mesh_copy (o_data originalObject) in
     set_data importedFile (Some data) ;;
     link importedFile ;;
     ret importedFile) st = Done o st' →
  o = length (objects st)
  ∧ (∀ i, (i < length (objects st))%nat → objects st' !! i = objects st !! i)
  ∧ is_Some (objects st' !! o).
Proof.
  assert (Himp : importWoWOBJ fs settings fuel path parent st = Done o st' →
                 o = length (objects st)
                 ∧ (∀ i, (i < length (objects st))%nat →
                         objects st' !! i = objects st !! i)
                 ∧ is_Some (objects st' !! o)).
  { intros Hr. apply import_Done_inv in Hr as (doc & m & _ & _ & -> & Hobj & _).
    cbn [objects with_root] in Hobj. split; [done|]. split.
    - intros i Hi. rewrite Hobj by lia. by apply lookup_app_l.
    - rewrite Hobj by lia. rewrite list_lookup_middle by done. eauto. }
  destruct present; cbn [negb]; [|done]. destruct csv; [done|]. intros Hr.
  apply wmo_copy_made in Hr as (i & orig & m & doc & _ & _ & _ & -> & Hobjs & _).
  rewrite Hobjs. split; [done|]. split.
  - intros j Hj. by apply lookup_app_l.
  - rewrite list_lookup_middle by done. eauto.
Qed.

(** X18. A wmo row that returns has made a parent for its object: an empty
    named after the file, under [wmoparent], which carries the placement of
    the row: it stands at (max_size - PositionX, -(max_size - PositionZ),
    PositionY), turned by (RotationZ, RotationX, 90 + RotationY) degrees,
    with the scale factor on every axis, or 1 when the row has none. The
    object of the row, imported or copied, is the next object and has that
    empty as its parent. *)
Theorem wmo_row_parent_carries_the_placement
    (fuel : nat) (baseDir : string) (wmoparent : option nat)
    (row : gmap string string) (st st' : Blender) (o : nat) :
  adt_wmo fs (importWoWOBJ fs settings fuel) baseDir wmoparent row st = Done o st' →
  ∃ mf p b px py pz rx ry rz sf,
    row !! "ModelFile" = Some mf
    ∧ row !! "ScaleFactor" = Some sf
    ∧ objects st' !! length (objects st) = Some p
    ∧ o = S (length (objects st))
    ∧ objects st' !! o = Some b
    ∧ cell row "PositionX" = Some px ∧ cell row "PositionY" = Some py
    ∧ cell row "PositionZ" = Some pz
    ∧ cell row "RotationX" = Some rx ∧ cell row "RotationY" = Some ry
    ∧ cell row "RotationZ" = Some rz
    ∧ o_name p = unique_name (names st) (basename mf +:+ " parent")
    ∧ o_data p = None
    ∧ o_parent p = wmoparent
    ∧ o_location p
      = (fsub max_size px, fmul (fsub max_size pz) (of_int (-1)), py)
    ∧ o_rotation_euler p
      = (fadd (of_int 0) (radians rz),
         fadd (of_int 0) (radians rx),
         radians (fadd (of_int 90) ry))
    ∧ (if String.eqb sf "" then o_scale p = one3
       else ∃ f, pyfloat sf = Some f ∧ o_scale p = (f, f, f))
    ∧ o_parent b = Some (length (objects st)).
Proof.
  unfold adt_wmo. intros Hr.
  pop Hr H1. apply row_get_Done in H1 as [-> Hmf].
  pop Hr H1. injection H1 as <- <-.
  pop Hr H1. unfold objects_new, add_object in H1. injection H1 as <- <-.
  unfold set_parent, map_location, map_rotation in Hr.
  pop_update Hr.
  pop_float Hr Hpx. pop_float Hr Hpz. pop_float Hr Hpy.
  pop_update Hr. pop_update Hr.
  pop_float Hr Hrz. pop_update Hr.
  pop_float Hr Hrx. pop_update Hr.
  pop_float Hr Hry. pop_update Hr.
  pop Hr Hsc.
  pop Hr H5. unfold link, modify in H5. injection H5 as <- <-.
  pop Hr H6. injection H6 as <- <-.
  pop Hr Hacq. pop_update Hr. injection Hr as <- <-.
  apply wmo_acquired in Hacq as (-> & Hkeep & [b0 Hb0]).
  match goal with
  | _ : row !! "ModelFile" = Some ?mf,
    _ : cell row "PositionX" = Some ?px, _ : cell row "PositionY" = Some ?py,
    _ : cell row "PositionZ" = Some ?pz, _ : cell row "RotationX" = Some ?rx,
    _ : cell row "RotationY" = Some ?ry, _ : cell row "RotationZ" = Some ?rz
    |- _ =>
      apply apply_scale_Done in Hsc as (sf & Hsf & [[-> ->]|(Hne & f & Hf & ->)]);
      [ exists mf,
          (mkBObject (unique_name (names st) (basename mf +:+ " parent")) None
                     wmoparent
                     (fsub max_size px, fmul (fsub max_size pz) (of_int (-1)), py)
                     (fadd (of_int 0) (radians rz), fadd (of_int 0) (radians rx),
                      radians (fadd (of_int 90) ry))
                     one3)
      | exists mf,
          (mkBObject (unique_name (names st) (basename mf +:+ " parent")) None
                     wmoparent
                     (fsub max_size px, fmul (fsub max_size pz) (of_int (-1)), py)
                     (fadd (of_int 0) (radians rz), fadd (of_int 0) (radians rx),
                      radians (fadd (of_int 90) ry))
                     (f, f, f)) ];
      exists (mkBObject (o_name b0) (o_data b0) (Some (length (objects st)))
                        (o_location b0) (o_rotation_euler b0) (o_scale b0)),
        px, py, pz, rx, ry, rz
  end.
  all: eexists; split; [done|]; split; [exact Hsf|].
  all: cbn [objects with_objects printed length] in Hkeep, Hb0 |- *.
  all: rewrite !length_alter, length_app in Hkeep, Hb0 |- *; cbn [length] in *.
  all: replace (length (objects st) + 1)%nat with (S (length (objects st)))
         in Hkeep, Hb0 |- * by lia.
  all: split; [rewrite list_lookup_alter_ne by lia;
               rewrite Hkeep by lia; rewrite !list_lookup_alter_eq;
               rewrite list_lookup_middle by done;
               cbv [fmap option_fmap option_map o_name o_data o_parent o_location
                    o_rotation_euler o_scale set_x set_y set_z fst snd zero3];
               reflexivity|].
  all: split; [done|].
  all: split; [rewrite list_lookup_alter_eq, Hb0; reflexivity|].
  all: do 6 (split; [done|]).
  all: cbn [o_name o_data o_parent o_location o_rotation_euler o_scale].
  all: do 5 (split; [done|]).
  all: split; [|done].
  - done.
  - apply String.eqb_neq in Hne. rewrite Hne. by exists f.
Qed.

End PlacementFacts.

(** * A table that places its own file *)

Section EndlessFacts.
Context `{Host : HostNum}.
Variable fs : FileSystem.
Variable settings : Settings.

Lemma succeeds_bind {A B} (m : M A) (k : A → M B) :
  succeeds m → (∀ a, succeeds (k a)) → succeeds (bind m k).
Proof.
  intros Hm Hk st. destruct (Hm st) as (a & st1 & Hst).
  unfold bind. rewrite Hst. apply Hk.
Qed.

Lemma succeeds_ret {A} (a : A) : succeeds (ret a).
Proof. intros st. by eexists _, _. Qed.

Lemma succeeds_gets {A} (f : Blender → A) : succeeds (gets f).
Proof. intros st. by eexists _, _. Qed.

Lemma succeeds_modify f : succeeds (modify f).
Proof. intros st. by eexists _, _. Qed.

Lemma succeeds_add_object o : succeeds (add_object o).
Proof. intros st. by eexists _, _. Qed.

Lemma succeeds_set_name o n : succeeds (set_name o n).
Proof. intros st. by eexists _, _. Qed.

Lemma succeeds_new_group n0 n1 obj : succeeds (new_group n0 n1 obj).
Proof.
  unfold new_group, objects_new, set_parent, map_rotation, update, link.
  repeat first [ apply succeeds_ret | apply succeeds_modify | apply succeeds_add_object
               | apply succeeds_set_name | apply succeeds_bind; [|intros ?] ].
Qed.

Lemma succeeds_group_if (b : bool) n0 n1 obj :
  succeeds (if b then let* g := new_group n0 n1 obj in ret (Some g) else ret None).
Proof.
  destruct b; [|apply succeeds_ret].
  apply succeeds_bind; [apply succeeds_new_group|intros ?; apply succeeds_ret].
Qed.

Lemma dies_bind_l {A B} (m : M A) (k : A → M B) : dies m → dies (bind m k).
Proof. intros Hm st. unfold bind. by rewrite Hm. Qed.

Lemma dies_bind_r {A B} (m : M A) (k : A → M B) :
  succeeds m → (∀ a, dies (k a)) → dies (bind m k).
Proof.
  intros Hm Hk st. destruct (Hm st) as (a & st1 & Hst).
  unfold bind. rewrite Hst. apply Hk.
Qed.

Lemma row_float_cell row key v st :
  cell row key = Some v → row_float row key st = Done v st.
Proof.
  unfold cell, row_float. destruct (row !! key) as [s|] eqn:Hs; [|done]. cbn.
  intros Hv. rewrite (bind_step _ _ _ _ _ (row_get_Some _ _ _ _ Hs)). by rewrite Hv.
Qed.

Lemma apply_scale_returns row o st :
  row !! "ScaleFactor" = Some "" ∨ is_Some (cell row "ScaleFactor") →
  ∃ st', apply_scale row o st = Done () st'.
Proof.
  unfold apply_scale. intros [Hsf|[f Hf]].
  - rewrite (bind_step _ _ _ _ _ (row_get_Some _ _ _ _ Hsf)). by eexists.
  - pose proof Hf as Hc. unfold cell in Hf.
    destruct (row !! "ScaleFactor") as [s|] eqn:Hs; [|done].
    rewrite (bind_step _ _ _ _ _ (row_get_Some _ _ _ _ Hs)).
    destruct (String.eqb s ""); [by eexists|].
    rewrite (bind_step _ _ _ _ _ (row_float_cell _ _ _ _ Hc)). by eexists.
Qed.

Lemma update_eq o f st : update o f st = Done () (with_objects (alter f o) st).
Proof. done. Qed.

Lemma link_eq o st :
  link o st = Done () (mkBlender (objects st) (mesh_data st) (collection st ++ [o])
                                 (importedModelIDs st) (stdout st)).
Proof. done. Qed.

Section SelfRows.
Variable rec : string → option nat → M nat.
Variable baseDir : string.
Variable row : gmap string string.
Variable mf mid : string.
Hypothesis rec_dies : ∀ gp, dies (rec (path_join baseDir mf) gp).
Hypothesis row_file : row !! "ModelFile" = Some mf.
Hypothesis row_id : row !! "ModelId" = Some mid.
Hypothesis row_type : row !! "Type" = Some "wmo".
Hypothesis row_cells : wmo_cells row.
Hypothesis table_there :
  path_exists fs (path_join baseDir (replace ".obj" csv_suffix mf)) = true.
Hypothesis wmo_on : importWMO settings = true.
Hypothesis duplicates_on : allowDuplicates settings = true.

Lemma adt_wmo_dies wp : dies (adt_wmo fs rec baseDir wp row).
Proof.
  destruct row_cells as ([px Hpx] & [py Hpy] & [pz Hpz] & [rx Hrx] & [ry Hry]
                         & [rz Hrz] & Hsf).
  intros st. unfold adt_wmo.
  rewrite (bind_step _ _ _ _ _ (row_get_Some _ _ _ _ row_file)).
  rewrite (bind_step _ _ _ _ _ (print_printed _ _)).
  unfold objects_new. unfold bind at 1. cbn [add_object].
  unfold set_parent, map_location, map_rotation.
  rewrite (bind_step _ _ _ _ _ (update_eq _ _ _)).
  rewrite (bind_step _ _ _ _ _ (row_float_cell _ _ _ _ Hpx)).
  rewrite (bind_step _ _ _ _ _ (row_float_cell _ _ _ _ Hpz)).
  rewrite (bind_step _ _ _ _ _ (row_float_cell _ _ _ _ Hpy)).
  rewrite (bind_step _ _ _ _ _ (update_eq _ _ _)).
  rewrite (bind_step _ _ _ _ _ (update_eq _ _ _)).
  rewrite (bind_step _ _ _ _ _ (row_float_cell _ _ _ _ Hrz)).
  rewrite (bind_step _ _ _ _ _ (update_eq _ _ _)).
  rewrite (bind_step _ _ _ _ _ (row_float_cell _ _ _ _ Hrx)).
  rewrite (bind_step _ _ _ _ _ (update_eq _ _ _)).
  rewrite (bind_step _ _ _ _ _ (row_float_cell _ _ _ _ Hry)).
  rewrite (bind_step _ _ _ _ _ (update_eq _ _ _)).
  match goal with
  | |- bind (apply_scale row ?o) _ ?s = _ =>
      destruct (apply_scale_returns row o s Hsf) as [s' Hs']
  end.
  rewrite (bind_step _ _ _ _ _ Hs').
  rewrite (bind_step _ _ _ _ _ (link_eq _ _)).
  rewrite (bind_step _ _ _ _ _ (in_objects_eq _ _)).
  rewrite table_there. unfold bind at 1.
  destruct (negb _); by rewrite rec_dies.
Qed.

Lemma adt_dispatch_dies w d g : dies (adt_dispatch fs settings rec baseDir w d g row).
Proof.
  intros st. unfold adt_dispatch.
  rewrite (bind_step _ _ _ _ _ (row_get_Some _ _ _ _ row_type)).
  rewrite wmo_on. cbn [String.eqb Ascii.eqb Bool.eqb andb].
  apply dies_bind_l, adt_wmo_dies.
Qed.

Lemma adt_row_dies w d g : dies (adt_row fs settings rec baseDir w d g row).
Proof.
  intros st. unfold adt_row.
  rewrite (bind_step _ _ _ _ _ (gets_eq _ _)).
  rewrite (bind_step _ _ _ _ _ (row_get_Some _ _ _ _ row_id)).
  destruct (importedModelIDs st) as [l|] eqn:Hids.
  - rewrite (bind_step _ _ _ _ _ (temp_items_Shared _)).
    rewrite duplicates_on. cbn [negb].
    destruct (bool_decide _).
    + apply dies_bind_l, adt_dispatch_dies.
    + rewrite (bind_step _ _ _ _ _ (temp_append_Shared _ _)).
      apply dies_bind_l, adt_dispatch_dies.
  - rewrite (bind_step _ _ _ _ _ (temp_items_Fresh _ _)).
    rewrite duplicates_on. cbn [negb].
    destruct (bool_decide _).
    + apply dies_bind_l, adt_dispatch_dies.
    + rewrite (bind_step _ _ _ _ _ (temp_append_Fresh _ _ _)).
      apply dies_bind_l, adt_dispatch_dies.
Qed.

Lemma import_csv_dies t obj gp :
  "Type" ∈ fieldnames t →
  (∃ rest, rows t = row :: rest) →
  dies (import_csv fs settings rec baseDir t obj gp).
Proof.
  intros Hty [rest Hrows]. unfold import_csv.
  rewrite bool_decide_eq_true_2 by done. rewrite Hrows.
  do 3 (apply dies_bind_r; [apply succeeds_group_if|intros ?]).
  cbn [for_rows]. apply dies_bind_l, adt_row_dies.
Qed.

End SelfRows.

(** X19. The importer keeps no record of the files it is in the middle of.
    When [importWMO] and [allowDuplicates] are on, and the table of a file
    that reads and whose mesh builds opens with a wmo row that names the
    file itself, the import of the file enters itself again at that row,
    and so on without end: whatever fuel it is given, it neither returns
    nor raises. *)
Theorem table_that_places_its_own_file_never_returns
    (path : string) (doc : ObjDoc) (m : gmap string string)
    (csvFile : FileContent) (row : gmap string string)
    (mf mid : string) (fuel : nat) (gp : option nat) (st : Blender) :
  read_files fs path = Ret (doc, m) →
  build_mesh doc = Ret () →
  importWMO settings = true →
  allowDuplicates settings = true →
  fs (replace ".obj" csv_suffix path) = Some csvFile →
  "Type" ∈ fieldnames (table csvFile) →
  head (rows (table csvFile)) = Some row →
  row !! "Type" = Some "wmo" →
  row !! "ModelId" = Some mid →
  row !! "ModelFile" = Some mf →
  path_join (path_split path).1 mf = path →
  path_exists fs (path_join (path_split path).1 (replace ".obj" csv_suffix mf)) = true →
  wmo_cells row →
  importWoWOBJ fs settings fuel path gp st = OutOfFuel.
Proof.
  intros Hr Hb Hwmo Hdup Hfile Hty Hrow Htype Hid Hmf Hself Hcsv Hcells.
  revert gp st. induction fuel as [|fuel IH]; intros gp st; [done|].
  rewrite (import_made _ _ _ _ _ _ _ _ Hr), Hb. unfold use_csv. rewrite Hwmo, Hfile.
  cbn [orb]. apply dies_bind_l.
  apply (import_csv_dies _ _ row mf mid); try done.
  - intros gp' st'. rewrite Hself. apply IH.
  - destruct (rows (table csvFile)) as [|r rest]; [done|].
    injection Hrow as ->. by exists rest.
Qed.

End EndlessFacts.

(** * Nodes, layers and images *)

Section NodeFacts.
Context {Node : Type}.
Variable node_type : Node → string.

(** X20. [getFirstNodeOfType] returns the first node of the list whose type
    is the one asked for: no node before it has that type; and [None] when
    no node of the list has it. *)
Theorem getFirstNodeOfType_is_the_first_of_its_type
    (nodes : list Node) (nodeType : string) :
  match getFirstNodeOfType node_type nodes nodeType with
  | Some node =>
      ∃ i, nodes !! i = Some node
           ∧ node_type node = nodeType
           ∧ ∀ j other, (j < i)%nat → nodes !! j = Some other →
                        node_type other ≠ nodeType
  | None => ∀ other, other ∈ nodes → node_type other ≠ nodeType
  end.
Proof.
  induction nodes as [|node rest IH]; cbn [getFirstNodeOfType].
  - intros other Hin. by apply elem_of_nil in Hin.
  - destruct (String.eqb_spec (node_type node) nodeType) as [Heq|Hne].
    + exists 0%nat. split; [done|]. split; [done|]. intros j other Hj. lia.
    + destruct (getFirstNodeOfType node_type rest nodeType) as [found|].
      * destruct IH as (i & Hi & Hty & Hbefore). exists (S i).
        split; [done|]. split; [done|].
        intros [|j] other Hj Hother; [by injection Hother as <-|].
        apply (Hbefore j); [lia|done].
      * intros other Hin. apply elem_of_cons in Hin as [->|Hin]; [done|].
        by apply IH.
Qed.

Lemma shader_and_output_from (nodes : list Node) (principled outNode : option Node) :
  shader_and_output node_type nodes principled outNode
  = (match principled with
     | Some _ => principled
     | None => getFirstNodeOfType node_type nodes "BSDF_PRINCIPLED"
     end,
     match outNode with
     | Some _ => outNode
     | None => getFirstNodeOfType node_type nodes "OUTPUT_MATERIAL"
     end).
Proof.
  revert principled outNode.
  induction nodes as [|node rest IH]; intros principled outNode.
  - by destruct principled, outNode.
  - cbn [shader_and_output getFirstNodeOfType].
    destruct principled as [p|], outNode as [o|]; cbn [is_None_or_not andb negb];
      repeat match goal with
        | |- context [String.eqb ?a ?b] => destruct (String.eqb a b)
        end; cbn [is_None_or_not andb negb]; rewrite ?IH; done.
Qed.

(** X21. The loop that looks for the shader and the output of a new material
    finds what two calls of [getFirstNodeOfType] find: leaving the loop as
    soon as both are found changes nothing. *)
Theorem shader_loop_finds_the_first_of_each_type (nodes : list Node) :
  shader_and_output node_type nodes None None
  = (getFirstNodeOfType node_type nodes "BSDF_PRINCIPLED",
     getFirstNodeOfType node_type nodes "OUTPUT_MATERIAL").
Proof. apply shader_and_output_from. Qed.

End NodeFacts.

(** ** Numbers as Blender and the importer write them *)

Lemma pretty_N_go_first (x : N) : ∀ s,
  (0 < x)%N → ∃ c r, pretty_N_go x s = String c r ∧ c ≠ "0"%char.
Proof.
  induction (N.lt_wf_0 x) as [x _ IH]; intros s Hx.
  rewrite pretty_N_go_step by done.
  assert (0 < x < 10 ∨ 10 ≤ x)%N as [Hsmall|Hbig] by lia.
  - replace (x `div` 10)%N with 0%N by (symmetry; apply N.div_small; lia).
    rewrite pretty_N_go_0. eexists _, _. split; [done|].
    rewrite N.mod_small by lia. intros Hc.
    apply (pretty_N_char_inj x 0) in Hc; lia.
  - apply IH.
    + apply N.div_lt; lia.
    + apply N.div_str_pos; lia.
Qed.

Lemma pretty_first (k : nat) :
  k ≠ 0%nat → ∃ c r, pretty k = String c r ∧ c ≠ "0"%char.
Proof.
  intros Hk. unfold pretty, pretty_nat, pretty, pretty_N.
  destruct (decide (N.of_nat k = 0%N)); [lia|].
  apply pretty_N_go_first. lia.
Qed.

Lemma length_append (a b : string) :
  String.length (a +:+ b) = (String.length a + String.length b)%nat.
Proof.
  induction a as [|c a IH]; [done|].
  change (S (String.length (a +:+ b)) = S (String.length a + String.length b)).
  by rewrite IH.
Qed.

Lemma append_inj_r (a b t : string) : a +:+ t = b +:+ t → a = b.
Proof.
  revert b. induction a as [|c a IH]; intros [|d b]; try done.
  - intros Heq. apply (f_equal String.length) in Heq.
    change ("" +:+ t) with t in Heq. rewrite length_append in Heq. cbn in Heq. lia.
  - intros Heq. apply (f_equal String.length) in Heq.
    change ("" +:+ t) with t in Heq. rewrite length_append in Heq. cbn in Heq. lia.
  - change (String c (a +:+ t) = String d (b +:+ t) → String c a = String d b).
    intros [= -> Heq]. f_equal. by apply IH.
Qed.

(** X22. The layers of the mesh get names of their own: [UVMap] for the first
    channel and [UV2Map], [UV3Map], ... for the next, no two alike. *)
Theorem uv_layers_have_names_of_their_own (i j : nat) :
  i ≠ j → uv_name i ≠ uv_name j.
Proof.
  assert (Hfirst : ∀ k, uv_name (S k) ≠ "UVMap").
  { intros k. unfold uv_name. cbn [Nat.ltb Nat.leb andb].
    destruct (pretty_first (S k + 1)) as (c & r & -> & _); [lia|].
    change (String "U" (String "V" (String c (r +:+ "Map"))) ≠ "UVMap").
    intros Heq. apply (f_equal String.length) in Heq. cbn in Heq.
    rewrite length_append in Heq. cbn in Heq. lia. }
  assert (Hnext : ∀ k l, uv_name (S k) = uv_name (S l) → k = l).
  { intros k l. unfold uv_name. cbn [Nat.ltb Nat.leb andb].
    destruct (pretty_first (S k + 1)) as (c & r & Hk & _); [lia|].
    destruct (pretty_first (S l + 1)) as (c' & r' & Hl & _); [lia|].
    rewrite Hk, Hl.
    change (String "U" (String "V" (String c (r +:+ "Map")))
            = String "U" (String "V" (String c' (r' +:+ "Map"))) → k = l).
    intros [= -> Heq]. apply append_inj_r in Heq. subst r'.
    rewrite <- Hl in Hk. apply (inj pretty) in Hk. lia. }
  intros Hne Heq. destruct i as [|i], j as [|j]; [done| | |].
  - by apply (Hfirst j).
  - by apply (Hfirst i).
  - apply Hnext in Heq. lia.
Qed.

(** ** Images *)

Lemma length_substring_0 (m : nat) : ∀ s, (String.length (substring 0 m s) ≤ m)%nat.
Proof.
  induction m as [|m IH]; intros [|c s]; cbn; try lia. specialize (IH s). lia.
Qed.

Lemma substring_0_all (m : nat) : ∀ s,
  (String.length s ≤ m)%nat → substring 0 m s = s.
Proof.
  induction m as [|m IH]; intros [|c s]; cbn; try done; try lia.
  intros Hlen. f_equal. apply IH. lia.
Qed.

Section ImageFacts.
Variable md5_hexdigest : string → string.
Variable loads : string → bool.

Lemma image_name_short (textureLocation : string) :
  (String.length (image_name md5_hexdigest textureLocation) ≤ 63)%nat.
Proof.
  unfold image_name.
  destruct (Nat.ltb_spec 63 (String.length (splitext (basename textureLocation)).1))
    as [Hlong|Hshort]; [|done].
  etrans; [apply (length_substring_0 7)|lia].
Qed.

(** X23. The name an image is looked up under is at most 63 characters long,
    whatever the file is called and whatever the digest gives. *)
Theorem image_names_fit (textureLocation : string) :
  (String.length (image_name md5_hexdigest textureLocation) ≤ 63)%nat.
Proof. apply image_name_short. Qed.

Lemma getitem_first (name : string) (images : list Image) (image : Image) :
  images_getitem name images = Some image →
  ∀ more, images_getitem name (images ++ more) = Some image.
Proof.
  unfold images_getitem. intros Hget more.
  destruct (list_find _ images) as [[i x]|] eqn:Hfind; [|done].
  injection Hget as ->.
  by rewrite (proj2 (list_find_app_Some _ _ _ _ _) (or_introl Hfind)).
Qed.

Lemma getitem_named (name : string) (images : list Image) (image : Image) :
  images_getitem name images = Some image → i_name image = name.
Proof.
  unfold images_getitem.
  destruct (list_find _ images) as [[i x]|] eqn:Hfind; [|done].
  intros [= <-]. by apply list_find_Some in Hfind as (_ & Hn & _).
Qed.

Lemma getitem_present (name : string) (images : list Image) :
  name ∈ i_name <$> images → is_Some (images_getitem name images).
Proof.
  unfold images_getitem. intros Hin.
  apply list_elem_of_fmap in Hin as (x & -> & Hx).
  destruct (list_find_elem_of (λ i, i_name i = i_name x) images x Hx eq_refl)
    as [[i y] ->]. by eexists.
Qed.

Lemma loadImage_cases (textureLocation : string) (images : list Image) :
  match loadImage md5_hexdigest loads textureLocation images with
  | Image_is image images' =>
      (i_name image = image_name md5_hexdigest textureLocation)
      ∧ (images_getitem (image_name md5_hexdigest textureLocation) images'
         = Some image)
      ∧ (if bool_decide (image_name md5_hexdigest textureLocation
                         ∈ (i_name <$> images))
         then images' = images
         else (images' = images ++ [image]) ∧ (i_filepath image = textureLocation))
  | RuntimeError =>
      (image_name md5_hexdigest textureLocation ∉ (i_name <$> images))
      ∧ (loads textureLocation = false)
  | Image_KeyError => False
  end.
Proof.
  unfold loadImage. set (name := image_name md5_hexdigest textureLocation).
  case_bool_decide as Hin.
  - destruct (getitem_present _ _ Hin) as [image Himage]. rewrite Himage.
    split; [by apply getitem_named in Himage|done].
  - destruct (loads textureLocation); [|done].
    assert (Hshort : slice name 0 63 = name).
    { unfold slice. change (Z.to_nat 0) with 0%nat.
      change (Z.to_nat (63 - 0)) with 63%nat.
      apply substring_0_all. apply image_name_short. }
    rewrite Hshort, unique_name_free by done.
    assert (Hget : images_getitem name (images ++ [mkImage name textureLocation])
                   = Some (mkImage name textureLocation)).
    { unfold images_getitem. apply fmap_Some.
      exists (length images, mkImage name textureLocation). split; [|done].
      apply list_find_Some. split; [by apply list_lookup_middle|]. split; [done|].
      intros j y Hj Hlt Hy. rewrite lookup_app_l in Hj by done. apply Hin.
      apply list_elem_of_fmap. exists y. split; [done|].
      by apply list_elem_of_lookup_2 in Hj. }
    rewrite Hget. done.
Qed.

(** X24. [loadImage] loads a file at most once under its name. When an image
    of that name is there, it is returned and nothing is loaded; otherwise
    the file is loaded, given the name, which the host keeps as it is, and
    returned: the lookup at the end never raises. *)
Theorem loadImage_loads_once_under_the_name
    (textureLocation : string) (images : list Image) :
  match loadImage md5_hexdigest loads textureLocation images with
  | Image_is image images' =>
      (i_name image = image_name md5_hexdigest textureLocation)
      ∧ (if bool_decide (image_name md5_hexdigest textureLocation
                         ∈ (i_name <$> images))
         then images' = images
         else (images' = images ++ [image]) ∧ (i_filepath image = textureLocation))
  | RuntimeError =>
      (image_name md5_hexdigest textureLocation ∉ (i_name <$> images))
      ∧ (loads textureLocation = false)
  | Image_KeyError => False
  end.
Proof.
  pose proof (loadImage_cases textureLocation images) as Hc.
  destruct (loadImage _ _ _ _); [|done|done]. by destruct Hc as (? & _ & ?).
Qed.

(** X25. Two files whose names give the same image name are one image: once
    the first is loaded, asking for the second returns the image of the
    first and loads nothing, whether or not the second file could be
    loaded. *)
Theorem files_of_one_name_share_the_image
    (first second : string) (images images' : list Image) (image : Image) :
  image_name md5_hexdigest first = image_name md5_hexdigest second →
  loadImage md5_hexdigest loads first images = Image_is image images' →
  loadImage md5_hexdigest loads second images' = Image_is image images'.
Proof.
  intros Hname Hfirst.
  pose proof (loadImage_cases first images) as Hc. rewrite Hfirst in Hc.
  destruct Hc as (Hn & Hget & _). rewrite Hname in Hget, Hn.
  unfold loadImage. rewrite Hget. rewrite bool_decide_eq_true_2; [done|].
  rewrite <- Hn. apply list_elem_of_fmap. exists image. split; [done|].
  unfold images_getitem in Hget.
  destruct (list_find _ images') as [[i x]|] eqn:Hfind; [|done].
  injection Hget as ->. apply list_find_Some in Hfind as (Hi & _).
  by apply list_elem_of_lookup_2 in Hi.
Qed.

End ImageFacts.

(** * Names and groups *)

Lemma rjust3_inj (a b : string) (c c' : ascii) (r r' : string) :
  a = String c r → b = String c' r' → c ≠ "0"%char → c' ≠ "0"%char →
  rjust3 a = rjust3 b → a = b.
Proof.
  intros -> -> Hc Hc'.
  destruct r as [|c2 [|c3 r]], r' as [|c2' [|c3' r']]; cbn;
    intros Heq; injection Heq; intros; subst; done.
Qed.

Lemma candidate_inj (objname : string) (j k : nat) :
  candidate objname j = candidate objname k → j = k.
Proof.
  assert (Hlong : ∀ i, candidate objname (S i) ≠ objname).
  { intros i Heq. apply (f_equal String.length) in Heq.
    unfold candidate in Heq. rewrite length_append in Heq.
    change ("." +:+ rjust3 (pretty (S i))) with (String "." (rjust3 (pretty (S i))))
      in Heq.
    cbn [String.length] in Heq. lia. }
  destruct j as [|j], k as [|k]; [done| | |].
  - intros Heq. by destruct (Hlong k).
  - intros Heq. by destruct (Hlong j).
  - unfold candidate. intros Heq. apply (inj (String.append objname)) in Heq.
    injection Heq as Heq.
    destruct (pretty_first (S j)) as (c & r & Hj & Hc); [done|].
    destruct (pretty_first (S k)) as (c' & r' & Hk & Hc'); [done|].
    apply (rjust3_inj _ _ _ _ _ _ Hj Hk Hc Hc') in Heq.
    by apply (inj pretty) in Heq.
Qed.

Lemma unique_go_candidate (names : list string) (objname : string) (fuel : nat) :
  ∀ k, (∀ i, (i < k)%nat → candidate objname i ∈ names) →
       (length names < k + fuel)%nat →
       unique_go fuel names objname (S k) (candidate objname k) ∉ names.
Proof.
  induction fuel as [|fuel IH]; intros k Hall Hlen.
  - exfalso.
    assert (Hsub : candidate objname <$> seq 0 k ⊆+ names).
    { apply NoDup_submseteq.
      - apply NoDup_fmap_2_strong; [|apply NoDup_seq].
        intros i j _ _. apply candidate_inj.
      - intros x Hx. apply list_elem_of_fmap in Hx as (i & -> & Hi).
        apply elem_of_seq in Hi. apply Hall. lia. }
    apply submseteq_length in Hsub. rewrite length_fmap, length_seq in Hsub. lia.
  - cbn [unique_go]. case_bool_decide as Hin; [|done].
    apply (IH (S k)); [|lia].
    intros i Hi. destruct (decide (i = k)) as [->|Hne]; [done|]. apply Hall. lia.
Qed.

(** X26. The loop that looks for a name no object has (lines 277-282) ends by
    itself, on such a name, after at most as many rounds as there are
    objects. *)
Theorem the_name_found_is_free (names : list string) (objname : string) :
  unique_name names objname ∉ names.
Proof.
  unfold unique_name. apply (unique_go_candidate names objname _ 0%nat); [|lia].
  intros i Hi. lia.
Qed.

Section GroupFacts.
Context `{Host : HostNum}.
Variable fs : FileSystem.
Variable settings : Settings.

Lemma delete_last {A} (l : list A) (x : A) : delete (length l) (l ++ [x]) = l.
Proof.
  induction l as [|y l IH]; [done|].
  change (y :: delete (length l) (l ++ [x]) = y :: l). by rewrite IH.
Qed.

Lemma new_group_made (n0 n1 : string) (obj : nat) (st : Blender) :
  ∃ st', new_group n0 n1 obj st = Done (length (objects st)) st'
         ∧ objects st' = objects st ++ [group_object (objects st) n1 obj]
         ∧ mesh_data st' = mesh_data st.
Proof.
  unfold new_group, objects_new. unfold bind at 1. cbn [add_object].
  unfold set_parent. rewrite (bind_step _ _ _ _ _ (update_eq _ _ _)).
  unfold bind at 1. unfold set_name at 1.
  rewrite update_eq.
  unfold map_rotation.
  rewrite (bind_step _ _ _ _ _ (update_eq _ _ _)).
  rewrite (bind_step _ _ _ _ _ (update_eq _ _ _)).
  rewrite (bind_step _ _ _ _ _ (link_eq _ _)).
  eexists. split; [reflexivity|]. split; [|done].
  cbn [objects with_objects]. rewrite !alter_last.
  rewrite delete_last. reflexivity.
Qed.

Lemma prefix_from_lookup {A} (l l' : list A) :
  (∀ i, (i < length l)%nat → l' !! i = l !! i) → l `prefix_of` l'.
Proof.
  intros Hsame. exists (drop (length l) l').
  rewrite <- (take_drop (length l) l') at 1. f_equal.
  apply list_eq. intros i. destruct (decide (i < length l)%nat) as [Hi|Hi].
  - rewrite lookup_take_lt by done. by rewrite Hsame.
  - rewrite lookup_take_ge by lia. symmetry. apply lookup_ge_None. lia.
Qed.

Lemma group_step (on : bool) (n0 n1 : string) (obj : nat) (st st' : Blender)
    (w : option nat) :
  (if on then let* g := new_group n0 n1 obj in ret (Some g) else ret None) st
  = Done w st' →
  objects st' = (if on then objects st ++ [group_object (objects st) n1 obj]
                 else objects st).
Proof.
  destruct on; [|by intros [= _ <-]].
  destruct (new_group_made n0 n1 obj st) as (s1 & Hg & Hobjs & _).
  rewrite (bind_step _ _ _ _ _ Hg). by intros [= _ <-].
Qed.

(** X27. The import of a tile (a file whose table has a [Type] column) that
    returns has made, right after the object of the file and before it read
    any row, one empty for each category that is switched on, in the order
    WMOs, Doodads, GameObjects: each under the object of the file, turned by
    -90 degrees about x, whether or not a row of its category follows. The
    rows have left them as they were made. *)
Theorem tile_groups_are_made_before_the_rows
    (fuel : nat) (path : string) (gp : option nat) (st st' : Blender)
    (doc : ObjDoc) (m : gmap string string) (csvFile : FileContent) (o : nat) :
  read_files fs path = Ret (doc, m) →
  use_csv settings = true →
  fs (replace ".obj" csv_suffix path) = Some csvFile →
  "Type" ∈ fieldnames (table csvFile) →
  importWoWOBJ fs settings (S fuel) path gp st = Done o st' →
  with_groups (tile_groups settings) (length (objects st))
              (objects st ++ [root_object st path])
  `prefix_of` objects st'.
Proof.
  intros Hr Hcsv Hfile Hty Hdone.
  rewrite (import_made _ _ _ _ _ _ _ _ Hr) in Hdone.
  destruct (build_mesh doc) as [[]|e]; [|done].
  rewrite Hcsv, Hfile in Hdone.
  apply bind_Done in Hdone as ([] & s1 & H1 & Hret). injection Hret as _ <-.
  unfold import_csv in H1. rewrite bool_decide_eq_true_2 in H1 by done.
  apply bind_Done in H1 as (w & sw & Hw & H1). apply group_step in Hw.
  apply bind_Done in H1 as (d & sd & Hd & H1). apply group_step in Hd.
  apply bind_Done in H1 as (g & sg & Hg & H1). apply group_step in Hg.
  pose proof (spec_for_rows (length (objects sg)) _ (rows (table csvFile))
                (spec_adt_row fs settings (importWoWOBJ fs settings fuel)
                              (path_split path).1 (spec_import fs settings fuel)
                              (length (objects sg)) w d g) sg (le_n _)) as Hkeep.
  rewrite H1 in Hkeep. destruct Hkeep as [(Hsame & _) _].
  apply prefix_from_lookup in Hsame.
  unfold tile_groups. cbn [with_groups].
  cbn [objects with_root] in Hw. rewrite <- Hw, <- Hd, <- Hg. exact Hsame.
Qed.

End GroupFacts.

(** * The further properties on the small worlds *)

Section MoreEvaluations.
Import Sym Demo More.

Lemma groups_follow_the_g_lines_witness :
  parse_obj tri = Ret (doc_of tri)
  ∧ (m_name <$> meshes (doc_of tri) = omap group_named tri
     ∧ meshIndex (doc_of tri) = Z.of_nat (length (omap group_named tri)) - 1).
Proof.
  assert (Hp : parse_obj tri = Ret (doc_of tri)) by (by vm_compute).
  exact (conj Hp (groups_follow_the_g_lines tri (doc_of tri) Hp)).
Defined.

Lemma vertices_follow_the_v_lines_witness :
  parse_obj tri = Ret (doc_of tri)
  ∧ (mapM (mapM pyfloat) (omap (operands "v") tri) = Some (verts (doc_of tri))
     ∧ mapM (mapM pyfloat) (omap (operands "vn") tri) = Some (normals (doc_of tri))).
Proof.
  assert (Hp : parse_obj tri = Ret (doc_of tri)) by (by vm_compute).
  exact (conj Hp (vertices_follow_the_v_lines tri (doc_of tri) Hp)).
Defined.

Lemma last_mtllib_line_names_the_library_witness :
  parse_obj ["mtllib a.mtl"; "g grp"; "mtllib b.mtl"]
  = Ret (doc_of ["mtllib a.mtl"; "g grp"; "mtllib b.mtl"])
  ∧ mtlfile (doc_of ["mtllib a.mtl"; "g grp"; "mtllib b.mtl"])
    = default "" (last (omap library_named ["mtllib a.mtl"; "g grp"; "mtllib b.mtl"])).
Proof.
  assert (Hp : parse_obj ["mtllib a.mtl"; "g grp"; "mtllib b.mtl"]
               = Ret (doc_of ["mtllib a.mtl"; "g grp"; "mtllib b.mtl"]))
    by (by vm_compute).
  exact (conj Hp (last_mtllib_line_names_the_library _ _ Hp)).
Defined.

Lemma face_line_without_group_witness :
  (parse_obj ["v 0 0 0"] = Ret (doc_of ["v 0 0 0"])
   ∧ split "f 1 1 1" = "f" :: ["1"; "1"; "1"]
   ∧ (omap group_named ["v 0 0 0"] = [] ∨ (length ["1"; "1"; "1"] < 3)%nat))
  ∧ obj_line (doc_of ["v 0 0 0"]) "f 1 1 1"
    = Raise (match mapM (λ v, pyint (before_slash v)) ["1"; "1"; "1"] with
             | Some _ => IndexError
             | None => ValueError
             end).
Proof.
  assert (Hp : parse_obj ["v 0 0 0"] = Ret (doc_of ["v 0 0 0"])) by (by vm_compute).
  assert (Hs : split "f 1 1 1" = "f" :: ["1"; "1"; "1"]) by (by vm_compute).
  assert (Hg : omap group_named ["v 0 0 0"] = [] ∨ (length ["1"; "1"; "1"] < 3)%nat)
    by (left; by vm_compute).
  exact (conj (conj Hp (conj Hs Hg))
           (face_line_without_group_or_third_reference_raises
              ["v 0 0 0"] (doc_of ["v 0 0 0"]) "f 1 1 1" ["1"; "1"; "1"] Hp Hs Hg)).
Defined.

Lemma usemtl_before_the_first_g_line_witness :
  (parse_obj ["v 0 0 0"] = Ret (doc_of ["v 0 0 0"])
   ∧ omap group_named ["v 0 0 0"] = []
   ∧ split "usemtl stone" = "usemtl" :: ["stone"])
  ∧ obj_line (doc_of ["v 0 0 0"]) "usemtl stone" = Raise IndexError.
Proof.
  assert (Hp : parse_obj ["v 0 0 0"] = Ret (doc_of ["v 0 0 0"])) by (by vm_compute).
  assert (Hg : omap group_named ["v 0 0 0"] = []) by (by vm_compute).
  assert (Hs : split "usemtl stone" = "usemtl" :: ["stone"]) by (by vm_compute).
  exact (conj (conj Hp (conj Hg Hs))
           (usemtl_before_the_first_g_line_raises
              ["v 0 0 0"] (doc_of ["v 0 0 0"]) "usemtl stone" ["stone"] Hp Hg Hs)).
Defined.

Lemma materials_are_the_names_witness :
  parse_mtl "/a" library = Ret (mtl_of "/a" library)
  ∧ (is_Some (materials (mtl_of "/a" library) !! "n")
     ↔ "n" ∈ (mtl_bindings "" library).*1).
Proof.
  assert (Hp : parse_mtl "/a" library = Ret (mtl_of "/a" library)) by (by vm_compute).
  exact (conj Hp (materials_are_the_names_with_a_map_Kd_line
                    "/a" library (mtl_of "/a" library) "n" Hp)).
Defined.

Lemma unreadable_file_witness :
  read_files two_trees "/w/nothing.obj" = Raise FileNotFoundError
  ∧ importWoWOBJ two_trees all_on 1 "/w/nothing.obj" None empty_scene
    = Raised FileNotFoundError (parsing "/w/nothing.obj" empty_scene).
Proof.
  assert (Hr : read_files two_trees "/w/nothing.obj" = Raise FileNotFoundError)
    by (by vm_compute).
  exact (conj Hr (unreadable_file_leaves_the_scene_untouched
                    two_trees all_on 0 "/w/nothing.obj" None empty_scene
                    FileNotFoundError Hr)).
Defined.

Lemma failed_mesh_witness :
  (read_files bare "/w/bare.obj" = Ret (doc_of ["v 0 0 0"], ∅)
   ∧ ((length (normals (doc_of ["v 0 0 0"])) < length (verts (doc_of ["v 0 0 0"])))%nat
      ∨ ∃ g face, g ∈ meshes (doc_of ["v 0 0 0"]) ∧ face ∈ m_faces g
                  ∧ face_ok (length (verts (doc_of ["v 0 0 0"]))) face = false))
  ∧ importWoWOBJ bare all_on 1 "/w/bare.obj" None empty_scene
    = Raised IndexError (with_unlinked (doc_of ["v 0 0 0"]) "/w/bare.obj" empty_scene).
Proof.
  assert (Hr : read_files bare "/w/bare.obj" = Ret (doc_of ["v 0 0 0"], ∅))
    by (by vm_compute).
  assert (Hbad : (length (normals (doc_of ["v 0 0 0"]))
                  < length (verts (doc_of ["v 0 0 0"])))%nat
                 ∨ ∃ g face, g ∈ meshes (doc_of ["v 0 0 0"]) ∧ face ∈ m_faces g
                   ∧ face_ok (length (verts (doc_of ["v 0 0 0"]))) face = false).
  { left. vm_compute. lia. }
  exact (conj (conj Hr Hbad)
           (failed_mesh_leaves_an_unlinked_object
              bare all_on 0 "/w/bare.obj" None empty_scene
              (doc_of ["v 0 0 0"]) ∅ Hr Hbad)).
Defined.

Lemma face_corner_without_uv_entry_witness :
  (read_files short_channel "/w/short.obj" = Ret (doc_of one_vt, ∅)
   ∧ default [] (uvs (doc_of one_vt) !! 0%nat) ∈ uvs (doc_of one_vt)
   ∧ default new_OBJMesh (meshes (doc_of one_vt) !! 0%nat) ∈ meshes (doc_of one_vt)
   ∧ (1, 2, 3) ∈ m_faces (default new_OBJMesh (meshes (doc_of one_vt) !! 0%nat))
   ∧ face_verts (length (verts (doc_of one_vt))) (1, 2, 3)
     = Ret (0%nat, 1%nat, 2%nat)
   ∧ NoDup (corners (0%nat, 1%nat, 2%nat))
   ∧ 1%nat ∈ corners (0%nat, 1%nat, 2%nat)
   ∧ (length (default [] (uvs (doc_of one_vt) !! 0%nat)) ≤ 1)%nat)
  ∧ importWoWOBJ short_channel all_on 1 "/w/short.obj" None empty_scene
    = Raised IndexError (with_unlinked (doc_of one_vt) "/w/short.obj" empty_scene).
Proof.
  assert (Hr : read_files short_channel "/w/short.obj" = Ret (doc_of one_vt, ∅))
    by (by vm_compute).
  assert (Hlayer : default [] (uvs (doc_of one_vt) !! 0%nat) ∈ uvs (doc_of one_vt)).
  { vm_compute. apply list_elem_of_here. }
  assert (Hg : default new_OBJMesh (meshes (doc_of one_vt) !! 0%nat)
               ∈ meshes (doc_of one_vt)).
  { vm_compute. apply list_elem_of_here. }
  assert (Hface : (1, 2, 3)
                  ∈ m_faces (default new_OBJMesh (meshes (doc_of one_vt) !! 0%nat))).
  { vm_compute. apply list_elem_of_here. }
  assert (Hf : face_verts (length (verts (doc_of one_vt))) (1, 2, 3)
               = Ret (0%nat, 1%nat, 2%nat)) by (by vm_compute).
  assert (Hnd : NoDup (corners (0%nat, 1%nat, 2%nat))).
  { apply (bool_decide_unpack _). by vm_compute. }
  assert (Hv : 1%nat ∈ corners (0%nat, 1%nat, 2%nat)).
  { apply (bool_decide_unpack _). by vm_compute. }
  assert (Hshort : (length (default [] (uvs (doc_of one_vt) !! 0%nat)) ≤ 1)%nat).
  { vm_compute. lia. }
  exact (conj (conj Hr (conj Hlayer (conj Hg (conj Hface (conj Hf (conj Hnd
                 (conj Hv Hshort)))))))
           (face_corner_without_uv_entry_raises
              short_channel all_on 0 "/w/short.obj" None empty_scene
              (doc_of one_vt) ∅ (default [] (uvs (doc_of one_vt) !! 0%nat))
              (default new_OBJMesh (meshes (doc_of one_vt) !! 0%nat))
              (1, 2, 3) (0%nat, 1%nat, 2%nat) 1%nat
              Hr Hlayer Hg Hface Hf Hnd Hv Hshort)).
Defined.

Lemma import_without_table_witness :
  (read_files two_trees "/w/tree.obj" = Ret (doc_of tri, ∅)
   ∧ build_mesh (doc_of tri) = Ret ()
   ∧ (use_csv all_on = false
      ∨ two_trees (replace ".obj" csv_suffix "/w/tree.obj") = None))
  ∧ importWoWOBJ two_trees all_on 1 "/w/tree.obj" (Some 7%nat) empty_scene
    = Done (length (objects empty_scene))
           (with_root (doc_of tri) "/w/tree.obj" empty_scene).
Proof.
  assert (Hr : read_files two_trees "/w/tree.obj" = Ret (doc_of tri, ∅))
    by (by vm_compute).
  assert (Hb : build_mesh (doc_of tri) = Ret ()) by (by vm_compute).
  assert (Hno : use_csv all_on = false
                ∨ two_trees (replace ".obj" csv_suffix "/w/tree.obj") = None)
    by (right; by vm_compute).
  exact (conj (conj Hr (conj Hb Hno))
           (import_without_table_makes_the_root_only
              two_trees all_on 0 "/w/tree.obj" (Some 7%nat) empty_scene
              (doc_of tri) ∅ Hr Hb Hno)).
Defined.

Lemma doodad_sets_are_skipped_witness :
  (read_files cyclic "/w/house.obj" = Ret (doc_of tri, ∅)
   ∧ build_mesh (doc_of tri) = Ret ()
   ∧ use_csv no_sets = true
   ∧ cyclic (replace ".obj" csv_suffix "/w/house.obj")
     = Some (csv_file wmo_header [placement "" "house.obj" "" "1"])
   ∧ ("Type" ∉ fieldnames (table (csv_file wmo_header [placement "" "house.obj" "" "1"])))
   ∧ importWMOSets no_sets = false)
  ∧ importWoWOBJ cyclic no_sets 1 "/w/house.obj" None empty_scene
    = Done (length (objects empty_scene))
           (printed "WMO import without given parent, creating.."
                    (with_root (doc_of tri) "/w/house.obj" empty_scene)).
Proof.
  assert (Hr : read_files cyclic "/w/house.obj" = Ret (doc_of tri, ∅))
    by (by vm_compute).
  assert (Hb : build_mesh (doc_of tri) = Ret ()) by (by vm_compute).
  assert (Hcsv : use_csv no_sets = true) by reflexivity.
  assert (Hfile : cyclic (replace ".obj" csv_suffix "/w/house.obj")
                  = Some (csv_file wmo_header [placement "" "house.obj" "" "1"]))
    by (by vm_compute).
  assert (Hty : "Type" ∉ fieldnames
                  (table (csv_file wmo_header [placement "" "house.obj" "" "1"]))).
  { apply (bool_decide_unpack _). by vm_compute. }
  assert (Hsets : importWMOSets no_sets = false) by reflexivity.
  exact (conj (conj Hr (conj Hb (conj Hcsv (conj Hfile (conj Hty Hsets)))))
           (doodad_sets_are_skipped_when_switched_off
              cyclic no_sets 0 "/w/house.obj" None empty_scene (doc_of tri) ∅
              (csv_file wmo_header [placement "" "house.obj" "" "1"])
              Hr Hb Hcsv Hfile Hty Hsets)).
Defined.

Lemma import_returns_the_root_witness :
  importWoWOBJ two_trees all_on 2 "/w/adt_1.obj" None first_import
  = Done 6%nat second_time
  ∧ (6%nat = length (objects first_import)
     ∧ objects second_time !! 6%nat
       = Some (root_object first_import "/w/adt_1.obj")
     ∧ ∃ doc m, read_files two_trees "/w/adt_1.obj" = Ret (doc, m)
                ∧ mesh_data second_time
                    !! length (mesh_data first_import)
                  = Some doc).
Proof.
  assert (Hr : importWoWOBJ two_trees all_on 2 "/w/adt_1.obj" None first_import
               = Done 6%nat second_time).
  { unfold second_time at 1. apply returned_Done. by vm_compute. }
  exact (conj Hr (import_returns_the_root_it_made
                    two_trees all_on 2 "/w/adt_1.obj" None first_import
                    second_time 6%nat Hr)).
Defined.

Lemma import_leaves_what_the_scene_had_witness :
  importWoWOBJ two_trees all_on 2 "/w/adt_1.obj" None first_import
  = Done 6%nat second_time
  ∧ ((∀ i b, objects first_import !! i = Some b →
             objects second_time !! i = Some b)
     ∧ (∀ i doc, mesh_data first_import !! i = Some doc →
                 mesh_data second_time !! i = Some doc)
     ∧ ∃ out, stdout second_time = stdout first_import ++ out).
Proof.
  assert (Hr : importWoWOBJ two_trees all_on 2 "/w/adt_1.obj" None first_import
               = Done 6%nat second_time).
  { unfold second_time at 1. apply returned_Done. by vm_compute. }
  exact (conj Hr (import_leaves_what_the_scene_had
                    two_trees all_on 2 "/w/adt_1.obj" None first_import
                    second_time 6%nat Hr)).
Defined.

Lemma gobj_row_placement_witness :
  (adt_gobj (importWoWOBJ chest_tile all_on 1) "/w" None chest empty_scene
   = Done 0%nat with_chest
   ∧ objects with_chest !! 0%nat
     = Some (object_at 0 with_chest))
  ∧ ∃ px py pz qx qy qz qw,
      cell chest "PositionX" = Some px ∧ cell chest "PositionY" = Some py
      ∧ cell chest "PositionZ" = Some pz
      ∧ cell chest "RotationX" = Some qx ∧ cell chest "RotationY" = Some qy
      ∧ cell chest "RotationZ" = Some qz ∧ cell chest "RotationW" = Some qw
      ∧ o_parent (object_at 0 with_chest) = None
      ∧ o_location (object_at 0 with_chest) = (py, fneg px, pz)
      ∧ o_rotation_euler (object_at 0 with_chest)
        = to_euler (qx, qy, fneg qz, qw).
Proof.
  assert (Hr : adt_gobj (importWoWOBJ chest_tile all_on 1) "/w" None chest empty_scene
               = Done 0%nat with_chest).
  { unfold with_chest at 1. apply returned_Done. by vm_compute. }
  assert (Hb : objects with_chest !! 0%nat
               = Some (object_at 0 with_chest)) by (by vm_compute).
  exact (conj (conj Hr Hb)
           (gobj_row_placement (importWoWOBJ chest_tile all_on 1) "/w" None chest
              empty_scene with_chest 0%nat
              (object_at 0 with_chest) Hr Hb)).
Defined.

Lemma doodad_set_row_placement_witness :
  (wmo_row (importWoWOBJ cyclic all_on 1) "/w" None 0%nat house_again with_house
   = Done 3%nat house_twice
   ∧ objects house_twice !! 3%nat
     = Some (object_at 3 house_twice))
  ∧ ∃ px py pz qw qx qy qz,
      cell house_again "PositionX" = Some px ∧ cell house_again "PositionY" = Some py
      ∧ cell house_again "PositionZ" = Some pz
      ∧ cell house_again "RotationW" = Some qw ∧ cell house_again "RotationX" = Some qx
      ∧ cell house_again "RotationY" = Some qy ∧ cell house_again "RotationZ" = Some qz
      ∧ o_parent (object_at 3 house_twice) = Some (default 0%nat None)
      ∧ o_location (object_at 3 house_twice) = (px, py, pz)
      ∧ o_rotation_euler (object_at 3 house_twice)
        = (fadd (to_euler (qw, qx, qy, qz)).1.1 (radians (of_int 90)),
           (to_euler (qw, qx, qy, qz)).1.2,
           (to_euler (qw, qx, qy, qz)).2).
Proof.
  assert (Hr : wmo_row (importWoWOBJ cyclic all_on 1) "/w" None 0%nat house_again
                       with_house
               = Done 3%nat house_twice).
  { unfold house_twice at 1. apply returned_Done. by vm_compute. }
  assert (Hb : objects house_twice !! 3%nat
               = Some (object_at 3 house_twice)) by (by vm_compute).
  exact (conj (conj Hr Hb)
           (doodad_set_row_placement (importWoWOBJ cyclic all_on 1) "/w" None 0%nat
              house_again with_house house_twice 3%nat
              (object_at 3 house_twice) Hr Hb)).
Defined.

Lemma m2_row_placement_witness :
  adt_m2 (importWoWOBJ two_trees all_on 1) "/w" None tree_1 empty_scene
  = Done 0%nat one_tree
  ∧ ∃ b px py pz rx ry rz,
      objects one_tree !! 0%nat = Some b
      ∧ cell tree_1 "PositionX" = Some px ∧ cell tree_1 "PositionY" = Some py
      ∧ cell tree_1 "PositionZ" = Some pz
      ∧ cell tree_1 "RotationX" = Some rx ∧ cell tree_1 "RotationY" = Some ry
      ∧ cell tree_1 "RotationZ" = Some rz
      ∧ o_parent b = None
      ∧ o_location b
        = (fsub max_size px, fmul (fsub max_size pz) (of_int (-1)), py)
      ∧ o_rotation_euler b
        = (fadd (radians (of_int 90)) (radians rz),
           fadd (of_int 0) (radians rx),
           radians (fadd (of_int 90) ry))
      ∧ (∀ sf, tree_1 !! "ScaleFactor" = Some sf → sf ≠ "" →
               ∃ f, pyfloat sf = Some f ∧ o_scale b = (f, f, f)).
Proof.
  assert (Hr : adt_m2 (importWoWOBJ two_trees all_on 1) "/w" None tree_1 empty_scene
               = Done 0%nat one_tree).
  { unfold one_tree at 1. apply returned_Done. by vm_compute. }
  exact (conj Hr (m2_row_placement two_trees all_on 1 "/w" None tree_1 empty_scene
                    one_tree 0%nat Hr)).
Defined.

Lemma wmo_row_copy_witness :
  (house_5 !! "ModelFile" = Some "house.obj"
   ∧ is_Some (objects_find (basename "house.obj") plain_house)
   ∧ path_exists two_trees (path_join "/w" (replace ".obj" csv_suffix "house.obj"))
     = false
   ∧ adt_wmo two_trees no_import "/w" None house_5 plain_house
     = Done 2%nat house_copied)
  ∧ ∃ i orig m doc b,
      objects_find (basename "house.obj") plain_house = Some (i, orig)
      ∧ o_data orig = Some m
      ∧ mesh_data plain_house !! m = Some doc
      ∧ objects house_copied !! i = Some orig
      ∧ objects house_copied !! 2%nat = Some b
      ∧ o_data b = Some (length (mesh_data plain_house))
      ∧ mesh_data house_copied !! length (mesh_data plain_house)
        = Some doc
      ∧ (m < length (mesh_data plain_house))%nat
      ∧ o_parent b = Some (length (objects plain_house))
      ∧ o_location b = o_location orig
      ∧ o_rotation_euler b = o_rotation_euler orig
      ∧ o_scale b = o_scale orig.
Proof.
  assert (Hmf : house_5 !! "ModelFile" = Some "house.obj") by (by vm_compute).
  assert (Hin : is_Some (objects_find (basename "house.obj") plain_house)).
  { apply named_is_found. vm_compute. apply list_elem_of_here. }
  assert (Hcsv : path_exists two_trees
                   (path_join "/w" (replace ".obj" csv_suffix "house.obj")) = false)
    by (by vm_compute).
  assert (Hr : adt_wmo two_trees no_import "/w" None house_5 plain_house
               = Done 2%nat house_copied).
  { unfold house_copied at 1. apply returned_Done. by vm_compute. }
  exact (conj (conj Hmf (conj Hin (conj Hcsv Hr)))
           (wmo_row_copy_has_a_mesh_of_its_own two_trees no_import "/w" None house_5
              "house.obj" plain_house house_copied 2%nat
              Hmf Hin Hcsv Hr)).
Defined.

Lemma wmo_row_parent_witness :
  adt_wmo two_trees (importWoWOBJ two_trees all_on 1) "/w" None house_5 empty_scene
  = Done 1%nat house_placed
  ∧ ∃ mf p b px py pz rx ry rz sf,
      house_5 !! "ModelFile" = Some mf
      ∧ house_5 !! "ScaleFactor" = Some sf
      ∧ objects house_placed !! length (objects empty_scene) = Some p
      ∧ 1%nat = S (length (objects empty_scene))
      ∧ objects house_placed !! 1%nat = Some b
      ∧ cell house_5 "PositionX" = Some px ∧ cell house_5 "PositionY" = Some py
      ∧ cell house_5 "PositionZ" = Some pz
      ∧ cell house_5 "RotationX" = Some rx ∧ cell house_5 "RotationY" = Some ry
      ∧ cell house_5 "RotationZ" = Some rz
      ∧ o_name p = unique_name (names empty_scene) (basename mf +:+ " parent")
      ∧ o_data p = None
      ∧ o_parent p = None
      ∧ o_location p
        = (fsub max_size px, fmul (fsub max_size pz) (of_int (-1)), py)
      ∧ o_rotation_euler p
        = (fadd (of_int 0) (radians rz),
           fadd (of_int 0) (radians rx),
           radians (fadd (of_int 90) ry))
      ∧ (if String.eqb sf "" then o_scale p = one3
         else ∃ f, pyfloat sf = Some f ∧ o_scale p = (f, f, f))
      ∧ o_parent b = Some (length (objects empty_scene)).
Proof.
  assert (Hr : adt_wmo two_trees (importWoWOBJ two_trees all_on 1) "/w" None house_5
                       empty_scene
               = Done 1%nat house_placed).
  { unfold house_placed at 1. apply returned_Done. by vm_compute. }
  exact (conj Hr (wmo_row_parent_carries_the_placement two_trees all_on 1 "/w" None
                    house_5 empty_scene house_placed 1%nat Hr)).
Defined.

Lemma table_that_places_its_own_file_witness :
  (read_files endless "/w/house.obj" = Ret (doc_of tri, ∅)
   ∧ build_mesh (doc_of tri) = Ret ()
   ∧ importWMO duplicates_allowed = true
   ∧ allowDuplicates duplicates_allowed = true
   ∧ endless (replace ".obj" csv_suffix "/w/house.obj")
     = Some (csv_file adt_header [placement "wmo" "house.obj" "1" "1"])
   ∧ ("Type" ∈ fieldnames (table (csv_file adt_header
                                     [placement "wmo" "house.obj" "1" "1"])))
   ∧ head (rows (table (csv_file adt_header [placement "wmo" "house.obj" "1" "1"])))
     = Some house_1
   ∧ house_1 !! "Type" = Some "wmo"
   ∧ house_1 !! "ModelId" = Some "1"
   ∧ house_1 !! "ModelFile" = Some "house.obj"
   ∧ path_join (path_split "/w/house.obj").1 "house.obj" = "/w/house.obj"
   ∧ path_exists endless
       (path_join (path_split "/w/house.obj").1
                  (replace ".obj" csv_suffix "house.obj")) = true
   ∧ wmo_cells house_1)
  ∧ importWoWOBJ endless duplicates_allowed 40 "/w/house.obj" None empty_scene
    = OutOfFuel.
Proof.
  assert (Hr : read_files endless "/w/house.obj" = Ret (doc_of tri, ∅))
    by (by vm_compute).
  assert (Hb : build_mesh (doc_of tri) = Ret ()) by (by vm_compute).
  assert (Hwmo : importWMO duplicates_allowed = true) by reflexivity.
  assert (Hdup : allowDuplicates duplicates_allowed = true) by reflexivity.
  assert (Hfile : endless (replace ".obj" csv_suffix "/w/house.obj")
                  = Some (csv_file adt_header [placement "wmo" "house.obj" "1" "1"]))
    by (by vm_compute).
  assert (Hty : "Type" ∈ fieldnames (table (csv_file adt_header
                                              [placement "wmo" "house.obj" "1" "1"]))).
  { apply (bool_decide_unpack _). by vm_compute. }
  assert (Hrow : head (rows (table (csv_file adt_header
                                      [placement "wmo" "house.obj" "1" "1"])))
                 = Some house_1) by reflexivity.
  assert (Htype : house_1 !! "Type" = Some "wmo") by (by vm_compute).
  assert (Hid : house_1 !! "ModelId" = Some "1") by (by vm_compute).
  assert (Hmf : house_1 !! "ModelFile" = Some "house.obj") by (by vm_compute).
  assert (Hself : path_join (path_split "/w/house.obj").1 "house.obj" = "/w/house.obj")
    by (by vm_compute).
  assert (Hcsv : path_exists endless
                   (path_join (path_split "/w/house.obj").1
                              (replace ".obj" csv_suffix "house.obj")) = true)
    by (by vm_compute).
  assert (Hcells : wmo_cells house_1).
  { repeat split; try (eexists; vm_compute; reflexivity).
    right. eexists. vm_compute. reflexivity. }
  exact (conj (conj Hr (conj Hb (conj Hwmo (conj Hdup (conj Hfile (conj Hty
           (conj Hrow (conj Htype (conj Hid (conj Hmf (conj Hself
           (conj Hcsv Hcells))))))))))))
           (table_that_places_its_own_file_never_returns
              endless duplicates_allowed "/w/house.obj" (doc_of tri) ∅
              (csv_file adt_header [placement "wmo" "house.obj" "1" "1"])
              house_1 "house.obj" "1" 40 None empty_scene
              Hr Hb Hwmo Hdup Hfile Hty Hrow Htype Hid Hmf Hself Hcsv Hcells)).
Defined.

Lemma uv_layers_witness : 0%nat ≠ 1%nat ∧ uv_name 0 ≠ uv_name 1.
Proof.
  assert (Hne : 0%nat ≠ 1%nat) by lia.
  exact (conj Hne (uv_layers_have_names_of_their_own 0 1 Hne)).
Defined.

Lemma files_of_one_name_witness :
  (image_name any_digest "/a/t.png" = image_name any_digest "/b/t.jpg"
   ∧ loadImage any_digest every_file "/a/t.png" []
     = Image_is (mkImage "t" "/a/t.png") [mkImage "t" "/a/t.png"])
  ∧ loadImage any_digest every_file "/b/t.jpg" [mkImage "t" "/a/t.png"]
    = Image_is (mkImage "t" "/a/t.png") [mkImage "t" "/a/t.png"].
Proof.
  assert (Hn : image_name any_digest "/a/t.png" = image_name any_digest "/b/t.jpg")
    by (by vm_compute).
  assert (Hl : loadImage any_digest every_file "/a/t.png" []
               = Image_is (mkImage "t" "/a/t.png") [mkImage "t" "/a/t.png"])
    by (by vm_compute).
  exact (conj (conj Hn Hl)
           (files_of_one_name_share_the_image any_digest every_file
              "/a/t.png" "/b/t.jpg" [] [mkImage "t" "/a/t.png"]
              (mkImage "t" "/a/t.png") Hn Hl)).
Defined.

Lemma tile_groups_witness :
  (read_files two_trees "/w/adt_1.obj" = Ret (doc_of tri, ∅)
   ∧ use_csv all_on = true
   ∧ two_trees (replace ".obj" csv_suffix "/w/adt_1.obj")
     = Some (csv_file adt_header [placement "m2" "tree.obj" "1" "2";
                                  placement "m2" "tree.obj" "2" ""])
   ∧ ("Type" ∈ fieldnames (table (csv_file adt_header
                                     [placement "m2" "tree.obj" "1" "2";
                                      placement "m2" "tree.obj" "2" ""])))
   ∧ importWoWOBJ two_trees all_on 2 "/w/adt_1.obj" None empty_scene
     = Done 0%nat whole_tile)
  ∧ with_groups (tile_groups all_on) (length (objects empty_scene))
                (objects empty_scene ++ [root_object empty_scene "/w/adt_1.obj"])
    `prefix_of` objects whole_tile.
Proof.
  assert (Hr : read_files two_trees "/w/adt_1.obj" = Ret (doc_of tri, ∅))
    by (by vm_compute).
  assert (Hcsv : use_csv all_on = true) by reflexivity.
  assert (Hfile : two_trees (replace ".obj" csv_suffix "/w/adt_1.obj")
                  = Some (csv_file adt_header [placement "m2" "tree.obj" "1" "2";
                                               placement "m2" "tree.obj" "2" ""]))
    by (by vm_compute).
  assert (Hty : "Type" ∈ fieldnames (table (csv_file adt_header
                                              [placement "m2" "tree.obj" "1" "2";
                                               placement "m2" "tree.obj" "2" ""]))).
  { apply (bool_decide_unpack _). by vm_compute. }
  assert (Hd : importWoWOBJ two_trees all_on 2 "/w/adt_1.obj" None empty_scene
               = Done 0%nat whole_tile).
  { unfold whole_tile at 1. apply returned_Done. by vm_compute. }
  exact (conj (conj Hr (conj Hcsv (conj Hfile (conj Hty Hd))))
           (tile_groups_are_made_before_the_rows two_trees all_on 1 "/w/adt_1.obj"
              None empty_scene whole_tile (doc_of tri) ∅
              (csv_file adt_header [placement "m2" "tree.obj" "1" "2";
                                    placement "m2" "tree.obj" "2" ""])
              0%nat Hr Hcsv Hfile Hty Hd)).
Defined.

End MoreEvaluations.
